(** * A shallow embedding of the cs-modbus master core

    The development follows the layout of the library:

    - [Buf]: the byte-buffer and byte-queue primitives the code relies on
      (Node's [Buffer], h5.buffers' [BufferBuilder] and [BufferQueueReader]);
    - [Crc]: the CRC-16 table and [crc16], shared verbatim by
      [lib/transports/RtuTransport.js] and [lib/transports/TunnelTransport.js];
    - [Codec]: the function-code messages of [lib/functions];
    - [Rtu], [Ip], [Tunnel]: the three transports as state machines.

    Bytes are integers in [0, 255] carried as [Z]; a buffer is a [list Z].
    Calls made on collaborators that live outside the transports (the
    connection, a transaction's [start]/[handleResponse]/[handleError]) are
    recorded, in program order, as a list of events; what those callbacks do
    in turn is not followed.  Timers are not modelled: a transport's
    [handleFrameData] is what runs when its end-of-frame timer fires, and
    [handleTimeout] when a transaction's own timer does. *)

From Stdlib Require Import ZArith List Lia Bool.
From stdpp Require Import base option list gmap.
Import ListNotations.

Local Open Scope Z_scope.

(** ** Buffers and the byte-queue reader *)

Module Buf.

Definition buffer := list Z.

Definition is_byte (b : Z) : Prop := 0 <= b < 256.

(** A well-formed buffer holds bytes only. *)
Definition wf (b : buffer) : Prop := Forall is_byte b.

Definition wfb (b : buffer) : bool :=
  forallb (fun x => (0 <=? x) && (x <? 256)) b.

(** [buffer[i]]; reading past the end of a JS buffer gives [undefined],
    here [None]. *)
Definition get (b : buffer) (i : nat) : option Z := b !! i.

(** [buffer.readUInt16BE(offset, true)], on a buffer long enough. *)
Definition readUInt16BE (b : buffer) (offset : nat) : Z :=
  Z.lor (Z.shiftl (nth offset b 0) 8) (nth (S offset) b 0).

(** The two bytes [writeUInt16BE(value, _, true)] stores. *)
Definition uint16BE (value : Z) : buffer :=
  [Z.land (Z.shiftr value 8) 255; Z.land value 255].

(** The two bytes [BufferBuilder.pushUInt16(value, true)] appends
    (little endian: low byte first). *)
Definition uint16LE (value : Z) : buffer :=
  [Z.land value 255; Z.land (Z.shiftr value 8) 255].

(** [new Buffer(size)]: [size] bytes whose content the runtime does not
    promise; [fill i] is whatever byte the fresh buffer holds at [i]. *)
Definition alloc (fill : nat -> Z) (size : nat) : buffer :=
  map fill (seq 0 size).

(** [source.copy(target, 0, sourceStart, sourceEnd)]: the bytes
    [source[sourceStart .. sourceEnd)] (as many as exist, and as fit)
    overwrite the front of [target]; the rest of [target] is kept.  With
    [sourceStart] beyond the end of [source] the model copies nothing;
    what Node does there depends on its version (current ones throw a
    RangeError).  Of the decoders below only [CommandRequest.fromBuffer] on
    a 2-byte buffer gets there. *)
Definition copy (source target : buffer) (sourceStart sourceEnd : nat)
  : buffer :=
  let chunk :=
    take (length target) (take (sourceEnd - sourceStart)
                               (drop sourceStart source)) in
  chunk ++ drop (length chunk) target.

(** *** BufferQueueReader

    The reader is the queue of bytes received and not yet consumed.  The
    shifting operations are defined for a count between 1 and the number
    of queued bytes; outside that range the library raises, here [None]. *)
Definition reader := list Z.

Definition shiftByte (r : reader) : option (Z * reader) :=
  match r with
  | [] => None
  | b :: r' => Some (b, r')
  end.

Definition in_range (count : Z) (r : reader) : bool :=
  (1 <=? count) && (count <=? Z.of_nat (length r)).

Definition shiftBuffer (count : Z) (r : reader) : option (buffer * reader) :=
  if in_range count r
  then Some (take (Z.to_nat count) r, drop (Z.to_nat count) r)
  else None.

Definition skip (count : Z) (r : reader) : option reader :=
  if in_range count r then Some (drop (Z.to_nat count) r) else None.

(** [shiftUInt16()] is big endian, [shiftUInt16(true)] little endian. *)
Definition shiftUInt16 (littleEndian : bool) (r : reader)
  : option (Z * reader) :=
  match r with
  | b0 :: b1 :: r' =>
      Some (if littleEndian
            then Z.lor (Z.shiftl b1 8) b0
            else Z.lor (Z.shiftl b0 8) b1, r')
  | _ => None
  end.

(** The three reads both serial transports make on a frame:
    [unit = shiftByte(); responseBuffer = shiftBuffer(length - 2);
     checksum = shiftUInt16(true)].  On a queue of 1 to 3 bytes the second
    read is refused after the first has taken the unit byte: the callers
    leave the queue one byte shorter in that case. *)
Definition shiftFrame (r : reader) : option (Z * buffer * Z * reader) :=
  '(unit, r1) ← shiftByte r;
  '(responseBuffer, r2) ← shiftBuffer (Z.of_nat (length r1) - 2) r1;
  '(checksum, r3) ← shiftUInt16 true r2;
  Some (unit, responseBuffer, checksum, r3).

End Buf.

(** ** CRC-16 *)

Module Crc.

Definition CRC_TABLE : list Z := [
  0x0000; 0xC0C1; 0xC181; 0x0140; 0xC301; 0x03C0; 0x0280; 0xC241;
  0xC601; 0x06C0; 0x0780; 0xC741; 0x0500; 0xC5C1; 0xC481; 0x0440;
  0xCC01; 0x0CC0; 0x0D80; 0xCD41; 0x0F00; 0xCFC1; 0xCE81; 0x0E40;
  0x0A00; 0xCAC1; 0xCB81; 0x0B40; 0xC901; 0x09C0; 0x0880; 0xC841;
  0xD801; 0x18C0; 0x1980; 0xD941; 0x1B00; 0xDBC1; 0xDA81; 0x1A40;
  0x1E00; 0xDEC1; 0xDF81; 0x1F40; 0xDD01; 0x1DC0; 0x1C80; 0xDC41;
  0x1400; 0xD4C1; 0xD581; 0x1540; 0xD701; 0x17C0; 0x1680; 0xD641;
  0xD201; 0x12C0; 0x1380; 0xD341; 0x1100; 0xD1C1; 0xD081; 0x1040;
  0xF001; 0x30C0; 0x3180; 0xF141; 0x3300; 0xF3C1; 0xF281; 0x3240;
  0x3600; 0xF6C1; 0xF781; 0x3740; 0xF501; 0x35C0; 0x3480; 0xF441;
  0x3C00; 0xFCC1; 0xFD81; 0x3D40; 0xFF01; 0x3FC0; 0x3E80; 0xFE41;
  0xFA01; 0x3AC0; 0x3B80; 0xFB41; 0x3900; 0xF9C1; 0xF881; 0x3840;
  0x2800; 0xE8C1; 0xE981; 0x2940; 0xEB01; 0x2BC0; 0x2A80; 0xEA41;
  0xEE01; 0x2EC0; 0x2F80; 0xEF41; 0x2D00; 0xEDC1; 0xEC81; 0x2C40;
  0xE401; 0x24C0; 0x2580; 0xE541; 0x2700; 0xE7C1; 0xE681; 0x2640;
  0x2200; 0xE2C1; 0xE381; 0x2340; 0xE101; 0x21C0; 0x2080; 0xE041;
  0xA001; 0x60C0; 0x6180; 0xA141; 0x6300; 0xA3C1; 0xA281; 0x6240;
  0x6600; 0xA6C1; 0xA781; 0x6740; 0xA501; 0x65C0; 0x6480; 0xA441;
  0x6C00; 0xACC1; 0xAD81; 0x6D40; 0xAF01; 0x6FC0; 0x6E80; 0xAE41;
  0xAA01; 0x6AC0; 0x6B80; 0xAB41; 0x6900; 0xA9C1; 0xA881; 0x6840;
  0x7800; 0xB8C1; 0xB981; 0x7940; 0xBB01; 0x7BC0; 0x7A80; 0xBA41;
  0xBE01; 0x7EC0; 0x7F80; 0xBF41; 0x7D00; 0xBDC1; 0xBC81; 0x7C40;
  0xB401; 0x74C0; 0x7580; 0xB541; 0x7700; 0xB7C1; 0xB681; 0x7640;
  0x7200; 0xB2C1; 0xB381; 0x7340; 0xB101; 0x71C0; 0x7080; 0xB041;
  0x5000; 0x90C1; 0x9181; 0x5140; 0x9301; 0x53C0; 0x5280; 0x9241;
  0x9601; 0x56C0; 0x5780; 0x9741; 0x5500; 0x95C1; 0x9481; 0x5440;
  0x9C01; 0x5CC0; 0x5D80; 0x9D41; 0x5F00; 0x9FC1; 0x9E81; 0x5E40;
  0x5A00; 0x9AC1; 0x9B81; 0x5B40; 0x9901; 0x59C0; 0x5880; 0x9841;
  0x8801; 0x48C0; 0x4980; 0x8941; 0x4B00; 0x8BC1; 0x8A81; 0x4A40;
  0x4E00; 0x8EC1; 0x8F81; 0x4F40; 0x8D01; 0x4DC0; 0x4C80; 0x8C41;
  0x4400; 0x84C1; 0x8581; 0x4540; 0x8701; 0x47C0; 0x4680; 0x8641;
  0x8201; 0x42C0; 0x4380; 0x8341; 0x4100; 0x81C1; 0x8081; 0x4040
].

(** One round of the loop body:
    [j = (crc ^ byte) & 0xFF; crc >>= 8; crc ^= CRC_TABLE[j]]. *)
Definition crc_step (crc byte : Z) : Z :=
  let j := Z.land (Z.lxor crc byte) 255 in
  Z.lxor (Z.shiftr crc 8) (nth (Z.to_nat j) CRC_TABLE 0).

(** [crc16(firstByte, buffer)]: seeded with 0xFFFF; a [firstByte] of -1
    is left out of the sum. *)
Definition crc16 (firstByte : Z) (buffer : Buf.buffer) : Z :=
  let crc := 0xFFFF in
  let crc := if firstByte =? -1 then crc else crc_step crc firstByte in
  fold_left crc_step buffer crc.

(** [frame(unit, pdu)], the same in both serial transports:
    the unit, the PDU, and the checksum low byte first. *)
Definition frame (unit : Z) (pdu : Buf.buffer) : Buf.buffer :=
  unit :: pdu ++ Buf.uint16LE (crc16 unit pdu).

End Crc.

(** ** The function codec *)

Module Codec.

(** What a constructor or decoder throws. *)
Inductive CodecError :=
| IncompletePdu
| InvalidFunctionCode
| InvalidOptions.

Inductive result (A : Type) :=
| Ok (a : A)
| Throw (e : CodecError).
Arguments Ok {A} a.
Arguments Throw {A} e.

#[global] Instance result_bind : MBind result :=
  fun A B (k : A -> result B) (r : result A) =>
    match r with
    | Ok a => k a
    | Throw e => Throw e
    end.

(** *** lib/functions/util *)

(** Modelled from the spec: [util.assertBufferLength] (lib/functions/util.js
    is not part of the sources at hand); truncation fails with
    [IncompletePdu]. *)
Definition assertBufferLength (buffer : Buf.buffer) (minLength : nat)
  : result unit :=
  if (length buffer <? minLength)%nat then Throw IncompletePdu else Ok tt.

(** Modelled from the spec: [util.assertFunctionCode]; a wrong function code
    fails with [InvalidFunctionCode]. *)
Definition assertFunctionCode (actualCode : option Z) (expectedCode : Z)
  : result unit :=
  match actualCode with
  | Some c => if c =? expectedCode then Ok tt else Throw InvalidFunctionCode
  | None => Throw InvalidFunctionCode
  end.

(** Modelled from the spec: [util.prepareNumericOption] with a value given;
    a value outside [min, max] fails with [InvalidOptions]. *)
Definition prepareNumericOption (value min max : Z) : result Z :=
  if (min <=? value) && (value <=? max) then Ok value
  else Throw InvalidOptions.

(** Modelled from the spec: [util.prepareAddress], address in [0, 0xFFFF]. *)
Definition prepareAddress (address : Z) : result Z :=
  prepareNumericOption address 0 0xFFFF.

(** Modelled from the spec: [util.prepareRegisterValue], value in
    [0, 0xFFFF]. *)
Definition prepareRegisterValue (value : Z) : result Z :=
  prepareNumericOption value 0 0xFFFF.

(** [buffer[i]] at an index the preceding length assertion guarantees. *)
Definition at_ (buffer : Buf.buffer) (i : nat) : Z := nth i buffer 0.

(** *** CommandRequest (0x47) *)
Module CommandRequest.

Definition theFunctionCode : Z := 0x47.

Record t := { id : Z; values : Buf.buffer }.

Definition new (id : Z) (values : Buf.buffer) : result t :=
  id' ← prepareNumericOption id 0 255;
  Ok {| id := id'; values := values |}.

Definition fromBuffer (fill : nat -> Z) (buffer : Buf.buffer) : result t :=
  assertBufferLength buffer 2 ;;
  assertFunctionCode (Buf.get buffer 0) theFunctionCode ;;
  let id := at_ buffer 1 in
  let byteCount := (length buffer - 2)%nat in
  let values := Buf.alloc fill byteCount in
  let values := Buf.copy buffer values 3 (3 + byteCount) in
  new id values.

Definition toBuffer (r : t) : Buf.buffer :=
  theFunctionCode :: id r :: values r.

End CommandRequest.

(** *** CommandResponse (0x47) *)
Module CommandResponse.

Record t := { id : Z; values : Buf.buffer }.

Definition new (id : Z) (values : Buf.buffer) : result t :=
  if (250 <? length values)%nat then Throw InvalidOptions
  else if (id <? 0) || (255 <? id) then Throw InvalidOptions
  else Ok {| id := id; values := values |}.

Definition fromBuffer (fill : nat -> Z) (buffer : Buf.buffer) : result t :=
  assertBufferLength buffer 2 ;;
  assertFunctionCode (Buf.get buffer 0) 0x47 ;;
  let id := at_ buffer 1 in
  let byteCount := (length buffer - 2)%nat in
  let values := Buf.alloc fill byteCount in
  let values := Buf.copy buffer values 2 (byteCount + 2) in
  new id values.

Definition toBuffer (r : t) : Buf.buffer :=
  0x47 :: id r :: values r.

End CommandResponse.

(** *** ReadDiagnosticsResponse (0x08) *)
Module ReadDiagnosticsResponse.

Record t := { address : Z; value : Z }.

(** The constructor declares one parameter, [value]; it stores it as the
    address and stores 0 as the value. *)
Definition new (value : Z) : result t :=
  a ← prepareAddress value;
  v ← prepareRegisterValue 0;
  Ok {| address := a; value := v |}.

(** [new ReadDiagnosticsResponse(address, value)]: the second argument
    has no parameter to land in. *)
Definition fromBuffer (buffer : Buf.buffer) : result t :=
  assertBufferLength buffer 5 ;;
  assertFunctionCode (Buf.get buffer 0) 0x08 ;;
  let address := Buf.readUInt16BE buffer 1 in
  let value := Buf.readUInt16BE buffer 3 in
  new address.

Definition toBuffer (r : t) : Buf.buffer :=
  0x08 :: Buf.uint16BE (address r) ++ Buf.uint16BE (value r).

End ReadDiagnosticsResponse.

(** *** WriteSingleCoilResponse (0x05) *)
Module WriteSingleCoilResponse.

Record t := { address : Z; state : bool }.

Definition new (address : Z) (state : bool) : result t :=
  a ← prepareAddress address;
  Ok {| address := a; state := state |}.

Definition fromBuffer (buffer : Buf.buffer) : result t :=
  assertBufferLength buffer 5 ;;
  assertFunctionCode (Buf.get buffer 0) 0x05 ;;
  let address := Buf.readUInt16BE buffer 1 in
  let state := Buf.readUInt16BE buffer 3 =? 0xFF00 in
  new address state.

Definition toBuffer (r : t) : Buf.buffer :=
  0x05 :: Buf.uint16BE (address r)
       ++ Buf.uint16BE (if state r then 0xFF00 else 0x0000).

Definition getState (r : t) : bool := state r.

End WriteSingleCoilResponse.

(** *** ReadFifo8Response (0x41) *)
Module ReadFifo8Response.

Record Status := { more : bool; overflow : bool }.

Record t := { status : Status; values : Buf.buffer }.

Definition new (status : Status) (values : Buf.buffer) : result t :=
  if (250 <? length values)%nat then Throw InvalidOptions
  else Ok {| status := status; values := values |}.

Definition fromBuffer (fill : nat -> Z) (buffer : Buf.buffer) : result t :=
  assertBufferLength buffer 3 ;;
  assertFunctionCode (Buf.get buffer 0) 0x41 ;;
  let status := {| more := 0 <? Z.land (at_ buffer 1) 0x01;
                   overflow := 0 <? Z.land (at_ buffer 1) 0x02 |} in
  let byteCount := Z.to_nat (at_ buffer 2) in
  let values := Buf.alloc fill byteCount in
  let values := Buf.copy buffer values 3 (byteCount + 3) in
  new status values.

Definition toBuffer (r : t) : Buf.buffer :=
  let s := 0 in
  let s := if more (status r) then Z.lor s 1 else s in
  let s := if overflow (status r) then Z.lor s 2 else s in
  0x41 :: s :: Z.of_nat (length (values r)) :: values r.

End ReadFifo8Response.

(** *** ReadFifo8Request (0x41) *)
Module ReadFifo8Request.

Definition theFunctionCode : Z := 0x41.
Definition maxLimit : Z := 250.

Record t := { id : Z; max : Z }.

(** [max] left out ([undefined]) stands for [maxLimit]. *)
Definition new (id : Z) (max : option Z) : result t :=
  let max := default maxLimit max in
  id' ← prepareNumericOption id 0 255;
  max' ← prepareNumericOption max 0 maxLimit;
  Ok {| id := id'; max := max' |}.

Definition fromBuffer (buffer : Buf.buffer) : result t :=
  assertBufferLength buffer 3 ;;
  assertFunctionCode (Buf.get buffer 0) theFunctionCode ;;
  new (at_ buffer 1) (Some (at_ buffer 2)).

Definition toBuffer (r : t) : Buf.buffer :=
  [theFunctionCode; id r; max r].

End ReadFifo8Request.

(** *** ReadObjectRequest (0x43) *)
Module ReadObjectRequest.

Definition theFunctionCode : Z := 0x43.

Record t := { id : Z }.

Definition new (id : Z) : result t :=
  id' ← prepareNumericOption id 0 255;
  Ok {| id := id' |}.

Definition fromBuffer (buffer : Buf.buffer) : result t :=
  assertBufferLength buffer 2 ;;
  assertFunctionCode (Buf.get buffer 0) theFunctionCode ;;
  new (at_ buffer 1).

Definition toBuffer (r : t) : Buf.buffer :=
  [theFunctionCode; id r].

End ReadObjectRequest.

(** *** ReadObjectResponse (0x43) *)
Module ReadObjectResponse.

Record t := { values : Buf.buffer }.

Definition new (values : Buf.buffer) : result t :=
  if (250 <? length values)%nat then Throw InvalidOptions
  else Ok {| values := values |}.

Definition fromBuffer (fill : nat -> Z) (buffer : Buf.buffer) : result t :=
  assertBufferLength buffer 2 ;;
  assertFunctionCode (Buf.get buffer 0) 0x43 ;;
  let byteCount := Z.to_nat (at_ buffer 1) in
  let values := Buf.alloc fill byteCount in
  let values := Buf.copy buffer values 2 (byteCount + 2) in
  new values.

Definition toBuffer (r : t) : Buf.buffer :=
  0x43 :: Z.of_nat (length (values r)) :: values r.

End ReadObjectResponse.

(** *** ReadMemoryRequest (0x45) *)
Module ReadMemoryRequest.

Record t := { address : Z; count : Z }.

Definition new (address count : Z) : result t :=
  a ← prepareAddress address;
  c ← prepareNumericOption count 1 250;
  Ok {| address := a; count := c |}.

Definition fromBuffer (buffer : Buf.buffer) : result t :=
  assertBufferLength buffer 4 ;;
  assertFunctionCode (Buf.get buffer 0) 0x45 ;;
  new (Buf.readUInt16BE buffer 1) (at_ buffer 3).

Definition toBuffer (r : t) : Buf.buffer :=
  0x45 :: Buf.uint16BE (address r) ++ [count r].

End ReadMemoryRequest.

(** *** ReadMemoryResponse (0x45) *)
Module ReadMemoryResponse.

Record t := { values : Buf.buffer }.

Definition new (values : Buf.buffer) : result t :=
  if (250 <? length values)%nat then Throw InvalidOptions
  else Ok {| values := values |}.

Definition fromBuffer (fill : nat -> Z) (buffer : Buf.buffer) : result t :=
  assertBufferLength buffer 2 ;;
  assertFunctionCode (Buf.get buffer 0) 0x45 ;;
  let byteCount := (length buffer - 1)%nat in
  let values := Buf.alloc fill byteCount in
  let values := Buf.copy buffer values 1 (byteCount + 1) in
  new values.

Definition toBuffer (r : t) : Buf.buffer :=
  0x45 :: values r.

End ReadMemoryResponse.

(** *** WriteMemoryRequest (0x46) *)
Module WriteMemoryRequest.

Record t := { address : Z; values : Buf.buffer }.

(** The length of [values] is checked before the address. *)
Definition new (address : Z) (values : Buf.buffer) : result t :=
  if (length values <? 1)%nat || (250 <? length values)%nat
  then Throw InvalidOptions
  else
    a ← prepareAddress address;
    Ok {| address := a; values := values |}.

Definition fromBuffer (fill : nat -> Z) (buffer : Buf.buffer) : result t :=
  assertBufferLength buffer 4 ;;
  assertFunctionCode (Buf.get buffer 0) 0x46 ;;
  let address := Buf.readUInt16BE buffer 1 in
  let byteCount := (length buffer - 3)%nat in
  let values := Buf.alloc fill byteCount in
  let values := Buf.copy buffer values 3 (byteCount + 3) in
  new address values.

Definition toBuffer (r : t) : Buf.buffer :=
  0x46 :: Buf.uint16BE (address r) ++ values r.

End WriteMemoryRequest.

(** *** WriteMemoryResponse (0x46) *)
Module WriteMemoryResponse.

Record t := { status : Z }.

Definition new (quantity : Z) : result t :=
  s ← prepareNumericOption quantity 0 250;
  Ok {| status := s |}.

Definition fromBuffer (buffer : Buf.buffer) : result t :=
  assertBufferLength buffer 2 ;;
  assertFunctionCode (Buf.get buffer 0) 0x46 ;;
  new (at_ buffer 1).

Definition toBuffer (r : t) : Buf.buffer :=
  [0x46; status r].

End WriteMemoryResponse.

(** *** WriteFifo8Request (0x42) *)
Module WriteFifo8Request.

Record t := { id : Z; values : Buf.buffer }.

Definition new (id : Z) (values : Buf.buffer) : result t :=
  if (length values <? 1)%nat || (250 <? length values)%nat
  then Throw InvalidOptions
  else
    id' ← prepareNumericOption id 0 255;
    Ok {| id := id'; values := values |}.

Definition fromBuffer (fill : nat -> Z) (buffer : Buf.buffer) : result t :=
  assertBufferLength buffer 4 ;;
  assertFunctionCode (Buf.get buffer 0) 0x42 ;;
  let id := at_ buffer 1 in
  let byteCount := Z.to_nat (at_ buffer 2) in
  let values := Buf.alloc fill byteCount in
  let values := Buf.copy buffer values 3 (3 + byteCount) in
  new id values.

Definition toBuffer (r : t) : Buf.buffer :=
  0x42 :: id r :: Z.of_nat (length (values r)) :: values r.

End WriteFifo8Request.

(** *** WriteFifo8Response (0x42) *)
Module WriteFifo8Response.

Record t := { quantity : Z }.

Definition new (quantity : Z) : result t :=
  q ← prepareNumericOption quantity 0 250;
  Ok {| quantity := q |}.

Definition fromBuffer (buffer : Buf.buffer) : result t :=
  assertBufferLength buffer 2 ;;
  assertFunctionCode (Buf.get buffer 0) 0x42 ;;
  new (at_ buffer 1).

Definition toBuffer (r : t) : Buf.buffer :=
  [0x42; quantity r].

End WriteFifo8Response.

(** *** WriteObjectRequest (0x44) *)
Module WriteObjectRequest.

Record t := { id : Z; values : Buf.buffer }.

Definition new (id : Z) (values : Buf.buffer) : result t :=
  if (length values <? 1)%nat || (250 <? length values)%nat
  then Throw InvalidOptions
  else
    id' ← prepareNumericOption id 0 255;
    Ok {| id := id'; values := values |}.

Definition fromBuffer (fill : nat -> Z) (buffer : Buf.buffer) : result t :=
  assertBufferLength buffer 4 ;;
  assertFunctionCode (Buf.get buffer 0) 0x44 ;;
  let id := at_ buffer 1 in
  let byteCount := Z.to_nat (at_ buffer 2) in
  let values := Buf.alloc fill byteCount in
  let values := Buf.copy buffer values 3 (3 + byteCount) in
  new id values.

Definition toBuffer (r : t) : Buf.buffer :=
  0x44 :: id r :: Z.of_nat (length (values r)) :: values r.

End WriteObjectRequest.

(** *** WriteObjectResponse (0x44) *)
Module WriteObjectResponse.

Record t := { status : Z }.

Definition new (quantity : Z) : result t :=
  s ← prepareNumericOption quantity 0 250;
  Ok {| status := s |}.

Definition fromBuffer (buffer : Buf.buffer) : result t :=
  assertBufferLength buffer 2 ;;
  assertFunctionCode (Buf.get buffer 0) 0x44 ;;
  new (at_ buffer 1).

Definition toBuffer (r : t) : Buf.buffer :=
  [0x44; status r].

End WriteObjectResponse.

(** *** ReportSlaveIdResponse (0x11)

    The version travels between [fromBuffer] and the constructor as the
    string ["%d.%d.%d"]; here it is the list of the numbers between the
    dots, which is what [split('.')] and [parseInt] make of it. *)
Module ReportSlaveIdResponse.

Record t := {
  product : Z;
  run : Z;
  version : list Z;
  values : Buf.buffer
}.

Definition new (product run : Z) (version : list Z) (values : Buf.buffer)
  : result t :=
  if (product <? 0) || (255 <? product) then Throw InvalidOptions
  else if (run <? 0) || (255 <? run) then Throw InvalidOptions
  else if negb (length version =? 3)%nat then Throw InvalidOptions
  else Ok {| product := product; run := run;
             version := version; values := values |}.

Definition fromBuffer (fill : nat -> Z) (buffer : Buf.buffer) : result t :=
  assertBufferLength buffer 7 ;;
  assertFunctionCode (Buf.get buffer 0) 0x11 ;;
  let version := [at_ buffer 4; at_ buffer 5; at_ buffer 6] in
  let numValues := (length buffer - 7)%nat in
  let values := Buf.alloc fill numValues in
  let values :=
    if (0 <? numValues)%nat
    then Buf.copy buffer values 7 (length buffer)
    else values in
  new (at_ buffer 2) (at_ buffer 3) version values.

Definition toBuffer (r : t) : Buf.buffer :=
  0x11 :: product r :: run r
       :: at_ (version r) 0 :: at_ (version r) 1 :: at_ (version r) 2
       :: values r.

End ReportSlaveIdResponse.

(** [toBuffer (fromBuffer B)], when the decoder accepts [B]. *)
Definition reencode {A} (decode : Buf.buffer -> result A)
    (encode : A -> Buf.buffer) (B : Buf.buffer) : result Buf.buffer :=
  a ← decode B; Ok (encode a).

End Codec.

(** ** What the transports share *)

Module Core.

(** Modelled from the spec: a transaction, as far as a transport looks
    into it (lib/Transaction.js is not part of the sources at hand).  It owns
    one request, here its encoded PDU, the target unit and the cached ADU,
    which is set at most once.  [tid] tells transactions apart. *)
Record Transaction := {
  tid : nat;
  unit_ : Z;
  request : Buf.buffer;
  adu : option Buf.buffer
}.

Definition getUnit (t : Transaction) : Z := unit_ t.
Definition getAdu (t : Transaction) : option Buf.buffer := adu t.
Definition setAdu (t : Transaction) (a : Buf.buffer) : Transaction :=
  {| tid := tid t; unit_ := unit_ t; request := request t; adu := Some a |}.

(** The message of an [InvalidResponseDataError], by the place that
    builds it. *)
Inductive Message :=
| InvalidVersion (got : Z)
| InvalidLength
| InvalidUnit (expected got : Z).

(** Modelled from the spec: the error kinds of lib/errors (not part of the
    sources at hand) that a transport constructs itself. *)
Inductive Error :=
| IncompleteResponseFrameError
| InvalidChecksumError
| InvalidResponseDataError (m : Message).

(** The callback handed to [transaction.start]. *)
Inductive TimeoutHandler :=
| HandleTimeout
| DeleteTransaction (id : Z).

Inductive SniffTag := SniffBadChecksum | SniffPdu.

(** Calls on collaborators, in program order. *)
Inductive Event :=
| EmitRequest (t : Transaction)
| Write (bytes : Buf.buffer)
| Start (t : Transaction) (onTimeout : TimeoutHandler)
| HandleError (t : Transaction) (e : Error)
  (** [try { t.handleResponse(t.getRequest().createResponse(buffer)) }
       catch (error) { t.handleError(error) }] *)
| CreateResponse (t : Transaction) (responseBuffer : Buf.buffer)
  (** [this.emit('sniff', tag, rxBuffer)], with the copy of the whole
      queue made before it is taken apart. *)
| EmitSniff (tag : SniffTag) (rxBuffer : Buf.buffer)
  (** [this.emit('sniff', 'incomplete', this.reader.buffers[0])]: the
      argument is the first chunk the byte queue holds, [undefined] when it
      holds none.  The queue is modelled flat, without its chunks, so the
      event is recorded without the argument. *)
| EmitSniffIncomplete
| ConsoleLog (functionCode : option Z).

(** What escapes a method as a JS exception: the two errors the
    transports throw themselves, a call on [null], a read the byte queue
    refuses.  [OutOfFuel] is the model's own. *)
Inductive Exception :=
| PreviousRequestNotCompleted
| TooManyRequests
| NullDereference
| ReaderOutOfRange
| OutOfFuel.

Inductive Outcome (S : Type) :=
| Returns (st : S) (evs : list Event)
| Raises (x : Exception) (st : S) (evs : list Event).
Arguments Returns {S} st evs.
Arguments Raises {S} x st evs.

Definition events {S} (o : Outcome S) : list Event :=
  match o with
  | Returns _ evs => evs
  | Raises _ _ evs => evs
  end.

Definition final {S} (o : Outcome S) : S :=
  match o with
  | Returns st _ => st
  | Raises _ st _ => st
  end.

(** The model, not the program, gave up: the fuel was used up. *)
Definition runs_out {S} (o : Outcome S) : Prop :=
  exists st evs, o = Raises OutOfFuel st evs.

(** Puts the events already emitted in front of those of what follows. *)
Definition after {S} (evs : list Event) (o : Outcome S) : Outcome S :=
  match o with
  | Returns st evs' => Returns st (evs ++ evs')
  | Raises x st evs' => Raises x st (evs ++ evs')
  end.

(** Two slots hold the same transaction, whatever ADU it caches by now. *)
Definition sameTransaction (a b : option Transaction) : Prop :=
  (fun t => (tid t, unit_ t, request t)) <$> a
  = (fun t => (tid t, unit_ t, request t)) <$> b.

(** The transaction [t] is failed with [e]. *)
Definition fails_with (t : Transaction) (e : Error) (evs : list Event)
  : Prop :=
  In (HandleError t e) evs.

(** A response buffer is handed to the decoder on behalf of [t]. *)
Definition delivers (t : Transaction) (evs : list Event) : Prop :=
  exists b, In (CreateResponse t b) evs.

End Core.

(** ** The RTU transport *)

Module Rtu.
Import Core.

Definition MIN_FRAME_LENGTH : Z := 5.

(** The transport's fields the framing code reads and writes, together
    with [PREV_MSG_COUNT], a variable of the module (one for all
    instances). *)
Record State := {
  enableEcho : bool;
  transaction : option Transaction;
  reader : Buf.reader;
  PREV_MSG_COUNT : Z
}.

Definition set_transaction (st : State) (t : option Transaction) : State :=
  {| enableEcho := enableEcho st; transaction := t;
     reader := reader st; PREV_MSG_COUNT := PREV_MSG_COUNT st |}.

Definition set_reader (st : State) (r : Buf.reader) : State :=
  {| enableEcho := enableEcho st; transaction := transaction st;
     reader := r; PREV_MSG_COUNT := PREV_MSG_COUNT st |}.

Definition set_PREV_MSG_COUNT (st : State) (n : Z) : State :=
  {| enableEcho := enableEcho st; transaction := transaction st;
     reader := reader st; PREV_MSG_COUNT := n |}.

Definition crc16 := Crc.crc16.

(** [frame] also records the length of the ADU it builds. *)
Definition frame (st : State) (unit : Z) (pdu : Buf.buffer)
  : Buf.buffer * State :=
  (Crc.frame unit pdu,
   set_PREV_MSG_COUNT st (1 + Z.of_nat (length pdu) + 2)).

Definition buildAdu (st : State) (t : Transaction)
  : Buf.buffer * Transaction * State :=
  let '(a, st') := frame st (getUnit t) (request t) in
  (a, setAdu t a, st').

Definition getAdu (st : State) (t : Transaction)
  : Buf.buffer * Transaction * State :=
  match Core.getAdu t with
  | Some a => (a, t, st)
  | None => buildAdu st t
  end.

Definition sendRequest (st : State) (t : Transaction) : Outcome State :=
  match transaction st with
  | Some _ => Raises PreviousRequestNotCompleted st []
  | None =>
      let '(a, t', st') := getAdu st t in
      Returns (set_transaction st' (Some t'))
              [EmitRequest t'; Write a; Start t' HandleTimeout]
  end.

Definition skipResponseData (st : State) : State :=
  set_transaction (set_reader st []) None.

Definition handleTimeout (st : State) : State := skipResponseData st.

Definition onData (st : State) (data : Buf.buffer) : State :=
  match transaction st with
  | None => st
  | Some _ => set_reader st (reader st ++ data)
  end.

Definition validate (t : option Transaction) (actualUnit : Z)
    (responseBuffer : Buf.buffer) (expectedChecksum : Z)
  : option (option Error) :=
  let actualChecksum := crc16 actualUnit responseBuffer in
  if negb (actualChecksum =? expectedChecksum)
  then Some (Some InvalidChecksumError)
  else
    match t with
    | None => None
    | Some t =>
        let expectedUnit := getUnit t in
        if negb (actualUnit =? expectedUnit)
        then Some (Some (InvalidResponseDataError
                           (InvalidUnit expectedUnit actualUnit)))
        else Some None
    end.

(** The part of [handleFrameData] after the frame is taken apart, entered
    when [got_no_echo] is false. *)
Definition handleFrame (st : State) (t : option Transaction)
    (unit : Z) (responseBuffer : Buf.buffer) (checksum : Z)
  : Outcome State :=
  let st := skipResponseData st in
  match validate t unit responseBuffer checksum with
  | None => Raises NullDereference st []
  | Some (Some validationError) =>
      match t with
      | Some t => Returns st [HandleError t validationError]
      | None => Raises NullDereference st []
      end
  | Some None =>
      match t with
      | Some t => Returns st [CreateResponse t responseBuffer]
      | None => Raises NullDereference st []
      end
  end.

Definition handleFrameData (st : State) : Outcome State :=
  let t := transaction st in
  let len := Z.of_nat (length (reader st)) in
  if len <? MIN_FRAME_LENGTH then
    let st := skipResponseData st in
    match t with
    | Some t => Returns st [HandleError t IncompleteResponseFrameError]
    | None => Raises NullDereference st []
    end
  else if enableEcho st then
    let st :=
      if len <? PREV_MSG_COUNT st then set_PREV_MSG_COUNT st 0 else st in
    let st :=
      if PREV_MSG_COUNT st =? 0 then set_PREV_MSG_COUNT st 1 else st in
    if PREV_MSG_COUNT st <? len then
      match Buf.skip (PREV_MSG_COUNT st) (reader st) with
      | None => Raises ReaderOutOfRange st []
      | Some r =>
          match Buf.shiftFrame r with
          | None => Raises ReaderOutOfRange (set_reader st (drop 1 r)) []
          | Some (unit, responseBuffer, checksum, r') =>
              handleFrame (set_reader st r') t unit responseBuffer checksum
          end
      end
    else
      match Buf.shiftBuffer len (reader st) with
      | None => Raises ReaderOutOfRange st []
      | Some (_, r) => Returns (set_reader st r) []
      end
  else
    match Buf.shiftFrame (reader st) with
    | None => Raises ReaderOutOfRange (set_reader st (drop 1 (reader st))) []
    | Some (unit, responseBuffer, checksum, r') =>
        handleFrame (set_reader st r') t unit responseBuffer checksum
    end.

End Rtu.

(** ** The IP transport *)

Module Ip.
Import Core.

(** [IpTransport.Header]; every field is -1 until a header is read.
    [length] is the wire's length field less one: the bytes that follow
    the unit. *)
Record Header := {
  id : Z;
  version : Z;
  length : Z;
  unit : Z
}.

Definition Header_reset : Header :=
  {| id := -1; version := -1; length := -1; unit := -1 |}.

Definition Header_read (r : Buf.reader) : option (Header * Buf.reader) :=
  '(i, r) ← Buf.shiftUInt16 false r;
  '(v, r) ← Buf.shiftUInt16 false r;
  '(l, r) ← Buf.shiftUInt16 false r;
  '(u, r) ← Buf.shiftByte r;
  Some ({| id := i; version := v; length := l - 1; unit := u |}, r).

Definition Header_validate (h : Header) (t : Transaction) : option Error :=
  let expectedUnit := getUnit t in
  if negb (version h =? 0) then
    Some (InvalidResponseDataError (InvalidVersion (version h)))
  else if length h =? 0 then
    Some (InvalidResponseDataError InvalidLength)
  else if negb (unit h =? expectedUnit) then
    Some (InvalidResponseDataError (InvalidUnit expectedUnit (unit h)))
  else None.

Record State := {
  reader : Buf.reader;
  header : Header;
  nextTransactionId : Z;
  transactions : gmap Z Transaction
}.

(** [new IpTransport(connection)]. *)
Definition fresh : State :=
  {| reader := []; header := Header_reset;
     nextTransactionId := 0; transactions := ∅ |}.

Definition set_reader (st : State) (r : Buf.reader) : State :=
  {| reader := r; header := header st;
     nextTransactionId := nextTransactionId st;
     transactions := transactions st |}.

Definition set_header (st : State) (h : Header) : State :=
  {| reader := reader st; header := h;
     nextTransactionId := nextTransactionId st;
     transactions := transactions st |}.

Definition set_nextTransactionId (st : State) (n : Z) : State :=
  {| reader := reader st; header := header st;
     nextTransactionId := n;
     transactions := transactions st |}.

Definition set_transactions (st : State) (m : gmap Z Transaction) : State :=
  {| reader := reader st; header := header st;
     nextTransactionId := nextTransactionId st;
     transactions := m |}.

Definition getNextTransactionId (st : State) : Z * State :=
  let n := nextTransactionId st + 1 in
  let n := if n =? 0xFFFF then 0 else n in
  (n, set_nextTransactionId st n).

Definition frame (id unit : Z) (pdu : Buf.buffer) : Buf.buffer :=
  Buf.uint16BE id ++ Buf.uint16BE 0
    ++ Buf.uint16BE (Z.of_nat (List.length pdu) + 1) ++ unit :: pdu.

Definition buildAdu (id : Z) (t : Transaction) : Buf.buffer * Transaction :=
  let a := frame id (getUnit t) (request t) in
  (a, setAdu t a).

(** A cached ADU is the transaction's own buffer: writing the id into it
    changes what the transaction holds. *)
Definition getAdu (id : Z) (t : Transaction) : Buf.buffer * Transaction :=
  match Core.getAdu t with
  | None => buildAdu id t
  | Some a =>
      let a' := Buf.uint16BE id ++ drop 2 a in
      (a', setAdu t a')
  end.

(** [sendRequest], which also tells the id it drew. *)
Definition sendRequest_id (st : State) (t : Transaction)
  : Z * Outcome State :=
  let '(id, st) := getNextTransactionId st in
  let '(a, t) := getAdu id t in
  let st := set_transactions st (<[id := t]> (transactions st)) in
  (id, Returns st [EmitRequest t; Write a; Start t (DeleteTransaction id)]).

Definition sendRequest (st : State) (t : Transaction) : Outcome State :=
  snd (sendRequest_id st t).

(** The ids drawn by sending the transactions [ts] one after the other. *)
Fixpoint sendRequests (st : State) (ts : list Transaction) : list Z :=
  match ts with
  | [] => []
  | t :: ts =>
      let '(id, o) := sendRequest_id st t in
      id :: sendRequests (final o) ts
  end.

(** The outcomes of sending the transactions [ts] one after the other. *)
Fixpoint sendAll (st : State) (ts : list Transaction)
  : list (Outcome State) :=
  match ts with
  | [] => []
  | t :: ts =>
      let o := sendRequest st t in
      o :: sendAll (final o) ts
  end.

(** The function [createTimeoutHandler(id)] returns. *)
Definition timeoutHandler (id : Z) (st : State) : State :=
  set_transactions st (delete id (transactions st)).

Definition skipResponseData (st : State) : option State :=
  st ← (if 0 <? length (header st)
        then set_reader st <$> Buf.skip (length (header st)) (reader st)
        else Some st);
  Some (set_header st Header_reset).

(** What [handleFrameData] leaves behind when it is done with a frame:
    the transactions [m], the bytes [rest] that followed the payload, and
    the header reset. *)
Definition frameDone (st : State) (rest : Buf.reader)
    (m : gmap Z Transaction) : State :=
  set_header (set_reader (set_transactions st m) rest) Header_reset.

(** One pass of [onData] without new data, [handleFrameData] included;
    [fuel] bounds the frames taken from the queue in one go (each
    re-entry of [onData] from [handleFrameData] uses one). *)
Fixpoint onData_ (fuel : nat) (st : State) : Outcome State :=
  match fuel with
  | O => Raises OutOfFuel st []
  | S fuel =>
      let read :=
        if (id (header st) =? -1) && (7 <=? Z.of_nat (List.length (reader st)))
        then
          match Header_read (reader st) with
          | Some (h, r) => Some (set_header (set_reader st r) h)
          | None => None
          end
        else Some st in
      match read with
      | None => Raises ReaderOutOfRange st []
      | Some st =>
          if negb (id (header st) =? -1)
             && (length (header st) <=? Z.of_nat (List.length (reader st)))
          then
            (* handleFrameData *)
            match transactions st !! id (header st) with
            | None =>
                match skipResponseData st with
                | None => Raises ReaderOutOfRange st []
                | Some st => onData_ fuel st
                end
            | Some t =>
                let st :=
                  set_transactions st
                    (delete (id (header st)) (transactions st)) in
                match Header_validate (header st) t with
                | Some validationError =>
                    match skipResponseData st with
                    | None => Raises ReaderOutOfRange st []
                    | Some st =>
                        after [HandleError t validationError]
                              (onData_ fuel st)
                    end
                | None =>
                    match Buf.shiftBuffer (length (header st)) (reader st)
                    with
                    | None => Raises ReaderOutOfRange st []
                    | Some (responseBuffer, r) =>
                        let st := set_header (set_reader st r)
                                             Header_reset in
                        after [CreateResponse t responseBuffer]
                              (onData_ fuel st)
                    end
                end
            end
          else Returns st []
      end
  end.

(** [handleFrameData] up to its closing call of [onData]: what one frame
    makes happen and the state handed on; [None] where the byte queue
    refuses a read. *)
Definition handleFrame (st : State) : option (list Event * State) :=
  match transactions st !! id (header st) with
  | None =>
      st' ← skipResponseData st;
      Some ([], st')
  | Some t =>
      let st :=
        set_transactions st (delete (id (header st)) (transactions st)) in
      match Header_validate (header st) t with
      | Some validationError =>
          st' ← skipResponseData st;
          Some ([HandleError t validationError], st')
      | None =>
          '(responseBuffer, r) ← Buf.shiftBuffer (length (header st))
                                                 (reader st);
          Some ([CreateResponse t responseBuffer],
                set_header (set_reader st r) Header_reset)
      end
  end.

(** Fuel that lets [onData_] run to its end: every frame but the first
    takes a 7-byte header off the queue. *)
Definition enoughFuel (st : State) : nat :=
  (List.length (reader st) + 2)%nat.

(** [handleFrameData], called with a header read and its payload
    queued. *)
Definition handleFrameData (fuel : nat) (st : State) : Outcome State :=
  onData_ fuel st.

Definition onData (fuel : nat) (st : State) (data : Buf.buffer)
  : Outcome State :=
  onData_ fuel (set_reader st (reader st ++ data)).

End Ip.

(** ** The Tunnel transport *)

Module Tunnel.
Import Core.

Definition SLAVE_COMMAND : Z := 71.

Record State := {
  slaveId : Z;
  transaction : option Transaction;
  nextTransaction : option Transaction;
  sequence : Z;
  reader : Buf.reader
}.

(** [new TunnelTransport(options)]. *)
Definition fresh (slaveId : Z) : State :=
  {| slaveId := slaveId; transaction := None; nextTransaction := None;
     sequence := 0; reader := [] |}.

Definition set_transaction (st : State) (t : option Transaction) : State :=
  {| slaveId := slaveId st; transaction := t;
     nextTransaction := nextTransaction st;
     sequence := sequence st; reader := reader st |}.

Definition set_nextTransaction (st : State) (t : option Transaction)
  : State :=
  {| slaveId := slaveId st; transaction := transaction st;
     nextTransaction := t;
     sequence := sequence st; reader := reader st |}.

Definition set_sequence (st : State) (n : Z) : State :=
  {| slaveId := slaveId st; transaction := transaction st;
     nextTransaction := nextTransaction st;
     sequence := n; reader := reader st |}.

Definition set_reader (st : State) (r : Buf.reader) : State :=
  {| slaveId := slaveId st; transaction := transaction st;
     nextTransaction := nextTransaction st;
     sequence := sequence st; reader := r |}.

(** The slots fill in order (a next transaction only behind a current
    one) and the sequence counter is a byte. *)
Definition consistent (st : State) : Prop :=
  (nextTransaction st <> None -> transaction st <> None)
  /\ 0 <= sequence st < 256.

Definition crc16 := Crc.crc16.
Definition frame := Crc.frame.

Definition startTransaction (st : State) : list Event :=
  match transaction st with
  | Some t => [EmitRequest t; Start t HandleTimeout]
  | None => []
  end.

Definition sendRequest (st : State) (t : Transaction) : Outcome State :=
  match transaction st with
  | Some _ =>
      match nextTransaction st with
      | Some _ => Raises TooManyRequests st []
      | None => Returns (set_nextTransaction st (Some t)) []
      end
  | None =>
      let st := set_transaction st (Some t) in
      Returns st (startTransaction st)
  end.

(** [buildAdu]: with a transaction, the request rides behind the command
    code, the sequence number and the target unit, and the ADU is cached
    in the transaction; without one, the reply is the bare header. *)
Definition buildAdu (st : State) (t : option Transaction)
  : Buf.buffer * option Transaction :=
  match t with
  | Some t =>
      let pdu := [SLAVE_COMMAND; sequence st; getUnit t] ++ request t in
      let a := frame (slaveId st) pdu in
      (a, Some (setAdu t a))
  | None => (frame (slaveId st) [SLAVE_COMMAND; sequence st], None)
  end.

Definition getAdu (st : State) (t : option Transaction)
  : Buf.buffer * option Transaction :=
  match t ≫= Core.getAdu with
  | Some a => (a, t)
  | None => buildAdu st t
  end.

Definition sendSlaveResponse (st : State) : State * list Event :=
  let '(a, t) := getAdu st (transaction st) in
  (set_transaction st t, [Write a]).

Definition flushReader (st : State) : State := set_reader st [].

Definition skipResponseData (st : State) : State * list Event :=
  let st := flushReader st in
  let st := set_transaction st (nextTransaction st) in
  let st := set_nextTransaction st None in
  (st, startTransaction st).

Definition handleTimeout (st : State) : State * list Event :=
  skipResponseData st.

Definition onData (st : State) (data : Buf.buffer) : State :=
  set_reader st (reader st ++ data).

Definition validate (actualUnit : Z) (responseBuffer : Buf.buffer)
    (expectedChecksum : Z) : option Error :=
  let actualChecksum := crc16 actualUnit responseBuffer in
  if negb (actualChecksum =? expectedChecksum)
  then Some InvalidChecksumError
  else None.

(** The branch taken for a frame addressed to us that carries
    [SLAVE_COMMAND]. *)
Definition handleSlaveCommand (st : State) (responseBuffer : Buf.buffer)
  : State * list Event :=
  let '(st, evs) :=
    if decide (Buf.get responseBuffer 1 = Some (sequence st)) then
      let st := set_sequence st (Z.land (sequence st + 1) 255) in
      match transaction st with
      | Some t =>
          if (2 <? length responseBuffer)%nat then
            let st := set_transaction st (nextTransaction st) in
            let st := set_nextTransaction st None in
            (st, CreateResponse t (drop 3 responseBuffer)
                   :: startTransaction st)
          else (st, [])
      | None => (st, [])
      end
    else (st, []) in
  let '(st, evs') := sendSlaveResponse st in
  (st, evs ++ evs').

Definition handleFrameData (st : State) : Outcome State :=
  if (length (reader st) <? 4)%nat then
    Returns (flushReader st) [EmitSniffIncomplete]
  else
    let rxBuffer := reader st in
    match Buf.shiftFrame (reader st) with
    | None => Raises ReaderOutOfRange (set_reader st (drop 1 (reader st))) []
    | Some (unit, responseBuffer, checksum, r) =>
        let st := flushReader (set_reader st r) in
        match validate unit responseBuffer checksum with
        | Some _ => Returns st [EmitSniff SniffBadChecksum rxBuffer]
        | None =>
            let sniff := [EmitSniff SniffPdu rxBuffer] in
            if unit =? slaveId st then
              if decide (Buf.get responseBuffer 0 = Some SLAVE_COMMAND)
              then
                let '(st, evs) := handleSlaveCommand st responseBuffer in
                Returns st (sniff ++ evs)
              else
                Returns st
                  (sniff ++ [ConsoleLog (Buf.get responseBuffer 0)])
            else Returns st sniff
        end
    end.

End Tunnel.

(** * Properties *)

(** ** Bytes and 16-bit words *)

Section BitFacts.

Lemma lxor_uint16 a b :
  0 <= a < 65536 -> 0 <= b < 65536 -> 0 <= Z.lxor a b < 65536.
Proof.
  intros Ha Hb. split; [apply Z.lxor_nonneg; lia|].
  destruct (Z.eq_dec (Z.lxor a b) 0) as [->|Hne]; [lia|].
  assert (0 <= Z.lxor a b) by (apply Z.lxor_nonneg; lia).
  apply (Z.log2_lt_pow2 _ 16); [lia|].
  eapply Z.le_lt_trans; [apply Z.log2_lxor; lia|].
  apply Z.max_lub_lt.
  - destruct (Z.eq_dec a 0) as [->|]; [simpl; lia|].
    apply Z.log2_lt_pow2; lia.
  - destruct (Z.eq_dec b 0) as [->|]; [simpl; lia|].
    apply Z.log2_lt_pow2; lia.
Qed.

Lemma testbit_uint16_high v n :
  0 <= v < 65536 -> 16 <= n -> Z.testbit v n = false.
Proof.
  intros Hv Hn. destruct (Z.eq_dec v 0) as [->|]; [apply Z.testbit_0_l|].
  apply Z.bits_above_log2; [lia|].
  assert (Z.log2 v < 16) by (apply Z.log2_lt_pow2; lia). lia.
Qed.

(** Reading back, low byte first, the two bytes [uint16LE] wrote. *)
Lemma uint16LE_decode v :
  0 <= v < 65536 ->
  Z.lor (Z.shiftl (Z.land (Z.shiftr v 8) 255) 8) (Z.land v 255) = v.
Proof.
  intros Hv. apply Z.bits_inj'. intros n Hn.
  change 255 with (Z.ones 8).
  rewrite Z.lor_spec, Z.land_spec, Z.shiftl_spec by lia.
  destruct (Z_lt_dec n 8) as [Hlt|Hge].
  - rewrite (Z.testbit_neg_r _ (n - 8)) by lia.
    rewrite Z.ones_spec_low by lia. now rewrite andb_true_r.
  - rewrite (Z.ones_spec_high 8 n) by lia.
    rewrite andb_false_r, orb_false_r, Z.land_spec.
    rewrite Z.shiftr_spec by lia. replace (n - 8 + 8) with n by lia.
    destruct (Z_lt_dec n 16).
    + rewrite Z.ones_spec_low by lia. now rewrite andb_true_r.
    + rewrite Z.ones_spec_high by lia.
      rewrite andb_false_r. symmetry. apply testbit_uint16_high; lia.
Qed.

Lemma byte_shiftr_8 b : Buf.is_byte b -> Z.shiftr b 8 = 0.
Proof.
  intros Hb. rewrite Z.shiftr_div_pow2 by lia.
  apply Z.div_small. unfold Buf.is_byte in Hb. lia.
Qed.

Lemma byte_land_255 b : Buf.is_byte b -> Z.land b 255 = b.
Proof.
  intros Hb. change 255 with (Z.ones 8). rewrite Z.land_ones by lia.
  apply Z.mod_small. unfold Buf.is_byte in Hb. lia.
Qed.

Lemma shiftl_8_land_255 b : Z.land (Z.shiftl b 8) 255 = 0.
Proof.
  change 255 with (Z.ones 8). rewrite Z.land_ones by lia.
  rewrite Z.shiftl_mul_pow2 by lia. apply Z.mod_mul. lia.
Qed.

(** Writing a big-endian word read from two bytes gives the bytes back. *)
Lemma uint16BE_read hi lo :
  Buf.is_byte hi -> Buf.is_byte lo ->
  Buf.uint16BE (Z.lor (Z.shiftl hi 8) lo) = [hi; lo].
Proof.
  intros Hhi Hlo. unfold Buf.uint16BE. f_equal; [|f_equal].
  - rewrite Z.shiftr_lor, Z.shiftr_shiftl_l by lia.
    rewrite (byte_shiftr_8 lo Hlo). simpl (8 - 8).
    rewrite Z.shiftl_0_r, Z.lor_0_r. now apply byte_land_255.
  - rewrite Z.land_lor_distr_l, shiftl_8_land_255, Z.lor_0_l.
    now apply byte_land_255.
Qed.

Lemma word_of_bytes_range hi lo :
  Buf.is_byte hi -> Buf.is_byte lo ->
  0 <= Z.lor (Z.shiftl hi 8) lo <= 65535.
Proof.
  intros Hhi Hlo. unfold Buf.is_byte in *.
  assert (Hs : 0 <= Z.shiftl hi 8 < 65536)
    by (rewrite Z.shiftl_mul_pow2 by lia; lia).
  assert (H0 : 0 <= Z.lor (Z.shiftl hi 8) lo) by (apply Z.lor_nonneg; lia).
  split; [exact H0|].
  destruct (Z.eq_dec (Z.lor (Z.shiftl hi 8) lo) 0) as [->|Hne]; [lia|].
  cut (Z.lor (Z.shiftl hi 8) lo < 2 ^ 16); [lia|].
  apply Z.log2_lt_pow2; [lia|].
  rewrite Z.log2_lor by lia. apply Z.max_lub_lt.
  - destruct (Z.eq_dec (Z.shiftl hi 8) 0) as [->|]; [simpl; lia|].
    apply Z.log2_lt_pow2; lia.
  - destruct (Z.eq_dec lo 0) as [->|]; [simpl; lia|].
    apply Z.log2_lt_pow2; lia.
Qed.

End BitFacts.

(** ** CRC-16 *)

Lemma CRC_TABLE_length : length Crc.CRC_TABLE = 256%nat.
Proof. reflexivity. Qed.

Lemma CRC_TABLE_range j : 0 <= nth j Crc.CRC_TABLE 0 < 65536.
Proof.
  assert (H : Forall (fun x => 0 <= x < 65536) Crc.CRC_TABLE).
  { apply Forall_forall. intros x Hx.
    assert (Hb : forallb (fun x => (0 <=? x) && (x <? 65536)) Crc.CRC_TABLE
                 = true) by (vm_compute; reflexivity).
    rewrite forallb_forall in Hb. specialize (Hb x).
    rewrite <- list_elem_of_In in Hb. specialize (Hb Hx). lia. }
  destruct (Nat.lt_ge_cases j (length Crc.CRC_TABLE)) as [Hlt|Hge].
  - rewrite Forall_forall in H. apply H. apply list_elem_of_In.
    now apply nth_In.
  - rewrite nth_overflow by exact Hge. lia.
Qed.

Lemma crc_step_range crc byte :
  0 <= crc < 65536 -> 0 <= Crc.crc_step crc byte < 65536.
Proof.
  intros Hc. unfold Crc.crc_step. apply lxor_uint16.
  - rewrite Z.shiftr_div_pow2 by lia. split.
    + apply Z.div_pos; lia.
    + apply Z.div_lt_upper_bound; lia.
  - apply CRC_TABLE_range.
Qed.

(** The checksum is a 16-bit word whatever is summed. *)
Lemma crc16_range firstByte buffer :
  0 <= Crc.crc16 firstByte buffer < 65536.
Proof.
  unfold Crc.crc16.
  assert (H0 : 0 <= (if firstByte =? -1 then 65535
                     else Crc.crc_step 65535 firstByte) < 65536).
  { destruct (firstByte =? -1); [lia | apply crc_step_range; lia]. }
  revert H0. generalize (if firstByte =? -1 then 65535
                         else Crc.crc_step 65535 firstByte).
  induction buffer as [|b buffer IH]; intros crc Hc; simpl; [exact Hc|].
  apply IH. now apply crc_step_range.
Qed.

(** The seed: nothing summed leaves 0xFFFF. *)
Lemma crc16_seed : Crc.crc16 (-1) [] = 0xFFFF.
Proof. reflexivity. Qed.

(** C2, as the spec has it, does not hold: the checksum of unit 0x01 and
    PDU byte 0x11 is not 0xD080, and the frame does not end in 80 D0. *)
Lemma crc16_reference_vector_is_not_D080 :
  Crc.crc16 0x01 [0x11] <> 0xD080
  /\ Crc.frame 0x01 [0x11] <> [0x01; 0x11; 0x80; 0xD0].
Proof. split; vm_compute; discriminate. Qed.

(** C2 (amended): [crc16], seeded with 0xFFFF over the 256-entry table,
    applied to unit byte 0x01 followed by the single PDU byte 0x11 returns
    0x2CC0; on the wire the low byte goes first (C0 2C). *)
Theorem crc16_reference_vector :
  length Crc.CRC_TABLE = 256%nat
  /\ Crc.crc16 (-1) [] = 0xFFFF
  /\ Crc.crc16 0x01 [0x11] = 0x2CC0
  /\ Crc.frame 0x01 [0x11] = [0x01; 0x11; 0xC0; 0x2C].
Proof. repeat split. Qed.

(** ** The function codec *)

Section CodecFacts.
Import Codec.

Lemma alloc_length fill n : length (Buf.alloc fill n) = n.
Proof. unfold Buf.alloc. now rewrite length_map, length_seq. Qed.

(** Copying [n] bytes found at [start] into a fresh buffer of [n] bytes
    leaves nothing of the fresh content. *)
Lemma copy_exact fill (pre rest : Buf.buffer) :
  Buf.copy (pre ++ rest) (Buf.alloc fill (length rest))
           (length pre) (length rest + length pre) = rest.
Proof.
  unfold Buf.copy. rewrite alloc_length, drop_app_length.
  replace (length rest + length pre - length pre)%nat
    with (length rest) by lia.
  rewrite !firstn_all. rewrite drop_ge by (rewrite alloc_length; lia).
  apply app_nil_r.
Qed.

(** X11: the response of the same function code decodes its payload from
    offset 2 and so re-encodes to the very bytes it was given. *)
Lemma CommandResponse_roundtrip fill (B : Buf.buffer) r :
  CommandResponse.fromBuffer fill B = Ok r ->
  CommandResponse.toBuffer r = B.
Proof.
  unfold CommandResponse.fromBuffer, assertBufferLength.
  destruct B as [|c [|i rest]]; simpl; try discriminate.
  unfold assertFunctionCode. destruct (c =? 71) eqn:Hc; [|discriminate].
  apply Z.eqb_eq in Hc. subst c. simpl.
  replace (length rest - 0)%nat with (length rest) by lia.
  pose proof (copy_exact fill [71; i] rest) as Hcopy.
  simpl in Hcopy. rewrite Hcopy. clear Hcopy.
  unfold CommandResponse.new, at_. simpl.
  destruct (250 <? length rest)%nat; [discriminate|].
  destruct ((i <? 0) || (255 <? i)); [discriminate|].
  intros [= <-]. reflexivity.
Qed.

(** C1: re-encoding a decoded message does not give the input back for
    every type.  [CommandRequest.fromBuffer] copies the payload from
    offset 3, one byte late: of the well-formed request 47 01 AA BB it keeps
    BB and one byte of the fresh buffer, and [toBuffer] yields 47 01 BB ??.
    [ReadDiagnosticsResponse] drops the data word: 08 00 01 00 02 comes back
    as 08 00 01 00 00. *)
Theorem roundtrip_fails_CommandRequest_ReadDiagnosticsResponse :
  (forall fill,
      reencode (CommandRequest.fromBuffer fill) CommandRequest.toBuffer
               [0x47; 0x01; 0xAA; 0xBB]
      = Ok [0x47; 0x01; 0xBB; fill 1%nat]
      /\ reencode (CommandRequest.fromBuffer fill) CommandRequest.toBuffer
                  [0x47; 0x01; 0xAA; 0xBB]
         <> Ok [0x47; 0x01; 0xAA; 0xBB])
  /\ reencode ReadDiagnosticsResponse.fromBuffer
              ReadDiagnosticsResponse.toBuffer [0x08; 0x00; 0x01; 0x00; 0x02]
     = Ok [0x08; 0x00; 0x01; 0x00; 0x00].
Proof.
  split; [|reflexivity].
  intros fill. split; [reflexivity|].
  cbv. congruence.
Qed.

(** C10: [WriteSingleCoilResponse.fromBuffer] accepts every 5-byte buffer
    that starts with 0x05; the state it decodes is ON exactly when the value
    field is 0xFF00; any other value decodes as OFF, without an error, and
    is re-encoded as 0x0000 behind the unchanged address. *)
Theorem WriteSingleCoilResponse_decodes_state (B : Buf.buffer) :
  length B = 5%nat -> Buf.wf B -> Buf.get B 0 = Some 0x05 ->
  exists r,
    WriteSingleCoilResponse.fromBuffer B = Ok r
    /\ (WriteSingleCoilResponse.getState r = true
        <-> Buf.readUInt16BE B 3 = 0xFF00)
    /\ (Buf.readUInt16BE B 3 <> 0xFF00 ->
        WriteSingleCoilResponse.getState r = false
        /\ WriteSingleCoilResponse.toBuffer r = take 3 B ++ [0x00; 0x00]).
Proof.
  intros Hlen Hwf Hcode.
  destruct B as [|c [|a1 [|a0 [|v1 [|v0 [|]]]]]]; try discriminate Hlen.
  injection Hcode as ->.
  apply Forall_cons in Hwf as [_ Hwf].
  apply Forall_cons in Hwf as [Ha1 Hwf].
  apply Forall_cons in Hwf as [Ha0 _].
  pose proof (word_of_bytes_range a1 a0 Ha1 Ha0) as Hrange.
  unfold WriteSingleCoilResponse.fromBuffer, WriteSingleCoilResponse.new,
    prepareAddress, prepareNumericOption, Buf.readUInt16BE. simpl.
  destruct (Z.leb_spec 0 (Z.lor (Z.shiftl a1 8) a0)); [|lia].
  destruct (Z.leb_spec (Z.lor (Z.shiftl a1 8) a0) 65535); [|lia].
  simpl. eexists. split; [reflexivity|]. simpl. split.
  - apply Z.eqb_eq.
  - intros Hne. apply Z.eqb_neq in Hne.
    unfold WriteSingleCoilResponse.toBuffer.
    cbn [WriteSingleCoilResponse.getState WriteSingleCoilResponse.state
         WriteSingleCoilResponse.address nth].
    rewrite Hne. split; [reflexivity|].
    rewrite (uint16BE_read a1 a0 Ha1 Ha0). reflexivity.
Qed.

Lemma WriteSingleCoilResponse_decodes_state_witness :
  exists r,
    WriteSingleCoilResponse.fromBuffer [0x05; 0x00; 0x07; 0x00; 0x01] = Ok r
    /\ (WriteSingleCoilResponse.getState r = true
        <-> Buf.readUInt16BE [0x05; 0x00; 0x07; 0x00; 0x01] 3 = 0xFF00)
    /\ (Buf.readUInt16BE [0x05; 0x00; 0x07; 0x00; 0x01] 3 <> 0xFF00 ->
        WriteSingleCoilResponse.getState r = false
        /\ WriteSingleCoilResponse.toBuffer r
           = take 3 [0x05; 0x00; 0x07; 0x00; 0x01] ++ [0x00; 0x00]).
Proof.
  apply (WriteSingleCoilResponse_decodes_state [0x05; 0x00; 0x07; 0x00; 0x01]).
  - reflexivity.
  - repeat constructor; unfold Buf.is_byte; lia.
  - reflexivity.
Defined.

End CodecFacts.

(** ** The RTU transport *)

Section RtuFacts.
Import Core.

(** Taking apart [unit, pdu, checksum] (low byte first). *)
Lemma shiftFrame_parts unit (pdu : Buf.buffer) lo hi :
  (1 <= length pdu)%nat ->
  Buf.shiftFrame (unit :: pdu ++ [lo; hi])
  = Some (unit, pdu, Z.lor (Z.shiftl hi 8) lo, []).
Proof.
  intros Hlen. unfold Buf.shiftFrame. simpl.
  unfold Buf.shiftBuffer, Buf.in_range.
  rewrite length_app. simpl length.
  replace (Z.of_nat (length pdu + 2) - 2) with (Z.of_nat (length pdu))
    by lia.
  rewrite Nat2Z.id.
  destruct (Z.leb_spec 1 (Z.of_nat (length pdu))); [|lia].
  destruct (Z.leb_spec (Z.of_nat (length pdu))
                       (Z.of_nat (length pdu + 2))); [|lia].
  simpl. rewrite take_app_length, drop_app_length. reflexivity.
Qed.

(** A frame built by [frame] is taken apart into what it was built
    from. *)
Lemma shiftFrame_frame unit (pdu : Buf.buffer) :
  (1 <= length pdu)%nat ->
  Buf.shiftFrame (Crc.frame unit pdu)
  = Some (unit, pdu, Crc.crc16 unit pdu, []).
Proof.
  intros Hlen. unfold Crc.frame, Buf.uint16LE.
  rewrite shiftFrame_parts by exact Hlen.
  now rewrite uint16LE_decode by apply crc16_range.
Qed.

(** The checks [handleFrame] makes on a frame, in their order. *)
Lemma handleFrame_verdict st t unit responseBuffer checksum :
  Rtu.handleFrame st (Some t) unit responseBuffer checksum
  = Returns (Rtu.skipResponseData st)
      (if decide (Rtu.crc16 unit responseBuffer <> checksum)
       then [HandleError t InvalidChecksumError]
       else if decide (unit <> getUnit t)
       then [HandleError t (InvalidResponseDataError
                              (InvalidUnit (getUnit t) unit))]
       else [CreateResponse t responseBuffer]).
Proof.
  unfold Rtu.handleFrame, Rtu.validate.
  destruct (decide (Rtu.crc16 unit responseBuffer <> checksum)) as [Hc|Hc].
  - apply Z.eqb_neq in Hc. now rewrite Hc.
  - apply dec_stable in Hc. apply Z.eqb_eq in Hc. rewrite Hc. simpl.
    destruct (decide (unit <> getUnit t)) as [Hu|Hu].
    + apply Z.eqb_neq in Hu. now rewrite Hu.
    + apply dec_stable in Hu. apply Z.eqb_eq in Hu. now rewrite Hu.
Qed.

(** Too short an accumulation fails the transaction, echo or not. *)
Lemma handleFrameData_short st t :
  Rtu.transaction st = Some t ->
  Z.of_nat (length (Rtu.reader st)) < 5 ->
  Rtu.handleFrameData st
  = Returns (Rtu.skipResponseData st)
            [HandleError t IncompleteResponseFrameError].
Proof.
  intros Ht Hlen. unfold Rtu.handleFrameData, Rtu.MIN_FRAME_LENGTH.
  destruct (Z.ltb_spec (Z.of_nat (length (Rtu.reader st))) 5); [|lia].
  now rewrite Ht.
Qed.

(** With echo suppression on and more bytes queued than the last ADU had,
    those first bytes are skipped and the rest is the frame. *)
Lemma handleFrameData_after_echo st t (echo : Buf.buffer) unit
    (pdu : Buf.buffer) lo hi :
  Rtu.enableEcho st = true ->
  Rtu.transaction st = Some t ->
  Rtu.reader st = echo ++ unit :: pdu ++ [lo; hi] ->
  (1 <= length echo)%nat ->
  Z.of_nat (length echo) = Rtu.PREV_MSG_COUNT st ->
  (1 <= length pdu)%nat ->
  Rtu.handleFrameData st
  = Rtu.handleFrame st (Some t) unit pdu (Z.lor (Z.shiftl hi 8) lo).
Proof.
  intros Hecho Ht Hreader Hne Hprev Hlen.
  assert (HL : Z.of_nat (length (Rtu.reader st))
               = Rtu.PREV_MSG_COUNT st + Z.of_nat (length pdu) + 3).
  { rewrite Hreader, length_app. simpl length. rewrite length_app.
    simpl. lia. }
  unfold Rtu.handleFrameData, Rtu.MIN_FRAME_LENGTH.
  destruct (Z.ltb_spec (Z.of_nat (length (Rtu.reader st))) 5); [lia|].
  rewrite Hecho.
  destruct (Z.ltb_spec (Z.of_nat (length (Rtu.reader st)))
                       (Rtu.PREV_MSG_COUNT st)); [lia|].
  destruct (Z.eqb_spec (Rtu.PREV_MSG_COUNT st) 0); [lia|].
  destruct (Z.ltb_spec (Rtu.PREV_MSG_COUNT st)
                       (Z.of_nat (length (Rtu.reader st)))); [|lia].
  unfold Buf.skip, Buf.in_range.
  destruct (Z.leb_spec 1 (Rtu.PREV_MSG_COUNT st)); [|lia].
  destruct (Z.leb_spec (Rtu.PREV_MSG_COUNT st)
                       (Z.of_nat (length (Rtu.reader st)))); [|lia].
  cbn [andb]. rewrite <- Hprev, Nat2Z.id, Hreader, drop_app_length.
  rewrite shiftFrame_parts by exact Hlen.
  rewrite Ht. reflexivity.
Qed.

(** C3, as stated for every configuration, does not hold: with
    [enableEcho] on, a transaction in flight and eight bytes accumulated
    after an eight-byte ADU, the bytes do not carry a matching CRC and yet
    nothing is reported to the transaction. *)
Lemma rtu_echo_mode_skips_validation :
  let t := {| tid := 1; unit_ := 1; request := [3; 0; 0; 0; 3];
              adu := None |} in
  let idle := {| Rtu.enableEcho := true; Rtu.transaction := None;
                 Rtu.reader := []; Rtu.PREV_MSG_COUNT := 0 |} in
  let st := Rtu.onData (final (Rtu.sendRequest idle t))
                       [1; 0x83; 2; 0xC0; 0xF0; 0; 0; 0] in
  Rtu.transaction st <> None
  /\ 5 <= Z.of_nat (length (Rtu.reader st))
  /\ Rtu.crc16 1 [0x83; 2; 0xC0; 0xF0; 0] <> Z.lor (Z.shiftl 0 8) 0
  /\ events (Rtu.handleFrameData st) = [].
Proof. vm_compute. repeat split; congruence. Qed.

(** C3 (amended): when the end-of-frame timer fires with a transaction in
    flight, fewer than 5 accumulated bytes fail the transaction with
    IncompleteResponseFrame; otherwise the frame [unit, pdu, checksum] is
    all that accumulated when echo suppression is off, and what follows the
    first [PREV_MSG_COUNT] bytes when it is on and at least four more than
    those accumulated: a CRC that does not match fails the transaction with
    InvalidChecksum; else a unit other than the transaction's fails it with
    InvalidResponseData; else, and only then, the PDU is decoded and
    delivered as the response. *)
Theorem rtu_validation_order (st : Rtu.State) (t : Transaction) :
  Rtu.transaction st = Some t ->
  (Z.of_nat (length (Rtu.reader st)) < 5 ->
   Rtu.handleFrameData st
   = Returns (Rtu.skipResponseData st)
             [HandleError t IncompleteResponseFrameError])
  /\ (Rtu.enableEcho st = false ->
      forall unit pdu lo hi,
        Rtu.reader st = unit :: pdu ++ [lo; hi] ->
        (2 <= length pdu)%nat ->
        let checksum := Z.lor (Z.shiftl hi 8) lo in
        Rtu.handleFrameData st
        = Returns (Rtu.skipResponseData st)
            (if decide (Rtu.crc16 unit pdu <> checksum)
             then [HandleError t InvalidChecksumError]
             else if decide (unit <> getUnit t)
             then [HandleError t (InvalidResponseDataError
                                    (InvalidUnit (getUnit t) unit))]
             else [CreateResponse t pdu]))
  /\ (Rtu.enableEcho st = true ->
      forall echo unit pdu lo hi,
        Rtu.reader st = echo ++ unit :: pdu ++ [lo; hi] ->
        (1 <= length echo)%nat ->
        Z.of_nat (length echo) = Rtu.PREV_MSG_COUNT st ->
        (1 <= length pdu)%nat ->
        let checksum := Z.lor (Z.shiftl hi 8) lo in
        Rtu.handleFrameData st
        = Returns (Rtu.skipResponseData st)
            (if decide (Rtu.crc16 unit pdu <> checksum)
             then [HandleError t InvalidChecksumError]
             else if decide (unit <> getUnit t)
             then [HandleError t (InvalidResponseDataError
                                    (InvalidUnit (getUnit t) unit))]
             else [CreateResponse t pdu])).
Proof.
  intros Ht. split; [now apply handleFrameData_short|]. split.
  - intros Hecho unit pdu lo hi Hreader Hlen checksum.
    unfold Rtu.handleFrameData, Rtu.MIN_FRAME_LENGTH.
    rewrite Hreader, Hecho, Ht.
    destruct (Z.ltb_spec (Z.of_nat (length (unit :: pdu ++ [lo; hi]))) 5)
      as [Hshort|_].
    { simpl length in Hshort. rewrite length_app in Hshort.
      simpl in Hshort. lia. }
    rewrite shiftFrame_parts by lia.
    now rewrite handleFrame_verdict.
  - intros Hecho echo unit pdu lo hi Hreader Hne Hprev Hlen checksum.
    rewrite (handleFrameData_after_echo st t echo unit pdu lo hi)
      by assumption.
    now rewrite handleFrame_verdict.
Qed.

Lemma rtu_validation_order_witness :
  let t := {| tid := 1; unit_ := 1; request := [3; 0; 0; 0; 3];
              adu := Some [1; 3; 0; 0; 0; 3; 5; 0xCB] |} in
  let st := {| Rtu.enableEcho := false; Rtu.transaction := Some t;
               Rtu.reader := [1; 0x83; 2; 0xC0; 0xF1];
               Rtu.PREV_MSG_COUNT := 8 |} in
  Rtu.handleFrameData st
  = Returns (Rtu.skipResponseData st) [CreateResponse t [0x83; 2]].
Proof.
  intros t st.
  exact (proj1 (proj2 (rtu_validation_order st t eq_refl)) eq_refl
               1 [0x83; 2] 0xC0 0xF1 eq_refl (le_n 2)).
Defined.

End RtuFacts.


(** ** Echo suppression in the RTU transport *)

Section RtuEchoFacts.
Import Core.

(** C7, as stated, does not hold: echo suppression is on, the ADU sent was
    eight bytes long and six bytes have accumulated.  The buffer is not
    thrown away: its first byte is skipped, the other five pass the checks
    and are handed on as the response; no error reaches the transaction. *)
Lemma rtu_fewer_bytes_than_echo_are_parsed :
  let t := {| tid := 1; unit_ := 1; request := [3; 0; 0; 0; 3];
              adu := None |} in
  let idle := {| Rtu.enableEcho := true; Rtu.transaction := None;
                 Rtu.reader := []; Rtu.PREV_MSG_COUNT := 0 |} in
  let st := Rtu.onData (final (Rtu.sendRequest idle t))
                       [0; 1; 0x83; 2; 0xC0; 0xF1] in
  Rtu.enableEcho st = true
  /\ Rtu.transaction st = Some (setAdu t [1; 3; 0; 0; 0; 3; 5; 0xCB])
  /\ Z.of_nat (length (Rtu.reader st)) < Rtu.PREV_MSG_COUNT st
  /\ events (Rtu.handleFrameData st)
     = [CreateResponse (setAdu t [1; 3; 0; 0; 0; 3; 5; 0xCB]) [0x83; 2]]
  /\ delivers (setAdu t [1; 3; 0; 0; 0; 3; 5; 0xCB])
              (events (Rtu.handleFrameData st))
  /\ forall e, ~ fails_with (setAdu t [1; 3; 0; 0; 0; 3; 5; 0xCB]) e
                            (events (Rtu.handleFrameData st)).
Proof.
  vm_compute. repeat split; try congruence.
  - eexists. left. reflexivity.
  - intros e [H|[]]. discriminate H.
Qed.

(** What the code does with fewer bytes than the last ADU had (and at
    least 5): [PREV_MSG_COUNT] drops to 1, one byte is skipped and the rest
    goes through the checks as a frame. *)
Lemma rtu_echo_shorter_than_adu st t b unit (pdu : Buf.buffer) lo hi :
  Rtu.enableEcho st = true ->
  Rtu.transaction st = Some t ->
  Rtu.reader st = b :: unit :: pdu ++ [lo; hi] ->
  (1 <= length pdu)%nat ->
  Z.of_nat (length (Rtu.reader st)) < Rtu.PREV_MSG_COUNT st ->
  Rtu.handleFrameData st
  = Rtu.handleFrame (Rtu.set_PREV_MSG_COUNT st 1) (Some t) unit pdu
                    (Z.lor (Z.shiftl hi 8) lo).
Proof.
  intros Hecho Ht Hreader Hlen Hlt.
  unfold Rtu.handleFrameData, Rtu.MIN_FRAME_LENGTH.
  assert (HL : Z.of_nat (length (Rtu.reader st)) = Z.of_nat (length pdu) + 4).
  { rewrite Hreader. simpl length. rewrite length_app. simpl. lia. }
  destruct (Z.ltb_spec (Z.of_nat (length (Rtu.reader st))) 5); [lia|].
  rewrite Hecho.
  destruct (Z.ltb_spec (Z.of_nat (length (Rtu.reader st)))
                       (Rtu.PREV_MSG_COUNT st)); [|lia].
  cbn [Rtu.PREV_MSG_COUNT Rtu.set_PREV_MSG_COUNT Rtu.reader Z.eqb].
  destruct (Z.ltb_spec 1 (Z.of_nat (length (Rtu.reader st)))); [|lia].
  rewrite Hreader. unfold Buf.skip, Buf.in_range.
  rewrite <- Hreader.
  destruct (Z.leb_spec 1 (Z.of_nat (length (Rtu.reader st)))); [|lia].
  rewrite Hreader. change (Z.to_nat 1) with 1%nat.
  change ((1 <=? 1) && true) with true. cbn [drop].
  rewrite shiftFrame_parts by exact Hlen.
  rewrite Ht. reflexivity.
Qed.

(** A queue of 5 bytes or more is a byte, a unit byte, a PDU of 1 byte or
    more and two checksum bytes. *)
Lemma reader_split (r : Buf.reader) :
  (5 <= length r)%nat ->
  exists b unit pdu lo hi,
    r = b :: unit :: pdu ++ [lo; hi] /\ (1 <= length pdu)%nat.
Proof.
  intros Hlen. destruct r as [|b [|unit r]]; simpl in Hlen; try lia.
  exists b, unit, (take (length r - 2) r).
  assert (Htail : length (drop (length r - 2) r) = 2%nat)
    by (rewrite length_drop; lia).
  destruct (drop (length r - 2) r) as [|lo [|hi [|x tl]]] eqn:Hdrop;
    simpl in Htail; try lia.
  exists lo, hi. split.
  - now rewrite <- Hdrop, take_drop.
  - rewrite length_take. lia.
Qed.

(** C7 (amended): with [enableEcho] on and a transaction in flight, when
    the end-of-frame timer fires on fewer bytes than [PREV_MSG_COUNT] (the
    recorded length of the last ADU built), the whole receive buffer is
    consumed and the transaction is closed by exactly one call, which is
    never a no-echo error.  With fewer than 5 bytes it is failed with
    IncompleteResponseFrame.  With 5 bytes or more [PREV_MSG_COUNT] becomes
    1, the first byte is skipped and the rest is checked as a frame: the
    transaction is failed with InvalidChecksum, or else with
    InvalidResponseData when the unit is not its own, or else is given the
    PDU as its response.  Only when exactly [PREV_MSG_COUNT] bytes (5 or
    more) have accumulated is the buffer discarded with no call at all, and
    then the transaction stays in flight. *)
Theorem rtu_echo_missing_bytes (st : Rtu.State) (t : Transaction) :
  Rtu.enableEcho st = true ->
  Rtu.transaction st = Some t ->
  let len := Z.of_nat (length (Rtu.reader st)) in
  (len < 5 ->
   Rtu.handleFrameData st
   = Returns (Rtu.skipResponseData st)
             [HandleError t IncompleteResponseFrameError])
  /\ (5 <= len -> len < Rtu.PREV_MSG_COUNT st ->
      (exists b unit pdu lo hi,
         Rtu.reader st = b :: unit :: pdu ++ [lo; hi])
      /\ forall b unit pdu lo hi,
           Rtu.reader st = b :: unit :: pdu ++ [lo; hi] ->
           Rtu.handleFrameData st
           = Returns (Rtu.skipResponseData (Rtu.set_PREV_MSG_COUNT st 1))
               (if decide (Rtu.crc16 unit pdu <> Z.lor (Z.shiftl hi 8) lo)
                then [HandleError t InvalidChecksumError]
                else if decide (unit <> getUnit t)
                then [HandleError t (InvalidResponseDataError
                                       (InvalidUnit (getUnit t) unit))]
                else [CreateResponse t pdu]))
  /\ (5 <= len -> len = Rtu.PREV_MSG_COUNT st ->
      Rtu.handleFrameData st = Returns (Rtu.set_reader st []) []
      /\ Rtu.transaction (final (Rtu.handleFrameData st)) = Some t).
Proof.
  intros Hecho Ht len. split; [|split].
  - now apply handleFrameData_short.
  - intros Hlen Hprev. split.
    + destruct (reader_split (Rtu.reader st))
        as (b & u & pdu & lo & hi & H & _); [unfold len in Hlen; lia|].
      now exists b, u, pdu, lo, hi.
    + intros b unit pdu lo hi Hreader.
      assert (Hpdu : (1 <= length pdu)%nat).
      { unfold len in Hlen. rewrite Hreader in Hlen. simpl in Hlen.
        rewrite length_app in Hlen. simpl in Hlen. lia. }
      rewrite (rtu_echo_shorter_than_adu st t b unit pdu lo hi
                 Hecho Ht Hreader Hpdu Hprev).
      apply handleFrame_verdict.
  - intros Hlen Hprev. fold len.
    assert (Hrun : Rtu.handleFrameData st = Returns (Rtu.set_reader st []) []).
    { unfold Rtu.handleFrameData, Rtu.MIN_FRAME_LENGTH. fold len.
      destruct (Z.ltb_spec len 5); [lia|].
      rewrite Hecho.
      destruct (Z.ltb_spec len (Rtu.PREV_MSG_COUNT st)); [lia|].
      destruct (Z.eqb_spec (Rtu.PREV_MSG_COUNT st) 0); [lia|].
      destruct (Z.ltb_spec (Rtu.PREV_MSG_COUNT st) len); [lia|].
      unfold Buf.shiftBuffer, Buf.in_range. fold len.
      destruct (Z.leb_spec 1 len); [|lia].
      rewrite Z.leb_refl. unfold len. rewrite Nat2Z.id. simpl.
      now rewrite drop_all. }
    rewrite Hrun. split; [reflexivity | exact Ht].
Qed.

Lemma rtu_echo_missing_bytes_witness :
  let t := {| tid := 1; unit_ := 1; request := [3; 0; 0; 0; 3];
              adu := None |} in
  let idle := {| Rtu.enableEcho := true; Rtu.transaction := None;
                 Rtu.reader := []; Rtu.PREV_MSG_COUNT := 0 |} in
  let sent := final (Rtu.sendRequest idle t) in
  let t' := setAdu t [1; 3; 0; 0; 0; 3; 5; 0xCB] in
  let st := Rtu.onData sent [1; 3; 0; 0; 0; 3] in
  Rtu.PREV_MSG_COUNT st = 8
  /\ Rtu.handleFrameData st
     = Returns (Rtu.skipResponseData (Rtu.set_PREV_MSG_COUNT st 1))
               [HandleError t' InvalidChecksumError].
Proof.
  intros t idle sent t' st. split; [reflexivity|].
  destruct (rtu_echo_missing_bytes st t' eq_refl eq_refl) as (_ & Hfewer & _).
  destruct Hfewer as [_ Hparse]; [simpl; lia | simpl; lia |].
  exact (Hparse 1 3 [0; 0] 0 3 eq_refl).
Defined.

End RtuEchoFacts.


(** ** The IP transport *)

Section IpFacts.
Import Core.

(** The header as [read] leaves it: [length] is the wire's length field
    less one, so a stored length of 0 is a length field of 1 (a unit byte and
    no PDU). *)
Lemma Header_read_fields i1 i0 v1 v0 l1 l0 u (rest : Buf.reader) :
  Ip.Header_read (i1 :: i0 :: v1 :: v0 :: l1 :: l0 :: u :: rest)
  = Some ({| Ip.id := Z.lor (Z.shiftl i1 8) i0;
             Ip.version := Z.lor (Z.shiftl v1 8) v0;
             Ip.length := Z.lor (Z.shiftl l1 8) l0 - 1;
             Ip.unit := u |}, rest).
Proof. reflexivity. Qed.

(** [validate] answers with an error exactly on the three defects, and
    the version is looked at first. *)
Lemma Header_validate_defect (h : Ip.Header) (t : Transaction) :
  Ip.version h <> 0 \/ Ip.length h = 0 \/ Ip.unit h <> getUnit t ->
  exists m,
    Ip.Header_validate h t = Some (InvalidResponseDataError m)
    /\ (Ip.version h <> 0 -> m = InvalidVersion (Ip.version h)).
Proof.
  intros Hdefect. unfold Ip.Header_validate.
  destruct (Z.eqb_spec (Ip.version h) 0) as [Hv|Hv]; simpl.
  - destruct (Z.eqb_spec (Ip.length h) 0) as [Hl|Hl].
    + eexists. split; [reflexivity | intros Hne; contradiction].
    + destruct (Z.eqb_spec (Ip.unit h) (getUnit t)) as [Hu|Hu]; simpl.
      * destruct Hdefect as [?|[?|?]]; contradiction.
      * eexists. split; [reflexivity | intros Hne; contradiction].
  - eexists. split; reflexivity.
Qed.

Lemma Header_validate_sound (h : Ip.Header) (t : Transaction) :
  Ip.Header_validate h t = None ->
  Ip.version h = 0 /\ Ip.length h <> 0 /\ Ip.unit h = getUnit t.
Proof.
  unfold Ip.Header_validate.
  destruct (Z.eqb_spec (Ip.version h) 0); simpl; [|discriminate].
  destruct (Z.eqb_spec (Ip.length h) 0); [discriminate|].
  destruct (Z.eqb_spec (Ip.unit h) (getUnit t)); simpl; [|discriminate].
  auto.
Qed.

Lemma skipResponseData_queued (st : Ip.State) :
  Ip.length (Ip.header st) <= Z.of_nat (length (Ip.reader st)) ->
  exists r,
    Ip.skipResponseData st
    = Some (Ip.set_header (Ip.set_reader st r) Ip.Header_reset).
Proof.
  intros Hq. unfold Ip.skipResponseData.
  destruct (Z.ltb_spec 0 (Ip.length (Ip.header st))) as [Hpos|Hnpos].
  - unfold Buf.skip, Buf.in_range.
    destruct (Z.leb_spec 1 (Ip.length (Ip.header st))); [|lia].
    destruct (Z.leb_spec (Ip.length (Ip.header st))
                         (Z.of_nat (length (Ip.reader st)))); [|lia].
    simpl. eexists. reflexivity.
  - exists (Ip.reader st). simpl. now destruct st.
Qed.

(** X22: once a header is read and its payload queued, a header whose stored
    version (the protocol id) is not 0, or whose stored length is 0 (a
    length field of 1), or whose unit is not the unit of the transaction
    filed under the header's id, makes [handleFrameData] fail that
    transaction with an InvalidResponseData error and drop it from the map;
    when the version is not 0 the error is the one about the version,
    whatever the length and the unit are. *)
Lemma ip_header_defect_fails_transaction
    (fuel : nat) (st : Ip.State) (t : Transaction) :
  Ip.id (Ip.header st) <> -1 ->
  Ip.length (Ip.header st) <= Z.of_nat (length (Ip.reader st)) ->
  Ip.transactions st !! Ip.id (Ip.header st) = Some t ->
  Ip.version (Ip.header st) <> 0
  \/ Ip.length (Ip.header st) = 0
  \/ Ip.unit (Ip.header st) <> getUnit t ->
  exists m st',
    Ip.handleFrameData (S fuel) st
    = after [HandleError t (InvalidResponseDataError m)] (Ip.onData_ fuel st')
    /\ fails_with t (InvalidResponseDataError m)
                  (events (Ip.handleFrameData (S fuel) st))
    /\ Ip.transactions st' !! Ip.id (Ip.header st) = None
    /\ (Ip.version (Ip.header st) <> 0 ->
        m = InvalidVersion (Ip.version (Ip.header st))).
Proof.
  intros Hid Hqueued Hlookup Hdefect.
  destruct (Header_validate_defect _ t Hdefect) as (m & Hval & Hfirst).
  set (st1 := Ip.set_transactions st
                (delete (Ip.id (Ip.header st)) (Ip.transactions st))).
  destruct (skipResponseData_queued st1 Hqueued) as (r & Hskip).
  exists m, (Ip.set_header (Ip.set_reader st1 r) Ip.Header_reset).
  assert (Hrun :
    Ip.handleFrameData (S fuel) st
    = after [HandleError t (InvalidResponseDataError m)]
        (Ip.onData_ fuel (Ip.set_header (Ip.set_reader st1 r)
                                        Ip.Header_reset))).
  { pose proof (proj2 (Z.eqb_neq _ _) Hid) as Hread.
    pose proof (proj2 (Z.leb_le _ _) Hqueued) as Hq.
    unfold Ip.handleFrameData. cbn [Ip.onData_].
    rewrite Hread. cbn [andb negb]. rewrite Hread, Hq. cbn [andb negb].
    rewrite Hlookup. fold st1.
    change (Ip.header st1) with (Ip.header st).
    now rewrite Hval, Hskip. }
  rewrite Hrun. repeat split.
  - destruct (Ip.onData_ fuel _); simpl; now left.
  - simpl. apply lookup_delete_eq.
  - exact Hfirst.
Qed.

Lemma ip_header_defect_fails_transaction_witness :
  let t := {| tid := 1; unit_ := 1; request := [1; 0; 0; 0; 8];
              adu := None |} in
  let st := {| Ip.reader := [1; 1; 0xAA];
               Ip.header := {| Ip.id := 1; Ip.version := 1;
                               Ip.length := 3; Ip.unit := 1 |};
               Ip.nextTransactionId := 1;
               Ip.transactions := {[ 1 := t ]} |} in
  exists m st',
    Ip.handleFrameData 5 st
    = after [HandleError t (InvalidResponseDataError m)] (Ip.onData_ 4 st')
    /\ fails_with t (InvalidResponseDataError m)
                  (events (Ip.handleFrameData 5 st))
    /\ Ip.transactions st' !! Ip.id (Ip.header st) = None
    /\ (Ip.version (Ip.header st) <> 0 ->
        m = InvalidVersion (Ip.version (Ip.header st))).
Proof.
  intros t st.
  apply (ip_header_defect_fails_transaction 4 st t).
  - simpl. lia.
  - simpl. lia.
  - apply lookup_singleton_eq.
  - left. simpl. lia.
Defined.

(** C4: a received header whose length field is 0 does not fail the
    transaction it is matched to.  With transaction 1 in flight for unit 1,
    the header 00 01 00 00 00 00 01 is stored with length -1; [validate]
    tests for 0 only and finds no fault; the transaction is taken off the map
    and never told of an error (the read of -1 payload bytes that follows is
    refused by the byte queue). *)
Theorem ip_length_field_zero_not_rejected :
  let t := {| tid := 1; unit_ := 1; request := [1; 0; 0; 0; 8];
              adu := None |} in
  let inflight := setAdu t (Ip.frame 1 1 [1; 0; 0; 0; 8]) in
  let st := final (Ip.sendRequest Ip.fresh t) in
  let h := {| Ip.id := 1; Ip.version := 0; Ip.length := -1;
              Ip.unit := 1 |} in
  let o := Ip.onData 9 st [0; 1; 0; 0; 0; 0; 1] in
  Ip.transactions st !! 1 = Some inflight
  /\ Ip.Header_read [0; 1; 0; 0; 0; 0; 1] = Some (h, [])
  /\ Ip.Header_validate h inflight = None
  /\ events o = []
  /\ (forall e, ~ fails_with inflight e (events o))
  /\ ~ runs_out o
  /\ Ip.transactions (final o) !! 1 = None.
Proof.
  vm_compute. repeat split.
  - intros e [].
  - intros (st & evs & H). discriminate H.
Qed.

(** What [getNextTransactionId] draws, in modular terms. *)
Lemma getNextTransactionId_mod (st : Ip.State) :
  0 <= Ip.nextTransactionId st < 0xFFFF ->
  fst (Ip.getNextTransactionId st) = (Ip.nextTransactionId st + 1) mod 0xFFFF
  /\ Ip.nextTransactionId (snd (Ip.getNextTransactionId st))
     = fst (Ip.getNextTransactionId st).
Proof.
  intros Hn. unfold Ip.getNextTransactionId. simpl. split; [|reflexivity].
  destruct (Z.eqb_spec (Ip.nextTransactionId st + 1) 65535) as [->|Hne].
  - reflexivity.
  - symmetry. apply Z.mod_small. lia.
Qed.

Lemma sendRequests_from (ts : list Transaction) : forall st : Ip.State,
  0 <= Ip.nextTransactionId st < 0xFFFF ->
  Ip.sendRequests st ts
  = map (fun k => (Ip.nextTransactionId st + Z.of_nat k) mod 0xFFFF)
        (seq 1 (length ts)).
Proof.
  induction ts as [|t ts IH]; intros st Hn; [reflexivity|].
  destruct (getNextTransactionId_mod st Hn) as [Hid Hnext].
  cbn [Ip.sendRequests length seq map]. unfold Ip.sendRequest_id.
  destruct (Ip.getNextTransactionId st) as [id st1] eqn:Hget.
  simpl in Hid, Hnext. destruct (Ip.getAdu id t) as [a t'].
  cbn [final]. rewrite IH.
  - cbn [Ip.nextTransactionId Ip.set_transactions]. rewrite Hnext, Hid.
    f_equal. rewrite <- (seq_shift (length ts) 1), map_map.
    apply map_ext. intros k.
    rewrite Zplus_mod_idemp_l. f_equal. lia.
  - cbn [Ip.nextTransactionId Ip.set_transactions]. rewrite Hnext, Hid.
    apply Z.mod_pos_bound. lia.
Qed.

(** One [sendRequest], spelled out: the id drawn heads the ADU written,
    keys the transaction in the map and is the id the timeout handler will
    delete. *)
Lemma sendRequest_uses_id (st : Ip.State) (t : Transaction) :
  0 <= Ip.nextTransactionId st < 0xFFFF ->
  let id := (Ip.nextTransactionId st + 1) mod 0xFFFF in
  exists st' t' a,
    Ip.sendRequest st t
    = Returns st' [EmitRequest t'; Write a; Start t' (DeleteTransaction id)]
    /\ sameTransaction (Some t') (Some t)
    /\ Buf.readUInt16BE a 0 = id
    /\ (Core.getAdu t = None -> a = Ip.frame id (getUnit t) (request t))
    /\ Ip.transactions st' !! id = Some t'
    /\ Ip.nextTransactionId st' = id.
Proof.
  intros Hn id.
  destruct (getNextTransactionId_mod st Hn) as [Hid _]. fold id in Hid.
  assert (Hrange : 0 <= id < 65536).
  { pose proof (Z.mod_pos_bound (Ip.nextTransactionId st + 1) 0xFFFF).
    unfold id. lia. }
  assert (Hword : forall rest,
            Buf.readUInt16BE (Buf.uint16BE id ++ rest) 0 = id).
  { intros rest. unfold Buf.readUInt16BE, Buf.uint16BE. cbn [app nth].
    now apply uint16LE_decode. }
  unfold Ip.sendRequest, Ip.sendRequest_id.
  destruct (Ip.getNextTransactionId st) as [id0 st1] eqn:Hget.
  cbn [fst] in Hid. subst id0.
  assert (Hst1 : st1 = Ip.set_nextTransactionId st id).
  { unfold Ip.getNextTransactionId in Hget. cbn zeta in Hget.
    now injection Hget as <- <-. }
  unfold Ip.getAdu, Ip.buildAdu.
  destruct (Core.getAdu t) as [a0|] eqn:Ha; cbn [snd];
    eexists _, _, _; (split; [reflexivity|]).
  - split; [reflexivity|]. split; [apply Hword|].
    split; [discriminate|]. split; [apply lookup_insert_eq|].
    now rewrite Hst1.
  - split; [reflexivity|]. split; [apply Hword|].
    split; [reflexivity|]. split; [apply lookup_insert_eq|].
    now rewrite Hst1.
Qed.

Lemma sendAll_from (ts : list Transaction) :
  forall (st : Ip.State) (k : nat) (t : Transaction),
  0 <= Ip.nextTransactionId st < 0xFFFF ->
  ts !! k = Some t ->
  let id := (Ip.nextTransactionId st + Z.of_nat (S k)) mod 0xFFFF in
  exists st' t' a,
    Ip.sendAll st ts !! k
    = Some (Returns st' [EmitRequest t'; Write a;
                         Start t' (DeleteTransaction id)])
    /\ sameTransaction (Some t') (Some t)
    /\ Buf.readUInt16BE a 0 = id
    /\ (Core.getAdu t = None -> a = Ip.frame id (getUnit t) (request t))
    /\ Ip.transactions st' !! id = Some t'
    /\ Ip.nextTransactionId st' = id.
Proof.
  induction ts as [|t0 ts IH]; intros st k t Hn Hk; [discriminate|].
  destruct (sendRequest_uses_id st t0 Hn)
    as (st1 & t1 & a1 & Hsend & Hsame & Hword & Hframe & Hmap & Hnext).
  destruct k as [|k].
  - injection Hk as ->. cbn [Ip.sendAll lookup list_lookup].
    replace (Ip.nextTransactionId st + Z.of_nat 1)
      with (Ip.nextTransactionId st + 1) by lia.
    exists st1, t1, a1. rewrite Hsend. auto 10.
  - cbn [Ip.sendAll]. rewrite Hsend. cbn [final].
    change ((?x :: ?l) !! S k) with (l !! k).
    assert (Hn1 : 0 <= Ip.nextTransactionId st1 < 0xFFFF).
    { rewrite Hnext. apply Z.mod_pos_bound. lia. }
    destruct (IH st1 k t Hn1 Hk) as (st' & t' & a & H).
    replace ((Ip.nextTransactionId st1 + Z.of_nat (S k)) mod 0xFFFF)
      with ((Ip.nextTransactionId st + Z.of_nat (S (S k))) mod 0xFFFF) in H.
    + exists st', t', a. exact H.
    + rewrite Hnext, Zplus_mod_idemp_l. f_equal. lia.
Qed.

(** C6: on a fresh transport the [k]-th [sendRequest] uses the id
    [k mod 0xFFFF].  It returns; the ADU it writes carries that id in its
    first two bytes (and is the frame of the request under that id when the
    transaction had no ADU yet); the transaction is filed in the map under
    that id; the timeout handler it starts deletes that id; and the counter
    is left at it.  So the ids used are 1, 2, 3, ... up to 0xFFFE, never
    0xFFFF, and the one after 0xFFFE is 0. *)
Theorem ip_transaction_ids (ts : list Transaction) (k : nat)
    (t : Transaction) :
  ts !! k = Some t ->
  let id := Z.of_nat (S k) mod 0xFFFF in
  (exists st' t' a,
     Ip.sendAll Ip.fresh ts !! k
     = Some (Returns st' [EmitRequest t'; Write a;
                          Start t' (DeleteTransaction id)])
     /\ sameTransaction (Some t') (Some t)
     /\ Buf.readUInt16BE a 0 = id
     /\ (Core.getAdu t = None -> a = Ip.frame id (getUnit t) (request t))
     /\ Ip.transactions st' !! id = Some t'
     /\ Ip.nextTransactionId st' = id)
  /\ id <> 0xFFFF
  /\ (Z.of_nat (S k) <= 0xFFFE -> id = Z.of_nat (S k))
  /\ (Z.of_nat (S k) = 0xFFFF -> id = 0).
Proof.
  intros Hk id. split; [|split; [|split]].
  - apply (sendAll_from ts Ip.fresh k t); [simpl; lia | exact Hk].
  - pose proof (Z.mod_pos_bound (Z.of_nat (S k)) 0xFFFF). unfold id. lia.
  - intros Hle. apply Z.mod_small. lia.
  - intros Heq. unfold id. rewrite Heq. reflexivity.
Qed.

Lemma ip_transaction_ids_witness :
  let T1 := {| tid := 1; unit_ := 1; request := [1; 0; 0; 0; 8];
               adu := None |} in
  let T2 := {| tid := 2; unit_ := 1; request := [3; 0; 0; 0; 1];
               adu := None |} in
  let T3 := {| tid := 3; unit_ := 2; request := [0x11]; adu := None |} in
  (exists st' t' a,
     Ip.sendAll Ip.fresh [T1; T2; T3] !! 2%nat
     = Some (Returns st' [EmitRequest t'; Write a;
                          Start t' (DeleteTransaction 3)])
     /\ sameTransaction (Some t') (Some T3)
     /\ Buf.readUInt16BE a 0 = 3
     /\ (Core.getAdu T3 = None -> a = [0; 3; 0; 0; 0; 2; 2; 0x11])
     /\ Ip.transactions st' !! 3 = Some t'
     /\ Ip.nextTransactionId st' = 3)
  /\ (exists st' t' a,
        Ip.sendAll Ip.fresh (replicate (Z.to_nat 0xFFFF) T1)
          !! Z.to_nat 0xFFFE
        = Some (Returns st' [EmitRequest t'; Write a;
                             Start t' (DeleteTransaction 0)])
        /\ Buf.readUInt16BE a 0 = 0
        /\ Ip.transactions st' !! 0 = Some t'
        /\ Ip.nextTransactionId st' = 0).
Proof.
  intros T1 T2 T3. split.
  - exact (proj1 (ip_transaction_ids [T1; T2; T3] 2 T3 eq_refl)).
  - assert (Hk : replicate (Z.to_nat 0xFFFF) T1 !! Z.to_nat 0xFFFE = Some T1)
      by (apply lookup_replicate_2; lia).
    destruct (ip_transaction_ids _ _ _ Hk) as (Hsend & _ & _ & Hwrap).
    destruct Hsend as (st' & t' & a & Hsend & _ & Hword & _ & Hmap & Hnext).
    rewrite Hwrap in Hsend, Hword, Hmap, Hnext by lia.
    exists st', t', a. auto.
Defined.

End IpFacts.


(** ** The Tunnel transport *)

Section TunnelFacts.
Import Core.

(** C8: the Tunnel transport holds two transactions at most.  With none
    pending, [sendRequest] makes the submitted one current and starts it;
    with one pending and the second slot free, it stores the submitted one as
    next and returns; with both slots taken it throws. *)
Theorem tunnel_sendRequest_two_slots (st : Tunnel.State) (t : Transaction) :
  (Tunnel.transaction st = None ->
   Tunnel.sendRequest st t
   = Returns (Tunnel.set_transaction st (Some t))
             [EmitRequest t; Start t HandleTimeout])
  /\ (Tunnel.transaction st <> None -> Tunnel.nextTransaction st = None ->
      Tunnel.sendRequest st t
      = Returns (Tunnel.set_nextTransaction st (Some t)) [])
  /\ (Tunnel.transaction st <> None -> Tunnel.nextTransaction st <> None ->
      Tunnel.sendRequest st t = Raises TooManyRequests st []).
Proof.
  unfold Tunnel.sendRequest.
  destruct (Tunnel.transaction st) as [c|] eqn:Hc;
    destruct (Tunnel.nextTransaction st) as [n|] eqn:Hn;
    repeat split; intros; try congruence; try reflexivity.
Qed.

Lemma tunnel_sendRequest_two_slots_witness :
  let t1 := {| tid := 1; unit_ := 1; request := [0x11]; adu := None |} in
  let t2 := {| tid := 2; unit_ := 1; request := [0x11]; adu := None |} in
  let t3 := {| tid := 3; unit_ := 1; request := [0x11]; adu := None |} in
  let st0 := Tunnel.fresh 127 in
  let st1 := Tunnel.set_transaction st0 (Some t1) in
  let st2 := Tunnel.set_nextTransaction st1 (Some t2) in
  Tunnel.sendRequest st0 t1
  = Returns st1 [EmitRequest t1; Start t1 HandleTimeout]
  /\ Tunnel.sendRequest st1 t2 = Returns st2 []
  /\ Tunnel.sendRequest st2 t3 = Raises TooManyRequests st2 [].
Proof.
  intros t1 t2 t3 st0 st1 st2. split; [|split].
  - apply (proj1 (tunnel_sendRequest_two_slots st0 t1)). reflexivity.
  - apply (proj1 (proj2 (tunnel_sendRequest_two_slots st1 t2)));
      [discriminate | reflexivity].
  - apply (proj2 (proj2 (tunnel_sendRequest_two_slots st2 t3)));
      discriminate.
Defined.

Lemma frame_length unit (pdu : Buf.buffer) :
  length (Crc.frame unit pdu) = (length pdu + 3)%nat.
Proof.
  unfold Crc.frame, Buf.uint16LE. simpl. rewrite length_app. simpl. lia.
Qed.

(** A frame built by [frame] passes the checksum test. *)
Lemma validate_frame unit (pdu : Buf.buffer) :
  Tunnel.validate unit pdu (Crc.crc16 unit pdu) = None.
Proof. unfold Tunnel.validate, Tunnel.crc16. now rewrite Z.eqb_refl. Qed.

(** C9: a well-framed frame whose unit byte is not the configured slave id
    changes nothing but the receive queue, which is emptied: the sequence
    counter, the current and the next transaction are as before. *)
Theorem tunnel_foreign_frame_leaves_state
    (st : Tunnel.State) (unit : Z) (pdu : Buf.buffer) :
  unit <> Tunnel.slaveId st ->
  Tunnel.reader st = Crc.frame unit pdu ->
  let st' := final (Tunnel.handleFrameData st) in
  st' = Tunnel.flushReader st
  /\ Tunnel.sequence st' = Tunnel.sequence st
  /\ Tunnel.transaction st' = Tunnel.transaction st
  /\ Tunnel.nextTransaction st' = Tunnel.nextTransaction st.
Proof.
  intros Hunit Hreader st'.
  assert (Hst' : st' = Tunnel.flushReader st).
  { unfold st', Tunnel.handleFrameData. rewrite Hreader, frame_length.
    destruct (Nat.ltb_spec (length pdu + 3) 4) as [Hshort|Hlong];
      [reflexivity|].
    rewrite shiftFrame_frame by lia.
    rewrite validate_frame. cbn [Tunnel.slaveId Tunnel.flushReader
                                 Tunnel.set_reader].
    apply Z.eqb_neq in Hunit. rewrite Hunit. reflexivity. }
  rewrite Hst'. repeat split.
Qed.

Lemma tunnel_foreign_frame_leaves_state_witness :
  let t1 := {| tid := 1; unit_ := 1; request := [0x11]; adu := None |} in
  let st := {| Tunnel.slaveId := 127; Tunnel.transaction := Some t1;
               Tunnel.nextTransaction := None; Tunnel.sequence := 0;
               Tunnel.reader := Crc.frame 126 [0x47; 0; 1; 0x11] |} in
  let st' := final (Tunnel.handleFrameData st) in
  st' = Tunnel.flushReader st
  /\ Tunnel.sequence st' = Tunnel.sequence st
  /\ Tunnel.transaction st' = Tunnel.transaction st
  /\ Tunnel.nextTransaction st' = Tunnel.nextTransaction st.
Proof.
  intros t1 st.
  apply (tunnel_foreign_frame_leaves_state st 126 [0x47; 0; 1; 0x11]).
  - simpl. lia.
  - reflexivity.
Defined.

End TunnelFacts.


(** ** Polls addressed to the tunnel *)

Section TunnelPollFacts.
Import Core.

Lemma sameTransaction_refl a : sameTransaction a a.
Proof. reflexivity. Qed.

(** Replying caches an ADU in the current transaction at most; it is the
    same transaction. *)
Lemma sendSlaveResponse_state (st : Tunnel.State) :
  let st' := fst (Tunnel.sendSlaveResponse st) in
  sameTransaction (Tunnel.transaction st') (Tunnel.transaction st)
  /\ Tunnel.nextTransaction st' = Tunnel.nextTransaction st
  /\ Tunnel.sequence st' = Tunnel.sequence st.
Proof.
  unfold Tunnel.sendSlaveResponse, Tunnel.getAdu, Tunnel.buildAdu.
  destruct (Tunnel.transaction st) as [t|] eqn:Ht; simpl.
  - destruct (Core.getAdu t); simpl; rewrite ?Ht; repeat split.
  - rewrite ?Ht. repeat split.
Qed.

(** An in-sequence poll for us reaches [handleSlaveCommand]. *)
Lemma handleFrameData_poll (st : Tunnel.State) (rest : Buf.buffer) :
  Tunnel.reader st
  = Crc.frame (Tunnel.slaveId st)
              (Tunnel.SLAVE_COMMAND :: Tunnel.sequence st :: rest) ->
  Tunnel.handleFrameData st
  = let '(st', evs) :=
      Tunnel.handleSlaveCommand
        (Tunnel.flushReader st)
        (Tunnel.SLAVE_COMMAND :: Tunnel.sequence st :: rest) in
    Returns st' ([EmitSniff SniffPdu
                    (Crc.frame (Tunnel.slaveId st)
                       (Tunnel.SLAVE_COMMAND :: Tunnel.sequence st :: rest))]
                   ++ evs).
Proof.
  intros Hreader. unfold Tunnel.handleFrameData.
  rewrite Hreader, frame_length.
  destruct (Nat.ltb_spec
              (length (Tunnel.SLAVE_COMMAND :: Tunnel.sequence st :: rest) + 3)
              4) as [Hshort|_]; [simpl in Hshort; lia|].
  rewrite shiftFrame_frame by (simpl; lia).
  rewrite validate_frame.
  cbn [Tunnel.slaveId Tunnel.flushReader Tunnel.set_reader].
  rewrite Z.eqb_refl.
  destruct (decide (Buf.get (Tunnel.SLAVE_COMMAND :: Tunnel.sequence st :: rest)
                            0 = Some Tunnel.SLAVE_COMMAND)) as [_|Hne];
    [|now contradiction Hne].
  reflexivity.
Qed.

Lemma land_255_mod (n : Z) : Z.land n 255 = n mod 256.
Proof. change 255 with (Z.ones 8). now rewrite Z.land_ones by lia. Qed.

(** A bare poll does not move the queue: two transactions are queued and
    the poll in sequence carries no payload.  The counter moves on, but the
    current transaction stays current and the next one stays next. *)
Lemma tunnel_bare_poll_keeps_the_queue :
  let t1 := {| tid := 1; unit_ := 1; request := [0x11]; adu := None |} in
  let t2 := {| tid := 2; unit_ := 1; request := [0x11]; adu := None |} in
  let st := {| Tunnel.slaveId := 127; Tunnel.transaction := Some t1;
               Tunnel.nextTransaction := Some t2; Tunnel.sequence := 0;
               Tunnel.reader := [0x7F; 0x47; 0x00; 0x73; 0xE8] |} in
  let st' := final (Tunnel.handleFrameData st) in
  Tunnel.reader st = Crc.frame 127 [Tunnel.SLAVE_COMMAND; 0]
  /\ Tunnel.sequence st' = 1
  /\ sameTransaction (Tunnel.transaction st') (Some t1)
  /\ Tunnel.nextTransaction st' = Some t2
  /\ ~ sameTransaction (Tunnel.transaction st') (Tunnel.nextTransaction st).
Proof.
  vm_compute. repeat split. discriminate.
Qed.

(** What a poll in sequence does, case by case.  On a well-framed frame
    for our slave id whose PDU starts with SLAVE_COMMAND and the current
    sequence number, the sequence counter is incremented modulo 256.  If a
    transaction is pending and the PDU is longer than that 2-byte header,
    the PDU from index 3 on is handed to the decoder for the current
    transaction, and the next queued transaction (if any) becomes current,
    leaving the next slot empty.  Otherwise (no transaction pending, or a
    bare header) the current and the next transaction stay as they are. *)
Lemma tunnel_in_sequence_poll (st : Tunnel.State) (rest : Buf.buffer) :
  Tunnel.reader st
  = Crc.frame (Tunnel.slaveId st)
              (Tunnel.SLAVE_COMMAND :: Tunnel.sequence st :: rest) ->
  let pdu := Tunnel.SLAVE_COMMAND :: Tunnel.sequence st :: rest in
  let o := Tunnel.handleFrameData st in
  Tunnel.sequence (final o) = (Tunnel.sequence st + 1) mod 256
  /\ (forall t, Tunnel.transaction st = Some t -> rest <> [] ->
        In (CreateResponse t (drop 3 pdu)) (events o)
        /\ sameTransaction (Tunnel.transaction (final o))
                           (Tunnel.nextTransaction st)
        /\ Tunnel.nextTransaction (final o) = None)
  /\ (Tunnel.transaction st = None \/ rest = [] ->
        (forall t b, ~ In (CreateResponse t b) (events o))
        /\ sameTransaction (Tunnel.transaction (final o))
                           (Tunnel.transaction st)
        /\ Tunnel.nextTransaction (final o) = Tunnel.nextTransaction st).
Proof.
  intros Hreader pdu o. unfold o. rewrite (handleFrameData_poll st rest Hreader).
  fold pdu. unfold Tunnel.handleSlaveCommand.
  cbn [Tunnel.sequence Tunnel.flushReader Tunnel.set_reader
       Tunnel.set_sequence Tunnel.transaction Tunnel.nextTransaction].
  destruct (decide (Buf.get pdu 1 = Some (Tunnel.sequence st))) as [_|Hne];
    [|now contradiction Hne].
  destruct (Tunnel.transaction st) as [t|] eqn:Ht.
  - destruct rest as [|b rest].
    + (* a bare header: nothing is closed *)
      cbn [pdu length Nat.ltb Nat.leb].
      match goal with
      | |- context [Tunnel.sendSlaveResponse ?s] =>
          pose proof (sendSlaveResponse_state s) as (Hsame & Hnext & Hseq);
          destruct (Tunnel.sendSlaveResponse s) as [s' evs'] eqn:Hsend
      end.
      cbn [fst final events Tunnel.transaction Tunnel.nextTransaction
           Tunnel.sequence] in *.
      rewrite Hseq, land_255_mod, Hnext.
      split; [reflexivity|]. split; [intros t0 _ Hrest; congruence|].
      intros _. split; [|split; [|reflexivity]].
      * intros t0 b0 [Hin|Hin]; [discriminate|].
        unfold Tunnel.sendSlaveResponse in Hsend.
        destruct (Tunnel.getAdu _ _) in Hsend. injection Hsend as <- <-.
        destruct Hin as [Hin|[]]. discriminate.
      * simpl in Hsame. now rewrite Ht in Hsame.
    + (* the transaction is closed with what follows the header *)
      cbn [pdu length Nat.ltb Nat.leb].
      match goal with
      | |- context [Tunnel.sendSlaveResponse ?s] =>
          pose proof (sendSlaveResponse_state s) as (Hsame & Hnext & Hseq);
          destruct (Tunnel.sendSlaveResponse s) as [s' evs'] eqn:Hsend
      end.
      cbn [fst final events Tunnel.transaction Tunnel.nextTransaction
           Tunnel.sequence Tunnel.set_transaction Tunnel.set_nextTransaction]
        in *.
      rewrite Hseq, land_255_mod, Hnext.
      split; [reflexivity|]. split.
      * intros t0 [= <-] _. split; [|split; [exact Hsame|reflexivity]].
        right. left. reflexivity.
      * intros [Hnone|Hnil]; discriminate.
  - (* no transaction pending *)
    match goal with
    | |- context [Tunnel.sendSlaveResponse ?s] =>
        pose proof (sendSlaveResponse_state s) as (Hsame & Hnext & Hseq);
        destruct (Tunnel.sendSlaveResponse s) as [s' evs'] eqn:Hsend
    end.
    cbn [fst final events Tunnel.transaction Tunnel.nextTransaction
         Tunnel.sequence] in *.
    rewrite Hseq, land_255_mod, Hnext.
    split; [reflexivity|]. split; [intros t0 Hsome; discriminate|].
    intros _. split; [|split; [|reflexivity]].
    + intros t0 b0 [Hin|Hin]; [discriminate|].
      unfold Tunnel.sendSlaveResponse in Hsend.
      destruct (Tunnel.getAdu _ _) in Hsend. injection Hsend as <- <-.
      destruct Hin as [Hin|[]]. discriminate.
    + simpl in Hsame. now rewrite Ht in Hsame.
Qed.

Lemma tunnel_in_sequence_poll_witness :
  let t1 := {| tid := 1; unit_ := 1; request := [0x11]; adu := None |} in
  let t2 := {| tid := 2; unit_ := 1; request := [0x11]; adu := None |} in
  let rest := [0x01; 0x11; 0x05; 0x09] in
  let st := {| Tunnel.slaveId := 127; Tunnel.transaction := Some t1;
               Tunnel.nextTransaction := Some t2; Tunnel.sequence := 255;
               Tunnel.reader :=
                 Crc.frame 127 (Tunnel.SLAVE_COMMAND :: 255 :: rest) |} in
  let o := Tunnel.handleFrameData st in
  Tunnel.sequence (final o) = 0
  /\ In (CreateResponse t1 [0x11; 0x05; 0x09]) (events o)
  /\ sameTransaction (Tunnel.transaction (final o)) (Some t2)
  /\ Tunnel.nextTransaction (final o) = None.
Proof.
  intros t1 t2 rest st o.
  destruct (tunnel_in_sequence_poll st rest eq_refl) as (Hseq & Hclose & _).
  split; [exact Hseq|].
  apply (Hclose t1 eq_refl). discriminate.
Defined.



End TunnelPollFacts.

(** ** The IP receive loop comes to an end *)

Section IpTermination.
Import Core.

Lemma after_runs_out {S} evs (o : Outcome S) :
  runs_out (after evs o) -> runs_out o.
Proof.
  destruct o as [st evs'|x st evs']; intros (st0 & evs0 & H); simpl in H.
  - discriminate.
  - injection H as -> _ _. now exists st, evs'.
Qed.

Lemma Header_read_length (r r' : Buf.reader) h :
  Ip.Header_read r = Some (h, r') -> length r = (7 + length r')%nat.
Proof.
  destruct r as [|b0 [|b1 [|b2 [|b3 [|b4 [|b5 [|b6 r]]]]]]]; try discriminate.
  intros [= _ <-]. reflexivity.
Qed.

Lemma skipResponseData_shrinks (st st' : Ip.State) :
  Ip.skipResponseData st = Some st' ->
  Ip.id (Ip.header st') = -1
  /\ (length (Ip.reader st') <= length (Ip.reader st))%nat.
Proof.
  unfold Ip.skipResponseData.
  destruct (0 <? Ip.length (Ip.header st)).
  - unfold Buf.skip. destruct (Buf.in_range _ _); [|discriminate].
    simpl. intros [= <-]. simpl. split; [reflexivity|].
    rewrite length_drop. lia.
  - simpl. intros [= <-]. simpl. split; [reflexivity | lia].
Qed.

Lemma shiftBuffer_shrinks n (r r' : Buf.reader) b :
  Buf.shiftBuffer n r = Some (b, r') -> (length r' <= length r)%nat.
Proof.
  unfold Buf.shiftBuffer. destruct (Buf.in_range n r); [|discriminate].
  intros [= _ <-]. rewrite length_drop. lia.
Qed.

Lemma onData_fuel (fuel : nat) : forall st : Ip.State,
  (length (Ip.reader st)
   + (if (Ip.id (Ip.header st) =? -1)%Z then 0 else 7) + 7 <= 7 * fuel)%nat ->
  ~ runs_out (Ip.onData_ fuel st).
Proof.
  induction fuel as [|fuel IH]; intros st Hfuel; [lia|].
  cbn [Ip.onData_].
  assert (Hstep : forall st1 : Ip.State,
    ((Ip.id (Ip.header st1) =? -1) = false ->
     (length (Ip.reader st1) + 14 <= 7 * S fuel)%nat) ->
    ~ runs_out
        (if negb (Ip.id (Ip.header st1) =? -1)
            && (Ip.length (Ip.header st1) <=? Z.of_nat (length (Ip.reader st1)))
         then
           match Ip.transactions st1 !! Ip.id (Ip.header st1) with
           | None =>
               match Ip.skipResponseData st1 with
               | None => Raises ReaderOutOfRange st1 []
               | Some st => Ip.onData_ fuel st
               end
           | Some t =>
               let st :=
                 Ip.set_transactions st1
                   (delete (Ip.id (Ip.header st1)) (Ip.transactions st1)) in
               match Ip.Header_validate (Ip.header st) t with
               | Some validationError =>
                   match Ip.skipResponseData st with
                   | None => Raises ReaderOutOfRange st []
                   | Some st =>
                       after [HandleError t validationError]
                             (Ip.onData_ fuel st)
                   end
               | None =>
                   match Buf.shiftBuffer (Ip.length (Ip.header st))
                                         (Ip.reader st) with
                   | None => Raises ReaderOutOfRange st []
                   | Some (responseBuffer, r) =>
                       let st := Ip.set_header (Ip.set_reader st r)
                                               Ip.Header_reset in
                       after [CreateResponse t responseBuffer]
                             (Ip.onData_ fuel st)
                   end
               end
           end
         else Returns st1 [])).
  { intros st1 Hlen.
    destruct (Ip.id (Ip.header st1) =? -1) eqn:Hid; cbn [negb andb].
    { intros (? & ? & ?). discriminate. }
    specialize (Hlen eq_refl).
    destruct (_ <=? _); cbn [andb]; [|intros (? & ? & ?); discriminate].
    destruct (Ip.transactions st1 !! _) as [t|].
    - cbn zeta. destruct (Ip.Header_validate _ t).
      + destruct (Ip.skipResponseData _) as [st2|] eqn:Hskip;
          [|intros (? & ? & ?); discriminate].
        apply skipResponseData_shrinks in Hskip as [Hid2 Hlen2].
        intros Hout%after_runs_out. revert Hout. apply IH.
        rewrite Hid2. simpl in *. lia.
      + destruct (Buf.shiftBuffer _ _) as [[b r]|] eqn:Hshift;
          [|intros (? & ? & ?); discriminate].
        apply shiftBuffer_shrinks in Hshift.
        intros Hout%after_runs_out. revert Hout. apply IH.
        simpl in *. lia.
    - destruct (Ip.skipResponseData _) as [st2|] eqn:Hskip;
        [|intros (? & ? & ?); discriminate].
      apply skipResponseData_shrinks in Hskip as [Hid2 Hlen2].
      apply IH. rewrite Hid2. simpl in *. lia. }
  destruct (Ip.id (Ip.header st) =? -1) eqn:Hid; cbn [andb].
  - destruct (7 <=? Z.of_nat (length (Ip.reader st))) eqn:Hseven.
    + destruct (Ip.Header_read (Ip.reader st)) as [[h r]|] eqn:Hread;
        [|intros (? & ? & ?); discriminate].
      apply Header_read_length in Hread.
      apply Hstep. simpl. intros _. lia.
    + apply Hstep. rewrite Hid. discriminate.
  - apply Hstep. intros _. lia.
Qed.

(** X23: with [enoughFuel] the loop never stops for want of fuel. *)
Lemma onData_enoughFuel (st : Ip.State) (fuel : nat) :
  (Ip.enoughFuel st <= fuel)%nat -> ~ runs_out (Ip.onData_ fuel st).
Proof.
  unfold Ip.enoughFuel. intros Hfuel. apply onData_fuel.
  destruct (Ip.id (Ip.header st) =? -1); lia.
Qed.

End IpTermination.

(** ** The id drawn is the id sent *)

Section IpWireFacts.
Import Core.

(** The id [sendRequest] draws heads the ADU it writes, keys the
    transaction in the map and is what the timeout handler will delete. *)
Lemma sendRequest_id_on_wire (st : Ip.State) (t : Transaction) :
  exists t' a,
    events (snd (Ip.sendRequest_id st t))
    = [EmitRequest t'; Write a;
       Start t' (DeleteTransaction (fst (Ip.sendRequest_id st t)))]
    /\ take 2 a = Buf.uint16BE (fst (Ip.sendRequest_id st t))
    /\ Ip.transactions (final (snd (Ip.sendRequest_id st t)))
         !! fst (Ip.sendRequest_id st t) = Some t'.
Proof.
  unfold Ip.sendRequest_id, Ip.getNextTransactionId, Ip.getAdu, Ip.buildAdu.
  destruct (Core.getAdu t) as [a|]; cbn [fst snd events final];
    eexists _, _; (split; [reflexivity|]); split;
    try reflexivity; apply lookup_insert_eq.
Qed.

End IpWireFacts.

(** * Further properties

    ** Decoding and re-encoding the function-code messages *)

Section CodecRoundTrips.
Import Codec.


Lemma copy_from fill (pre rest : Buf.buffer) (n k e : nat) :
  k = length pre -> n = length rest -> (k + n <= e)%nat ->
  Buf.copy (pre ++ rest) (Buf.alloc fill n) k e = rest.
Proof.
  intros -> -> He. unfold Buf.copy.
  rewrite alloc_length, drop_app_length.
  rewrite (take_ge rest) by lia. rewrite take_ge by lia.
  rewrite drop_ge by (rewrite alloc_length; lia). apply app_nil_r.
Qed.

(** What a decoder copies into a fresh buffer of the declared size [n]:
    the bytes the source has from [k] on, [n] at most, and behind them what
    the fresh buffer held. *)
Lemma copy_declared fill (pre p : Buf.buffer) (n k e : nat) :
  k = length pre -> e = (k + n)%nat ->
  Buf.copy (pre ++ p) (Buf.alloc fill n) k e
  = take n p ++ drop (length (take n p)) (Buf.alloc fill n).
Proof.
  intros -> ->. unfold Buf.copy. rewrite alloc_length, drop_app_length.
  replace (length pre + n - length pre)%nat with n by lia.
  now rewrite take_take, Nat.min_id.
Qed.

Lemma prepareAddress_word hi lo :
  Buf.is_byte hi -> Buf.is_byte lo ->
  prepareAddress (Z.lor (Z.shiftl hi 8) lo) = Ok (Z.lor (Z.shiftl hi 8) lo).
Proof.
  intros Hhi Hlo. pose proof (word_of_bytes_range hi lo Hhi Hlo).
  unfold prepareAddress, prepareNumericOption.
  destruct (Z.leb_spec 0 (Z.lor (Z.shiftl hi 8) lo)); [|lia].
  destruct (Z.leb_spec (Z.lor (Z.shiftl hi 8) lo) 65535); [|lia].
  reflexivity.
Qed.

Lemma prepareNumericOption_Ok value min max v :
  prepareNumericOption value min max = Ok v ->
  v = value /\ min <= value <= max.
Proof.
  unfold prepareNumericOption.
  destruct (Z.leb_spec min value), (Z.leb_spec value max);
    simpl; intros [= <-]; lia.
Qed.

Lemma prepareNumericOption_in value min max :
  min <= value <= max -> prepareNumericOption value min max = Ok value.
Proof.
  intros H. unfold prepareNumericOption.
  destruct (Z.leb_spec min value), (Z.leb_spec value max); simpl; try lia.
  reflexivity.
Qed.

Lemma prepareNumericOption_out value min max :
  ~ min <= value <= max ->
  prepareNumericOption value min max = Throw InvalidOptions.
Proof.
  intros H. unfold prepareNumericOption.
  destruct (Z.leb_spec min value), (Z.leb_spec value max); simpl; try lia;
    reflexivity.
Qed.

Lemma assertFunctionCode_Ok (c : option Z) code :
  assertFunctionCode c code = Ok tt <-> c = Some code.
Proof.
  unfold assertFunctionCode. destruct c as [c|]; [|split; discriminate].
  destruct (Z.eqb_spec c code) as [->|Hne]; split; try discriminate;
    try reflexivity. intros [= ?]. contradiction.
Qed.

(** X1: [ReadMemoryRequest.fromBuffer] accepts a buffer of bytes exactly when
    it has 4 bytes or more, starts with 0x45 and its count byte is between 1
    and 250; what it accepts is re-encoded as its first 4 bytes (anything
    behind them is ignored). *)
Theorem ReadMemoryRequest_decoding (B : Buf.buffer) :
  Buf.wf B ->
  ((exists r, ReadMemoryRequest.fromBuffer B = Ok r)
   <-> (4 <= length B)%nat /\ Buf.get B 0 = Some 0x45
       /\ 1 <= at_ B 3 <= 250)
  /\ (forall r, ReadMemoryRequest.fromBuffer B = Ok r ->
        ReadMemoryRequest.toBuffer r = take 4 B).
Proof.
  intros Hwf. unfold ReadMemoryRequest.fromBuffer, assertBufferLength.
  destruct B as [|c [|a1 [|a0 [|n rest]]]];
    try (split; [split; [intros [r Hr]; discriminate Hr
                        | intros (Hlen & _); simpl in Hlen; lia]
                | intros r Hr; discriminate Hr]).
  apply Forall_cons in Hwf as [_ Hwf].
  apply Forall_cons in Hwf as [Ha1 Hwf].
  apply Forall_cons in Hwf as [Ha0 _].
  cbn [length Nat.ltb Nat.leb mbind result_bind Buf.get lookup list_lookup at_ nth].
  unfold assertFunctionCode, ReadMemoryRequest.new, Buf.readUInt16BE.
  cbn [nth]. rewrite prepareAddress_word by assumption.
  cbn [mbind result_bind].
  destruct (Z.eqb_spec c 69) as [->|Hc]; cbn [mbind result_bind].
  - destruct (Z_le_dec 1 n) as [H1|H1]; [destruct (Z_le_dec n 250) as [H2|H2]|].
    + rewrite prepareNumericOption_in by lia. cbn [mbind result_bind].
      split.
      * split; [intros _; repeat split; simpl; lia | intros _; eauto].
      * intros r [= <-]. unfold ReadMemoryRequest.toBuffer.
        cbn [ReadMemoryRequest.address ReadMemoryRequest.count].
        rewrite uint16BE_read by assumption. reflexivity.
    + rewrite prepareNumericOption_out by lia. cbn [mbind result_bind].
      split; [split; [intros [r Hr]; discriminate Hr | intros (_ & _ & ?); lia]
             | intros r Hr; discriminate Hr].
    + rewrite prepareNumericOption_out by lia. cbn [mbind result_bind].
      split; [split; [intros [r Hr]; discriminate Hr | intros (_ & _ & ?); lia]
             | intros r Hr; discriminate Hr].
  - split; [split; [intros [r Hr]; discriminate Hr
                   | intros (_ & [= ?] & _); contradiction]
           | intros r Hr; discriminate Hr].
Qed.


Lemma alloc_tail_nil fill (p : Buf.buffer) :
  take (length p) p ++ drop (length (take (length p) p))
                           (Buf.alloc fill (length p)) = p.
Proof.
  rewrite firstn_all, drop_ge by (rewrite alloc_length; lia).
  apply app_nil_r.
Qed.

(** X4: [WriteObjectRequest.fromBuffer] trusts the declared byte count [n]
    (byte 2): the values it returns are always [n] long, between 1 and 250,
    made of the payload bytes the buffer has ([n] at most) and, if those are
    fewer, of what the fresh buffer held; bytes beyond [n] are dropped.  A
    buffer of bytes whose payload is as long as declared is re-encoded
    unchanged. *)
Theorem WriteObjectRequest_decoding fill (B : Buf.buffer) r :
  WriteObjectRequest.fromBuffer fill B = Ok r ->
  let n := Z.to_nat (at_ B 2) in
  let p := drop 3 B in
  WriteObjectRequest.id r = at_ B 1
  /\ WriteObjectRequest.values r
     = take n p ++ drop (length (take n p)) (Buf.alloc fill n)
  /\ length (WriteObjectRequest.values r) = n
  /\ (1 <= n <= 250)%nat
  /\ (Buf.wf B -> length B = (3 + n)%nat ->
      WriteObjectRequest.toBuffer r = B).
Proof.
  unfold WriteObjectRequest.fromBuffer, assertBufferLength.
  destruct B as [|c [|i [|k [|v rest]]]]; try discriminate.
  cbn [length Nat.ltb Nat.leb mbind result_bind Buf.get lookup list_lookup
       at_ nth drop].
  unfold assertFunctionCode.
  destruct (Z.eqb_spec c 68) as [->|Hc]; [|discriminate].
  cbn [mbind result_bind].
  rewrite (copy_declared fill [68; i; k] (v :: rest)) by reflexivity.
  set (n := Z.to_nat k). set (p := v :: rest).
  set (vals := take n p ++ drop (length (take n p)) (Buf.alloc fill n)).
  assert (Hlen : length vals = n).
  { unfold vals. rewrite length_app, length_drop, alloc_length, length_take.
    lia. }
  unfold WriteObjectRequest.new. rewrite Hlen.
  destruct (Nat.ltb_spec n 1); [discriminate|].
  destruct (Nat.ltb_spec 250 n); [discriminate|].
  cbn [orb].
  destruct (prepareNumericOption i 0 255) as [i'|e] eqn:Hi; [|discriminate].
  apply prepareNumericOption_Ok in Hi as [-> _].
  cbn [mbind result_bind]. intros [= <-].
  cbn [WriteObjectRequest.id WriteObjectRequest.values].
  repeat split; try lia; try assumption.
  intros Hwf HB. unfold WriteObjectRequest.toBuffer.
  cbn [WriteObjectRequest.id WriteObjectRequest.values].
  apply Forall_cons in Hwf as [_ Hwf].
  apply Forall_cons in Hwf as [_ Hwf].
  apply Forall_cons in Hwf as [Hk _]. unfold Buf.is_byte in Hk.
  assert (Hp : length p = n) by (simpl in HB; unfold p; simpl; lia).
  rewrite Hlen. unfold vals. rewrite <- Hp, alloc_tail_nil, Hp.
  unfold n. rewrite Z2Nat.id by lia. reflexivity.
Qed.

(** X5: [WriteFifo8Request.fromBuffer] trusts the declared byte count [n]
    (byte 2): the values it returns are always [n] long, between 1 and 250,
    made of the payload bytes the buffer has ([n] at most) and, if those are
    fewer, of what the fresh buffer held; bytes beyond [n] are dropped.  A
    buffer of bytes whose payload is as long as declared is re-encoded
    unchanged. *)
Theorem WriteFifo8Request_decoding fill (B : Buf.buffer) r :
  WriteFifo8Request.fromBuffer fill B = Ok r ->
  let n := Z.to_nat (at_ B 2) in
  let p := drop 3 B in
  WriteFifo8Request.id r = at_ B 1
  /\ WriteFifo8Request.values r
     = take n p ++ drop (length (take n p)) (Buf.alloc fill n)
  /\ length (WriteFifo8Request.values r) = n
  /\ (1 <= n <= 250)%nat
  /\ (Buf.wf B -> length B = (3 + n)%nat ->
      WriteFifo8Request.toBuffer r = B).
Proof.
  unfold WriteFifo8Request.fromBuffer, assertBufferLength.
  destruct B as [|c [|i [|k [|v rest]]]]; try discriminate.
  cbn [length Nat.ltb Nat.leb mbind result_bind Buf.get lookup list_lookup
       at_ nth drop].
  unfold assertFunctionCode.
  destruct (Z.eqb_spec c 66) as [->|Hc]; [|discriminate].
  cbn [mbind result_bind].
  rewrite (copy_declared fill [66; i; k] (v :: rest)) by reflexivity.
  set (n := Z.to_nat k). set (p := v :: rest).
  set (vals := take n p ++ drop (length (take n p)) (Buf.alloc fill n)).
  assert (Hlen : length vals = n).
  { unfold vals. rewrite length_app, length_drop, alloc_length, length_take.
    lia. }
  unfold WriteFifo8Request.new. rewrite Hlen.
  destruct (Nat.ltb_spec n 1); [discriminate|].
  destruct (Nat.ltb_spec 250 n); [discriminate|].
  cbn [orb].
  destruct (prepareNumericOption i 0 255) as [i'|e] eqn:Hi; [|discriminate].
  apply prepareNumericOption_Ok in Hi as [-> _].
  cbn [mbind result_bind]. intros [= <-].
  cbn [WriteFifo8Request.id WriteFifo8Request.values].
  repeat split; try lia; try assumption.
  intros Hwf HB. unfold WriteFifo8Request.toBuffer.
  cbn [WriteFifo8Request.id WriteFifo8Request.values].
  apply Forall_cons in Hwf as [_ Hwf].
  apply Forall_cons in Hwf as [_ Hwf].
  apply Forall_cons in Hwf as [Hk _]. unfold Buf.is_byte in Hk.
  assert (Hp : length p = n) by (simpl in HB; unfold p; simpl; lia).
  rewrite Hlen. unfold vals. rewrite <- Hp, alloc_tail_nil, Hp.
  unfold n. rewrite Z2Nat.id by lia. reflexivity.
Qed.

(** X2: a buffer of bytes that [WriteMemoryRequest.fromBuffer] accepts is
    re-encoded unchanged. *)
Theorem WriteMemoryRequest_roundtrip fill (B : Buf.buffer) r :
  Buf.wf B ->
  WriteMemoryRequest.fromBuffer fill B = Ok r ->
  WriteMemoryRequest.toBuffer r = B.
Proof.
  intros Hwf.
  unfold WriteMemoryRequest.fromBuffer, assertBufferLength.
  destruct B as [|c [|a1 [|a0 [|v rest]]]]; try discriminate.
  apply Forall_cons in Hwf as [_ Hwf].
  apply Forall_cons in Hwf as [Ha1 Hwf].
  apply Forall_cons in Hwf as [Ha0 _].
  unfold assertFunctionCode. cbn [length Nat.ltb Nat.leb mbind result_bind Buf.get lookup list_lookup].
  destruct (c =? 70) eqn:Hc; [|discriminate].
  apply Z.eqb_eq in Hc. subst c.
  cbn [mbind result_bind Nat.sub].
  rewrite (copy_from fill [70; a1; a0] (v :: rest)) by (simpl; lia).
  unfold WriteMemoryRequest.new, Buf.readUInt16BE.
  cbn [nth].
  destruct ((length (v :: rest) <? 1)%nat || (250 <? length (v :: rest))%nat);
    [discriminate|].
  rewrite prepareAddress_word by assumption.
  cbn [mbind result_bind]. intros [= <-].
  unfold WriteMemoryRequest.toBuffer.
  cbn [WriteMemoryRequest.address WriteMemoryRequest.values].
  now rewrite uint16BE_read by assumption.
Qed.
Lemma CommandResponse_roundtrip_witness :
  CommandResponse.toBuffer
    {| CommandResponse.id := 1; CommandResponse.values := [0xAA; 0xBB] |}
  = [0x47; 0x01; 0xAA; 0xBB].
Proof.
  apply (CommandResponse_roundtrip (fun _ => 0) [0x47; 0x01; 0xAA; 0xBB]).
  reflexivity.
Defined.

(** X3: a buffer that [ReadMemoryResponse.fromBuffer] accepts is re-encoded
    unchanged. *)
Theorem ReadMemoryResponse_roundtrip fill (B : Buf.buffer) r :
  ReadMemoryResponse.fromBuffer fill B = Ok r ->
  ReadMemoryResponse.toBuffer r = B.
Proof.
  unfold ReadMemoryResponse.fromBuffer, assertBufferLength.
  destruct B as [|c [|b rest]]; simpl; try discriminate.
  unfold assertFunctionCode. destruct (c =? 69) eqn:Hc; [|discriminate].
  apply Z.eqb_eq in Hc. subst c. simpl.
  pose proof (copy_exact fill [69] (b :: rest)) as Hcopy.
  simpl in Hcopy. replace (length rest - 0)%nat with (length rest) by lia.
  rewrite Hcopy. unfold ReadMemoryResponse.new.
  destruct (250 <? length (b :: rest))%nat; [discriminate|].
  intros [= <-]. reflexivity.
Qed.

(** X6: [ReadObjectResponse.fromBuffer] trusts the declared byte count (byte
    1) in the same way; a buffer of bytes whose payload is as long as
    declared is re-encoded unchanged. *)
Theorem ReadObjectResponse_decoding fill (B : Buf.buffer) r :
  ReadObjectResponse.fromBuffer fill B = Ok r ->
  let n := Z.to_nat (at_ B 1) in
  let p := drop 2 B in
  ReadObjectResponse.values r
  = take n p ++ drop (length (take n p)) (Buf.alloc fill n)
  /\ length (ReadObjectResponse.values r) = n
  /\ (n <= 250)%nat
  /\ (Buf.wf B -> length B = (2 + n)%nat ->
      ReadObjectResponse.toBuffer r = B).
Proof.
  unfold ReadObjectResponse.fromBuffer, assertBufferLength.
  destruct B as [|c [|k p]]; try discriminate.
  cbn [length Nat.ltb Nat.leb mbind result_bind Buf.get lookup list_lookup
       at_ nth drop].
  unfold assertFunctionCode.
  destruct (Z.eqb_spec c 67) as [->|Hc]; [|discriminate].
  cbn [mbind result_bind].
  rewrite (copy_declared fill [67; k] p) by (simpl; lia).
  set (n := Z.to_nat k).
  set (vals := take n p ++ drop (length (take n p)) (Buf.alloc fill n)).
  assert (Hlen : length vals = n).
  { unfold vals. rewrite length_app, length_drop, alloc_length, length_take.
    lia. }
  unfold ReadObjectResponse.new. rewrite Hlen.
  destruct (Nat.ltb_spec 250 n); [discriminate|].
  intros [= <-]. cbn [ReadObjectResponse.values].
  repeat split; try lia; try assumption.
  intros Hwf HB. unfold ReadObjectResponse.toBuffer.
  cbn [ReadObjectResponse.values].
  apply Forall_cons in Hwf as [_ Hwf].
  apply Forall_cons in Hwf as [Hk _]. unfold Buf.is_byte in Hk.
  assert (Hp : length p = n) by (simpl in HB; lia).
  rewrite Hlen. unfold vals. rewrite <- Hp, alloc_tail_nil, Hp.
  unfold n. rewrite Z2Nat.id by lia. reflexivity.
Qed.

Lemma status_bits (b : Z) :
  Buf.is_byte b ->
  (let s := 0 in
   let s := if 0 <? Z.land b 1 then Z.lor s 1 else s in
   if 0 <? Z.land b 2 then Z.lor s 2 else s) = Z.land b 3.
Proof.
  intros Hb. unfold Buf.is_byte in Hb.
  assert (Hall :
    forallb (fun k => let b := Z.of_nat k in
               (let s := 0 in
                let s := if 0 <? Z.land b 1 then Z.lor s 1 else s in
                if 0 <? Z.land b 2 then Z.lor s 2 else s) =? Z.land b 3)
            (seq 0 256) = true) by (vm_compute; reflexivity).
  rewrite forallb_forall in Hall.
  specialize (Hall (Z.to_nat b)).
  rewrite Z2Nat.id in Hall by lia. apply Z.eqb_eq, Hall.
  apply in_seq. lia.
Qed.

(** X7: of the status byte [ReadFifo8Response] keeps two bits: a buffer of
    bytes whose payload is as long as declared is re-encoded with its status
    byte masked by 3 and otherwise unchanged, hence unchanged exactly when
    the status byte is below 4. *)
Theorem ReadFifo8Response_reencode fill (B : Buf.buffer) r :
  Buf.wf B ->
  length B = (3 + Z.to_nat (at_ B 2))%nat ->
  ReadFifo8Response.fromBuffer fill B = Ok r ->
  ReadFifo8Response.toBuffer r = 0x41 :: Z.land (at_ B 1) 3 :: drop 2 B
  /\ (ReadFifo8Response.toBuffer r = B <-> at_ B 1 < 4).
Proof.
  intros Hwf HB.
  unfold ReadFifo8Response.fromBuffer, assertBufferLength.
  destruct B as [|c [|st [|k p]]]; try discriminate.
  apply Forall_cons in Hwf as [_ Hwf].
  apply Forall_cons in Hwf as [Hst Hwf].
  apply Forall_cons in Hwf as [Hk _].
  cbn [length Nat.ltb Nat.leb mbind result_bind Buf.get lookup list_lookup
       at_ nth drop] in *.
  unfold assertFunctionCode.
  destruct (Z.eqb_spec c 65) as [->|Hc]; [|discriminate].
  cbn [mbind result_bind].
  assert (Hp : length p = Z.to_nat k) by lia.
  rewrite (copy_from fill [65; st; k] p) by (simpl; lia).
  unfold ReadFifo8Response.new.
  destruct (Nat.ltb_spec 250 (length p)); [discriminate|].
  intros [= <-]. unfold ReadFifo8Response.toBuffer.
  cbn [ReadFifo8Response.status ReadFifo8Response.values
       ReadFifo8Response.more ReadFifo8Response.overflow].
  pose proof (status_bits st Hst) as Hs. cbn zeta in Hs. cbn zeta.
  rewrite Hs, Hp.
  unfold Buf.is_byte in Hk, Hst. rewrite Z2Nat.id by lia.
  split; [reflexivity|].
  change 3 with (Z.ones 2). rewrite Z.land_ones by lia.
  split.
  - intros [= Hmod]. rewrite <- Hmod. apply Z.mod_pos_bound. lia.
  - intros Hlt. rewrite Z.mod_small by lia. reflexivity.
Qed.

Lemma WriteFifo8Response_decoding (B : Buf.buffer) :
  Buf.wf B ->
  ((exists r, WriteFifo8Response.fromBuffer B = Ok r)
   <-> (2 <= length B)%nat /\ Buf.get B 0 = Some 0x42 /\ at_ B 1 <= 250)
  /\ (forall r, WriteFifo8Response.fromBuffer B = Ok r ->
        WriteFifo8Response.toBuffer r = take 2 B).
Proof.
  intros Hwf. unfold WriteFifo8Response.fromBuffer, assertBufferLength.
  destruct B as [|c [|v rest]];
    try (split; [split; [intros [r Hr]; discriminate Hr
                        | intros (Hlen & _); simpl in Hlen; lia]
                | intros r Hr; discriminate Hr]).
  apply Forall_cons in Hwf as [_ Hwf].
  apply Forall_cons in Hwf as [Hv _]. unfold Buf.is_byte in Hv.
  cbn [length Nat.ltb Nat.leb mbind result_bind Buf.get lookup list_lookup
       at_ nth take].
  unfold assertFunctionCode, WriteFifo8Response.new.
  destruct (Z.eqb_spec c 0x42) as [->|Hc]; cbn [mbind result_bind].
  - destruct (Z_le_dec v 250) as [Hle|Hgt].
    + rewrite (prepareNumericOption_in v 0 250) by lia.
      cbn [mbind result_bind]. split.
      * split; [intros _; repeat split; simpl; lia | intros _; eauto].
      * intros r [= <-]. reflexivity.
    + rewrite (prepareNumericOption_out v 0 250) by lia.
      cbn [mbind result_bind].
      split; [split; [intros [r Hr]; discriminate Hr
                     | intros (_ & _ & ?); lia]
             | intros r Hr; discriminate Hr].
  - split; [split; [intros [r Hr]; discriminate Hr
                   | intros (_ & [= ?] & _); contradiction]
           | intros r Hr; discriminate Hr].
Qed.

Lemma WriteObjectResponse_decoding (B : Buf.buffer) :
  Buf.wf B ->
  ((exists r, WriteObjectResponse.fromBuffer B = Ok r)
   <-> (2 <= length B)%nat /\ Buf.get B 0 = Some 0x44 /\ at_ B 1 <= 250)
  /\ (forall r, WriteObjectResponse.fromBuffer B = Ok r ->
        WriteObjectResponse.toBuffer r = take 2 B).
Proof.
  intros Hwf. unfold WriteObjectResponse.fromBuffer, assertBufferLength.
  destruct B as [|c [|v rest]];
    try (split; [split; [intros [r Hr]; discriminate Hr
                        | intros (Hlen & _); simpl in Hlen; lia]
                | intros r Hr; discriminate Hr]).
  apply Forall_cons in Hwf as [_ Hwf].
  apply Forall_cons in Hwf as [Hv _]. unfold Buf.is_byte in Hv.
  cbn [length Nat.ltb Nat.leb mbind result_bind Buf.get lookup list_lookup
       at_ nth take].
  unfold assertFunctionCode, WriteObjectResponse.new.
  destruct (Z.eqb_spec c 0x44) as [->|Hc]; cbn [mbind result_bind].
  - destruct (Z_le_dec v 250) as [Hle|Hgt].
    + rewrite (prepareNumericOption_in v 0 250) by lia.
      cbn [mbind result_bind]. split.
      * split; [intros _; repeat split; simpl; lia | intros _; eauto].
      * intros r [= <-]. reflexivity.
    + rewrite (prepareNumericOption_out v 0 250) by lia.
      cbn [mbind result_bind].
      split; [split; [intros [r Hr]; discriminate Hr
                     | intros (_ & _ & ?); lia]
             | intros r Hr; discriminate Hr].
  - split; [split; [intros [r Hr]; discriminate Hr
                   | intros (_ & [= ?] & _); contradiction]
           | intros r Hr; discriminate Hr].
Qed.

Lemma WriteMemoryResponse_decoding (B : Buf.buffer) :
  Buf.wf B ->
  ((exists r, WriteMemoryResponse.fromBuffer B = Ok r)
   <-> (2 <= length B)%nat /\ Buf.get B 0 = Some 0x46 /\ at_ B 1 <= 250)
  /\ (forall r, WriteMemoryResponse.fromBuffer B = Ok r ->
        WriteMemoryResponse.toBuffer r = take 2 B).
Proof.
  intros Hwf. unfold WriteMemoryResponse.fromBuffer, assertBufferLength.
  destruct B as [|c [|v rest]];
    try (split; [split; [intros [r Hr]; discriminate Hr
                        | intros (Hlen & _); simpl in Hlen; lia]
                | intros r Hr; discriminate Hr]).
  apply Forall_cons in Hwf as [_ Hwf].
  apply Forall_cons in Hwf as [Hv _]. unfold Buf.is_byte in Hv.
  cbn [length Nat.ltb Nat.leb mbind result_bind Buf.get lookup list_lookup
       at_ nth take].
  unfold assertFunctionCode, WriteMemoryResponse.new.
  destruct (Z.eqb_spec c 0x46) as [->|Hc]; cbn [mbind result_bind].
  - destruct (Z_le_dec v 250) as [Hle|Hgt].
    + rewrite (prepareNumericOption_in v 0 250) by lia.
      cbn [mbind result_bind]. split.
      * split; [intros _; repeat split; simpl; lia | intros _; eauto].
      * intros r [= <-]. reflexivity.
    + rewrite (prepareNumericOption_out v 0 250) by lia.
      cbn [mbind result_bind].
      split; [split; [intros [r Hr]; discriminate Hr
                     | intros (_ & _ & ?); lia]
             | intros r Hr; discriminate Hr].
  - split; [split; [intros [r Hr]; discriminate Hr
                   | intros (_ & [= ?] & _); contradiction]
           | intros r Hr; discriminate Hr].
Qed.

(** X8: the three one-byte status responses (0x42, 0x44, 0x46) accept a
    buffer of bytes exactly when it has 2 bytes or more, starts with their
    function code and carries a value of 250 at most; what they accept is
    re-encoded as its first 2 bytes. *)
Theorem status_responses_decoding (B : Buf.buffer) :
  Buf.wf B ->
  (((exists r, WriteFifo8Response.fromBuffer B = Ok r)
    <-> (2 <= length B)%nat /\ Buf.get B 0 = Some 0x42 /\ at_ B 1 <= 250)
   /\ (forall r, WriteFifo8Response.fromBuffer B = Ok r ->
         WriteFifo8Response.toBuffer r = take 2 B))
  /\ (((exists r, WriteObjectResponse.fromBuffer B = Ok r)
       <-> (2 <= length B)%nat /\ Buf.get B 0 = Some 0x44 /\ at_ B 1 <= 250)
      /\ (forall r, WriteObjectResponse.fromBuffer B = Ok r ->
            WriteObjectResponse.toBuffer r = take 2 B))
  /\ (((exists r, WriteMemoryResponse.fromBuffer B = Ok r)
       <-> (2 <= length B)%nat /\ Buf.get B 0 = Some 0x46 /\ at_ B 1 <= 250)
      /\ (forall r, WriteMemoryResponse.fromBuffer B = Ok r ->
            WriteMemoryResponse.toBuffer r = take 2 B)).
Proof.
  intros Hwf. split; [|split].
  - now apply WriteFifo8Response_decoding.
  - now apply WriteObjectResponse_decoding.
  - now apply WriteMemoryResponse_decoding.
Qed.

Lemma ReadFifo8Request_decoding (B : Buf.buffer) :
  Buf.wf B ->
  ((exists r, ReadFifo8Request.fromBuffer B = Ok r)
   <-> (3 <= length B)%nat /\ Buf.get B 0 = Some 0x41 /\ at_ B 2 <= 250)
  /\ (forall r, ReadFifo8Request.fromBuffer B = Ok r ->
        ReadFifo8Request.toBuffer r = take 3 B).
Proof.
  intros Hwf. unfold ReadFifo8Request.fromBuffer, assertBufferLength.
  destruct B as [|c [|i [|m rest]]];
    try (split; [split; [intros [r Hr]; discriminate Hr
                        | intros (Hlen & _); simpl in Hlen; lia]
                | intros r Hr; discriminate Hr]).
  apply Forall_cons in Hwf as [_ Hwf].
  apply Forall_cons in Hwf as [Hi Hwf].
  apply Forall_cons in Hwf as [Hm _]. unfold Buf.is_byte in Hi, Hm.
  cbn [length Nat.ltb Nat.leb mbind result_bind Buf.get lookup list_lookup
       at_ nth take].
  unfold assertFunctionCode, ReadFifo8Request.new, ReadFifo8Request.maxLimit,
    ReadFifo8Request.theFunctionCode.
  change (default 250 (Some m)) with m.
  rewrite (prepareNumericOption_in i 0 255) by lia.
  cbn [mbind result_bind].
  destruct (Z.eqb_spec c 65) as [->|Hc]; cbn [mbind result_bind].
  - destruct (Z_le_dec m 250) as [Hle|Hgt].
    + rewrite (prepareNumericOption_in m 0 250) by lia.
      cbn [mbind result_bind]. split.
      * split; [intros _; repeat split; simpl; lia | intros _; eauto].
      * intros r [= <-]. reflexivity.
    + rewrite (prepareNumericOption_out m 0 250) by lia.
      cbn [mbind result_bind].
      split; [split; [intros [r Hr]; discriminate Hr
                     | intros (_ & _ & ?); lia]
             | intros r Hr; discriminate Hr].
  - split; [split; [intros [r Hr]; discriminate Hr
                   | intros (_ & [= ?] & _); contradiction]
           | intros r Hr; discriminate Hr].
Qed.

Lemma ReadObjectRequest_decoding (B : Buf.buffer) :
  Buf.wf B ->
  ((exists r, ReadObjectRequest.fromBuffer B = Ok r)
   <-> (2 <= length B)%nat /\ Buf.get B 0 = Some 0x43)
  /\ (forall r, ReadObjectRequest.fromBuffer B = Ok r ->
        ReadObjectRequest.toBuffer r = take 2 B).
Proof.
  intros Hwf. unfold ReadObjectRequest.fromBuffer, assertBufferLength.
  destruct B as [|c [|i rest]];
    try (split; [split; [intros [r Hr]; discriminate Hr
                        | intros (Hlen & _); simpl in Hlen; lia]
                | intros r Hr; discriminate Hr]).
  apply Forall_cons in Hwf as [_ Hwf].
  apply Forall_cons in Hwf as [Hi _]. unfold Buf.is_byte in Hi.
  cbn [length Nat.ltb Nat.leb mbind result_bind Buf.get lookup list_lookup
       at_ nth take].
  unfold assertFunctionCode, ReadObjectRequest.new,
    ReadObjectRequest.theFunctionCode.
  rewrite (prepareNumericOption_in i 0 255) by lia.
  cbn [mbind result_bind].
  destruct (Z.eqb_spec c 67) as [->|Hc]; cbn [mbind result_bind].
  - split.
    + split; [intros _; repeat split; simpl; lia | intros _; eauto].
    + intros r [= <-]. reflexivity.
  - split; [split; [intros [r Hr]; discriminate Hr
                   | intros (_ & [= ?]); contradiction]
           | intros r Hr; discriminate Hr].
Qed.

(** X9: the two short read requests (0x41, 0x43) ignore what follows their
    fields: a buffer of bytes they accept is re-encoded as its first 3,
    respectively 2, bytes; 0x41 refuses a limit above 250. *)
Theorem read_requests_decoding (B : Buf.buffer) :
  Buf.wf B ->
  (((exists r, ReadFifo8Request.fromBuffer B = Ok r)
    <-> (3 <= length B)%nat /\ Buf.get B 0 = Some 0x41 /\ at_ B 2 <= 250)
   /\ (forall r, ReadFifo8Request.fromBuffer B = Ok r ->
         ReadFifo8Request.toBuffer r = take 3 B))
  /\ (((exists r, ReadObjectRequest.fromBuffer B = Ok r)
       <-> (2 <= length B)%nat /\ Buf.get B 0 = Some 0x43)
      /\ (forall r, ReadObjectRequest.fromBuffer B = Ok r ->
            ReadObjectRequest.toBuffer r = take 2 B)).
Proof.
  intros Hwf. split.
  - now apply ReadFifo8Request_decoding.
  - now apply ReadObjectRequest_decoding.
Qed.

(** X10: [ReportSlaveIdResponse] is not symmetric: [fromBuffer] reads the
    fields behind a byte at offset 1, [toBuffer] writes them without it.  So
    whatever [fromBuffer] accepts is re-encoded one byte shorter, as the
    function code followed by the input from offset 2 on. *)
Theorem ReportSlaveIdResponse_reencode fill (B : Buf.buffer) r :
  ReportSlaveIdResponse.fromBuffer fill B = Ok r ->
  ReportSlaveIdResponse.toBuffer r = 0x11 :: drop 2 B
  /\ S (length (ReportSlaveIdResponse.toBuffer r)) = length B.
Proof.
  unfold ReportSlaveIdResponse.fromBuffer, assertBufferLength.
  destruct B as [|c [|n [|p [|u [|v0 [|v1 [|v2 rest]]]]]]];
    try discriminate.
  cbn [length Nat.ltb Nat.leb mbind result_bind Buf.get lookup list_lookup
       at_ nth drop Nat.sub].
  unfold assertFunctionCode.
  destruct (Z.eqb_spec c 17) as [->|Hc]; [|discriminate].
  cbn [mbind result_bind]. rewrite ?Nat.sub_0_r.
  match goal with
  | |- context [ReportSlaveIdResponse.new _ _ _ ?v] =>
      assert (Hvals : v = rest)
  end.
  { destruct rest as [|b rest]; [reflexivity|].
    cbn [length].
    apply (copy_from fill [17; n; p; u; v0; v1; v2] (b :: rest));
      simpl; lia. }
  rewrite Hvals. unfold ReportSlaveIdResponse.new.
  destruct ((p <? 0) || (255 <? p)); [discriminate|].
  destruct ((u <? 0) || (255 <? u)); [discriminate|].
  cbn [length Nat.eqb negb]. intros [= <-].
  unfold ReportSlaveIdResponse.toBuffer.
  cbn [ReportSlaveIdResponse.product ReportSlaveIdResponse.run
       ReportSlaveIdResponse.version ReportSlaveIdResponse.values at_ nth
       length].
  split; reflexivity.
Qed.

(** ** Worked examples of the codec theorems *)

Ltac bytes :=
  unfold Buf.wf;
  repeat (constructor; [unfold Buf.is_byte; lia|]); constructor.

Lemma ReadMemoryRequest_decoding_witness :
  let B := [0x45; 0x12; 0x34; 10; 0xFF] in
  (exists r, ReadMemoryRequest.fromBuffer B = Ok r)
  /\ ReadMemoryRequest.toBuffer
       {| ReadMemoryRequest.address := 0x1234;
          ReadMemoryRequest.count := 10 |}
     = [0x45; 0x12; 0x34; 10].
Proof.
  intros B.
  assert (HB : Buf.wf B) by bytes.
  destruct (ReadMemoryRequest_decoding B HB) as [Hacc Hre].
  split.
  - apply Hacc. unfold B, at_. split; [simpl; lia|]. split; [reflexivity|]. simpl. lia.
  - apply Hre. reflexivity.
Defined.

Lemma WriteObjectRequest_decoding_witness :
  let B := [0x44; 7; 2; 0xAA; 0xBB; 0xCC] in
  let r := {| WriteObjectRequest.id := 7;
              WriteObjectRequest.values := [0xAA; 0xBB] |} in
  WriteObjectRequest.fromBuffer (fun _ => 0) B = Ok r
  /\ WriteObjectRequest.id r = 7
  /\ length (WriteObjectRequest.values r) = 2%nat.
Proof.
  intros B r.
  assert (Hr : WriteObjectRequest.fromBuffer (fun _ => 0) B = Ok r)
    by reflexivity.
  destruct (WriteObjectRequest_decoding (fun _ => 0) B r Hr)
    as (Hid & _ & Hlen & _).
  split; [exact Hr|]. split; [exact Hid | exact Hlen].
Defined.

Lemma WriteFifo8Request_decoding_witness :
  let B := [0x42; 3; 1; 0x55] in
  let r := {| WriteFifo8Request.id := 3;
              WriteFifo8Request.values := [0x55] |} in
  WriteFifo8Request.fromBuffer (fun _ => 0) B = Ok r
  /\ WriteFifo8Request.toBuffer r = B.
Proof.
  intros B r.
  assert (Hr : WriteFifo8Request.fromBuffer (fun _ => 0) B = Ok r)
    by reflexivity.
  destruct (WriteFifo8Request_decoding (fun _ => 0) B r Hr)
    as (_ & _ & _ & _ & Hre).
  split; [exact Hr|]. apply Hre; [bytes | reflexivity].
Defined.

Lemma WriteMemoryRequest_roundtrip_witness :
  let B := [0x46; 0x12; 0x34; 0xAA; 0xBB] in
  let r := {| WriteMemoryRequest.address := 0x1234;
              WriteMemoryRequest.values := [0xAA; 0xBB] |} in
  WriteMemoryRequest.fromBuffer (fun _ => 0) B = Ok r
  /\ WriteMemoryRequest.toBuffer r = B.
Proof.
  intros B r. split; [reflexivity|].
  apply (WriteMemoryRequest_roundtrip (fun _ => 0) B r);
    [bytes | reflexivity].
Defined.

Lemma ReadMemoryResponse_roundtrip_witness :
  let B := [0x45; 0xAA; 0xBB; 0xCC] in
  let r := {| ReadMemoryResponse.values := [0xAA; 0xBB; 0xCC] |} in
  ReadMemoryResponse.fromBuffer (fun _ => 0) B = Ok r
  /\ ReadMemoryResponse.toBuffer r = B.
Proof.
  intros B r. split; [reflexivity|].
  apply (ReadMemoryResponse_roundtrip (fun _ => 0) B r). reflexivity.
Defined.

Lemma ReadObjectResponse_decoding_witness :
  let B := [0x43; 3; 0xAA] in
  let r := {| ReadObjectResponse.values := [0xAA; 0x77; 0x77] |} in
  ReadObjectResponse.fromBuffer (fun _ => 0x77) B = Ok r
  /\ length (ReadObjectResponse.values r) = 3%nat.
Proof.
  intros B r.
  assert (Hr : ReadObjectResponse.fromBuffer (fun _ => 0x77) B = Ok r)
    by reflexivity.
  destruct (ReadObjectResponse_decoding (fun _ => 0x77) B r Hr)
    as (_ & Hlen & _).
  split; [exact Hr | exact Hlen].
Defined.

Lemma ReadFifo8Response_reencode_witness :
  let B := [0x41; 0x81; 2; 0xAA; 0xBB] in
  let r := {| ReadFifo8Response.status :=
                {| ReadFifo8Response.more := true;
                   ReadFifo8Response.overflow := false |};
              ReadFifo8Response.values := [0xAA; 0xBB] |} in
  ReadFifo8Response.fromBuffer (fun _ => 0) B = Ok r
  /\ ReadFifo8Response.toBuffer r = [0x41; 0x01; 2; 0xAA; 0xBB].
Proof.
  intros B r.
  assert (Hr : ReadFifo8Response.fromBuffer (fun _ => 0) B = Ok r)
    by reflexivity.
  split; [exact Hr|].
  apply (ReadFifo8Response_reencode (fun _ => 0) B r);
    [bytes | reflexivity | exact Hr].
Defined.

Lemma status_responses_decoding_witness :
  let B := [0x44; 0; 0xEE] in
  (exists r, WriteObjectResponse.fromBuffer B = Ok r)
  /\ ~ (exists r, WriteFifo8Response.fromBuffer B = Ok r)
  /\ WriteObjectResponse.toBuffer {| WriteObjectResponse.status := 0 |}
     = [0x44; 0].
Proof.
  intros B.
  assert (HB : Buf.wf B) by bytes.
  destruct (status_responses_decoding B HB)
    as ((Hfifo & _) & (Hobj & Hre) & _).
  split; [|split].
  - apply Hobj. unfold B, at_. split; [simpl; lia|]. split; [reflexivity|]. simpl. lia.
  - intros Hacc. apply Hfifo in Hacc as (_ & Hcode & _). discriminate Hcode.
  - apply Hre. reflexivity.
Defined.

Lemma read_requests_decoding_witness :
  let B := [0x41; 5; 100; 0xEE] in
  (exists r, ReadFifo8Request.fromBuffer B = Ok r)
  /\ ReadFifo8Request.toBuffer
       {| ReadFifo8Request.id := 5; ReadFifo8Request.max := 100 |}
     = [0x41; 5; 100].
Proof.
  intros B.
  assert (HB : Buf.wf B) by bytes.
  destruct (read_requests_decoding B HB) as ((Hacc & Hre) & _).
  split.
  - apply Hacc. unfold B, at_. split; [simpl; lia|]. split; [reflexivity|]. simpl. lia.
  - apply Hre. reflexivity.
Defined.

Lemma ReportSlaveIdResponse_reencode_witness :
  let B := [0x11; 9; 2; 0xFF; 1; 2; 3; 0xAA] in
  let r := {| ReportSlaveIdResponse.product := 2;
              ReportSlaveIdResponse.run := 0xFF;
              ReportSlaveIdResponse.version := [1; 2; 3];
              ReportSlaveIdResponse.values := [0xAA] |} in
  ReportSlaveIdResponse.fromBuffer (fun _ => 0) B = Ok r
  /\ ReportSlaveIdResponse.toBuffer r = [0x11; 2; 0xFF; 1; 2; 3; 0xAA].
Proof.
  intros B r.
  assert (Hr : ReportSlaveIdResponse.fromBuffer (fun _ => 0) B = Ok r)
    by reflexivity.
  split; [exact Hr|].
  apply (ReportSlaveIdResponse_reencode (fun _ => 0) B r Hr).
Defined.

End CodecRoundTrips.

(** ** Frames and the RTU transport, end to end *)

Section FrameFacts.
Import Core.

Lemma land_255_byte v : Buf.is_byte (Z.land v 255).
Proof.
  unfold Buf.is_byte. rewrite land_255_mod. apply Z.mod_pos_bound. lia.
Qed.

(** [frame] turns a unit byte and a PDU of bytes into a buffer of bytes,
    three longer than the PDU. *)
Lemma frame_wf unit (pdu : Buf.buffer) :
  Buf.is_byte unit -> Buf.wf pdu ->
  Buf.wf (Crc.frame unit pdu)
  /\ length (Crc.frame unit pdu) = (length pdu + 3)%nat.
Proof.
  intros Hu Hpdu. split; [|apply frame_length].
  unfold Crc.frame, Buf.uint16LE. apply Forall_cons. split; [exact Hu|].
  apply Forall_app. split; [exact Hpdu|].
  repeat constructor; apply land_255_byte.
Qed.

(** X12: taking a frame apart gives back the unit and the PDU it was built
    from, nothing is left over, and the checksum read is the one both
    transports compute again. *)
Theorem frame_roundtrip unit (pdu : Buf.buffer) :
  (1 <= length pdu)%nat ->
  exists checksum,
    Buf.shiftFrame (Crc.frame unit pdu) = Some (unit, pdu, checksum, [])
    /\ Tunnel.validate unit pdu checksum = None
    /\ forall t, Rtu.validate (Some t) unit pdu checksum
                 = Some (if decide (unit = getUnit t) then None
                         else Some (InvalidResponseDataError
                                      (InvalidUnit (getUnit t) unit))).
Proof.
  intros Hlen. exists (Crc.crc16 unit pdu).
  split; [now apply shiftFrame_frame|]. split; [apply validate_frame|].
  intros t. unfold Rtu.validate, Rtu.crc16. rewrite Z.eqb_refl. simpl.
  destruct (decide (unit = getUnit t)) as [->|Hne].
  - now rewrite Z.eqb_refl.
  - apply Z.eqb_neq in Hne. now rewrite Hne.
Qed.

End FrameFacts.

Section RtuMoreFacts.
Import Core.

(** X13: whenever [handleFrameData] returns, the receive queue is empty and at
    most one call has been made on the transaction; the transaction is still
    in flight only if nothing was reported. *)
Theorem rtu_handleFrameData_settles (st st' : Rtu.State) evs :
  Rtu.handleFrameData st = Returns st' evs ->
  Rtu.reader st' = []
  /\ (length evs <= 1)%nat
  /\ (evs <> [] -> Rtu.transaction st' = None).
Proof.
  assert (Hframe : forall s t u b c,
    Rtu.handleFrame s t u b c = Returns st' evs ->
    Rtu.reader st' = [] /\ (length evs <= 1)%nat
    /\ (evs <> [] -> Rtu.transaction st' = None)).
  { intros s t u b c. unfold Rtu.handleFrame.
    destruct (Rtu.validate t u b c) as [[e|]|]; destruct t;
      try discriminate; intros [= <- <-]; simpl; auto. }
  unfold Rtu.handleFrameData.
  destruct (_ <? Rtu.MIN_FRAME_LENGTH).
  { destruct (Rtu.transaction st); [|discriminate].
    intros [= <- <-]. simpl. auto. }
  destruct (Rtu.enableEcho st).
  - set (s1 := if Z.of_nat (length (Rtu.reader st)) <? Rtu.PREV_MSG_COUNT st
               then Rtu.set_PREV_MSG_COUNT st 0 else st).
    set (s2 := if Rtu.PREV_MSG_COUNT s1 =? 0
               then Rtu.set_PREV_MSG_COUNT s1 1 else s1).
    assert (Hr : Rtu.reader s2 = Rtu.reader st).
    { unfold s2, s1. destruct (_ =? 0), (_ <? _); reflexivity. }
    clearbody s2. clear s1.
    destruct (Rtu.PREV_MSG_COUNT s2 <? _).
    + destruct (Buf.skip _ _) as [r|]; [|discriminate].
      destruct (Buf.shiftFrame r) as [[[[u b] c] r']|]; [|discriminate].
      apply Hframe.
    + clear Hframe. rewrite Hr. unfold Buf.shiftBuffer.
      destruct (Buf.in_range _ _); [|discriminate].
      intros [= <- <-]. simpl. rewrite Nat2Z.id, drop_all.
      split; [reflexivity | split; [lia | congruence]].
  - destruct (Buf.shiftFrame _) as [[[[u b] c] r']|]; [|discriminate].
    apply Hframe.
Qed.


Lemma sendRequest_first (st : Rtu.State) (t : Transaction) :
  Rtu.transaction st = None ->
  Core.getAdu t = None ->
  let a := Crc.frame (getUnit t) (request t) in
  Rtu.sendRequest st t
  = Returns (Rtu.set_transaction
               (Rtu.set_PREV_MSG_COUNT st (Z.of_nat (length a)))
               (Some (setAdu t a)))
            [EmitRequest (setAdu t a); Write a;
             Start (setAdu t a) HandleTimeout].
Proof.
  intros Hidle Hadu.
  unfold Rtu.sendRequest, Rtu.getAdu, Rtu.buildAdu, Rtu.frame.
  rewrite Hidle, Hadu. cbn zeta. rewrite frame_length.
  replace (Z.of_nat (length (request t) + 3))
    with (1 + Z.of_nat (length (request t)) + 2) by lia.
  reflexivity.
Qed.

(** X14: what [sendRequest] writes.  The first time a transaction is sent its
    ADU is [frame(unit, pdu)]; it is cached in the transaction and its length
    is recorded in [PREV_MSG_COUNT].  A transaction that already has an ADU
    has it written again as it is, and [PREV_MSG_COUNT] is left alone. *)
Theorem rtu_sendRequest_adu (st : Rtu.State) (t : Transaction) :
  Rtu.transaction st = None ->
  (Core.getAdu t = None ->
   let a := Crc.frame (getUnit t) (request t) in
   Rtu.sendRequest st t
   = Returns (Rtu.set_transaction
                (Rtu.set_PREV_MSG_COUNT st (Z.of_nat (length a)))
                (Some (setAdu t a)))
             [EmitRequest (setAdu t a); Write a;
              Start (setAdu t a) HandleTimeout])
  /\ (forall a, Core.getAdu t = Some a ->
        Rtu.sendRequest st t
        = Returns (Rtu.set_transaction st (Some t))
                  [EmitRequest t; Write a; Start t HandleTimeout]).
Proof.
  intros Hidle. split.
  - intros Hadu. exact (sendRequest_first st t Hidle Hadu).
  - intros a Hadu. unfold Rtu.sendRequest, Rtu.getAdu.
    rewrite Hidle, Hadu. reflexivity.
Qed.

(** X15: one transaction at a time: while one is in flight a further
    [sendRequest] throws and changes nothing; once the transaction's timeout
    has been handled the transport is idle, with an empty receive queue. *)
Theorem rtu_one_in_flight (st : Rtu.State) (t t2 : Transaction) :
  Rtu.transaction st = None ->
  let st1 := final (Rtu.sendRequest st t) in
  Rtu.transaction st1 <> None
  /\ Rtu.sendRequest st1 t2 = Raises PreviousRequestNotCompleted st1 []
  /\ (forall data,
        Rtu.transaction (Rtu.handleTimeout (Rtu.onData st1 data)) = None
        /\ Rtu.reader (Rtu.handleTimeout (Rtu.onData st1 data)) = []).
Proof.
  intros Hidle st1.
  assert (Hbusy : exists t', Rtu.transaction st1 = Some t').
  { unfold st1, Rtu.sendRequest. rewrite Hidle.
    destruct (Rtu.getAdu st t) as [[a t'] s']. simpl. eauto. }
  destruct Hbusy as [t' Ht']. split; [congruence|]. split.
  - unfold Rtu.sendRequest. now rewrite Ht'.
  - intros data. split; reflexivity.
Qed.

(** X16: a response framed for the transaction's unit is delivered.  On an
    idle transport with echo suppression off, send a transaction; when the
    bytes of [frame(unit, pdu)] have accumulated, with a PDU of 2 bytes or
    more, the end-of-frame handler hands exactly that PDU to the decoder
    on behalf of the transaction and the transport is idle again. *)
Theorem rtu_response_delivered (st : Rtu.State) (t : Transaction)
    (pdu : Buf.buffer) :
  Rtu.transaction st = None ->
  Rtu.reader st = [] ->
  Rtu.enableEcho st = false ->
  (2 <= length pdu)%nat ->
  let st1 := final (Rtu.sendRequest st t) in
  exists t',
    Rtu.transaction st1 = Some t'
    /\ sameTransaction (Some t') (Some t)
    /\ Rtu.handleFrameData (Rtu.onData st1 (Crc.frame (getUnit t) pdu))
       = Returns (Rtu.skipResponseData st1) [CreateResponse t' pdu].
Proof.
  intros Hidle Hempty Hecho Hlen st1.
  assert (Hst1 : exists t', Rtu.transaction st1 = Some t'
                            /\ sameTransaction (Some t') (Some t)
                            /\ getUnit t' = getUnit t
                            /\ Rtu.reader st1 = []
                            /\ Rtu.enableEcho st1 = false).
  { unfold st1, Rtu.sendRequest, Rtu.getAdu, Rtu.buildAdu, Rtu.frame.
    rewrite Hidle.
    destruct (Core.getAdu t); simpl; eexists;
      (split; [reflexivity|]); (split; [reflexivity|]);
      (split; [reflexivity|]); split; assumption. }
  destruct Hst1 as (t' & Ht' & Hsame & Hunit & Hr1 & He1).
  exists t'. split; [exact Ht'|]. split; [exact Hsame|].
  unfold Rtu.onData. rewrite Ht', Hr1. cbn [app].
  unfold Rtu.handleFrameData, Rtu.MIN_FRAME_LENGTH.
  cbn [Rtu.reader Rtu.set_reader Rtu.enableEcho Rtu.transaction].
  rewrite frame_length, He1, Ht'.
  destruct (Z.ltb_spec (Z.of_nat (length pdu + 3)) 5); [lia|].
  rewrite shiftFrame_frame by lia.
  rewrite handleFrame_verdict.
  destruct (decide (Rtu.crc16 (getUnit t) pdu <> Crc.crc16 (getUnit t) pdu))
    as [Hc|_]; [now contradiction Hc|].
  destruct (decide (getUnit t <> getUnit t')) as [Hu|_];
    [now rewrite Hunit in Hu|].
  reflexivity.
Qed.

(** X17: the same with echo suppression on and a bus that echoes: after the
    first send of a transaction, the ADU just written followed by
    [frame(unit, pdu)] is taken for echo and response; the PDU (1 byte or
    more) is delivered and the transport is idle again. *)
Theorem rtu_echo_then_response_delivered (st : Rtu.State) (t : Transaction)
    (pdu : Buf.buffer) :
  Rtu.transaction st = None ->
  Rtu.reader st = [] ->
  Rtu.enableEcho st = true ->
  Core.getAdu t = None ->
  (1 <= length pdu)%nat ->
  let a := Crc.frame (getUnit t) (request t) in
  let st1 := final (Rtu.sendRequest st t) in
  Rtu.handleFrameData (Rtu.onData st1 (a ++ Crc.frame (getUnit t) pdu))
  = Returns (Rtu.skipResponseData st1) [CreateResponse (setAdu t a) pdu].
Proof.
  intros Hidle Hempty Hecho Hadu Hlen a st1.
  pose proof (sendRequest_first st t Hidle Hadu) as Hfirst.
  cbn zeta in Hfirst. fold a in Hfirst.
  unfold st1. rewrite Hfirst. cbn [final].
  set (s1 := Rtu.set_transaction _ _).
  assert (Hs1 : Rtu.onData s1 (a ++ Crc.frame (getUnit t) pdu)
                = Rtu.set_reader s1 (a ++ Crc.frame (getUnit t) pdu)).
  { unfold Rtu.onData, s1. simpl. now rewrite Hempty. }
  rewrite Hs1.
  rewrite (handleFrameData_after_echo _ (setAdu t a) a (getUnit t) pdu
             (Z.land (Crc.crc16 (getUnit t) pdu) 255)
             (Z.land (Z.shiftr (Crc.crc16 (getUnit t) pdu) 8) 255)).
  - rewrite handleFrame_verdict.
    rewrite uint16LE_decode by apply crc16_range.
    destruct (decide (Rtu.crc16 (getUnit t) pdu
                      <> Crc.crc16 (getUnit t) pdu)) as [Hc|_];
      [now contradiction Hc|].
    destruct (decide (getUnit t <> getUnit (setAdu t a))) as [Hu|_];
      [now contradiction Hu|].
    reflexivity.
  - exact Hecho.
  - reflexivity.
  - reflexivity.
  - unfold a. rewrite frame_length. lia.
  - reflexivity.
  - exact Hlen.
Qed.

(** ** Worked examples *)

Lemma frame_roundtrip_witness :
  exists checksum,
    Buf.shiftFrame (Crc.frame 1 [0x03; 0x02; 0x00; 0x0A])
    = Some (1, [0x03; 0x02; 0x00; 0x0A], checksum, [])
    /\ Tunnel.validate 1 [0x03; 0x02; 0x00; 0x0A] checksum = None
    /\ forall t, Rtu.validate (Some t) 1 [0x03; 0x02; 0x00; 0x0A] checksum
                 = Some (if decide (1 = getUnit t) then None
                         else Some (InvalidResponseDataError
                                      (InvalidUnit (getUnit t) 1))).
Proof.
  apply (frame_roundtrip 1 [0x03; 0x02; 0x00; 0x0A]). simpl. lia.
Defined.

Lemma rtu_handleFrameData_settles_witness :
  let t := {| tid := 1; unit_ := 1; request := [0x03; 0; 0; 0; 1];
              adu := None |} in
  let st := {| Rtu.enableEcho := false; Rtu.transaction := Some t;
               Rtu.reader := Crc.frame 2 [0x03; 0x02; 0x00; 0x0A];
               Rtu.PREV_MSG_COUNT := 8 |} in
  let o := Rtu.handleFrameData st in
  Rtu.reader (final o) = []
  /\ (length (events o) <= 1)%nat
  /\ (events o <> [] -> Rtu.transaction (final o) = None).
Proof.
  intros t st o.
  apply (rtu_handleFrameData_settles st (final o) (events o)).
  reflexivity.
Defined.

Lemma rtu_sendRequest_adu_witness :
  let t := {| tid := 1; unit_ := 1; request := [0x03; 0; 0; 0; 1];
              adu := None |} in
  let st := {| Rtu.enableEcho := true; Rtu.transaction := None;
               Rtu.reader := []; Rtu.PREV_MSG_COUNT := 0 |} in
  let a := Crc.frame 1 [0x03; 0; 0; 0; 1] in
  Rtu.sendRequest st t
  = Returns (Rtu.set_transaction (Rtu.set_PREV_MSG_COUNT st 8)
                                 (Some (setAdu t a)))
            [EmitRequest (setAdu t a); Write a;
             Start (setAdu t a) HandleTimeout].
Proof.
  intros t st a.
  apply (proj1 (rtu_sendRequest_adu st t eq_refl) eq_refl).
Defined.

Lemma rtu_one_in_flight_witness :
  let t := {| tid := 1; unit_ := 1; request := [0x03; 0; 0; 0; 1];
              adu := None |} in
  let t2 := {| tid := 2; unit_ := 1; request := [0x11]; adu := None |} in
  let st := {| Rtu.enableEcho := false; Rtu.transaction := None;
               Rtu.reader := []; Rtu.PREV_MSG_COUNT := 0 |} in
  let st1 := final (Rtu.sendRequest st t) in
  Rtu.transaction st1 <> None
  /\ Rtu.sendRequest st1 t2 = Raises PreviousRequestNotCompleted st1 []
  /\ (forall data,
        Rtu.transaction (Rtu.handleTimeout (Rtu.onData st1 data)) = None
        /\ Rtu.reader (Rtu.handleTimeout (Rtu.onData st1 data)) = []).
Proof.
  intros t t2 st. apply (rtu_one_in_flight st t t2). reflexivity.
Defined.

Lemma rtu_response_delivered_witness :
  let t := {| tid := 1; unit_ := 1; request := [0x03; 0; 0; 0; 1];
              adu := None |} in
  let st := {| Rtu.enableEcho := false; Rtu.transaction := None;
               Rtu.reader := []; Rtu.PREV_MSG_COUNT := 0 |} in
  let st1 := final (Rtu.sendRequest st t) in
  exists t',
    Rtu.transaction st1 = Some t'
    /\ sameTransaction (Some t') (Some t)
    /\ Rtu.handleFrameData
         (Rtu.onData st1 (Crc.frame (getUnit t) [0x03; 0x02; 0x00; 0x0A]))
       = Returns (Rtu.skipResponseData st1)
                 [CreateResponse t' [0x03; 0x02; 0x00; 0x0A]].
Proof.
  intros t st.
  apply (rtu_response_delivered st t [0x03; 0x02; 0x00; 0x0A]);
    [reflexivity | reflexivity | reflexivity | simpl; lia].
Defined.

Lemma rtu_echo_then_response_delivered_witness :
  let t := {| tid := 1; unit_ := 1; request := [0x03; 0; 0; 0; 1];
              adu := None |} in
  let st := {| Rtu.enableEcho := true; Rtu.transaction := None;
               Rtu.reader := []; Rtu.PREV_MSG_COUNT := 0 |} in
  let a := Crc.frame (getUnit t) (request t) in
  let st1 := final (Rtu.sendRequest st t) in
  Rtu.handleFrameData
    (Rtu.onData st1 (a ++ Crc.frame (getUnit t) [0x03; 0x02; 0x00; 0x0A]))
  = Returns (Rtu.skipResponseData st1)
            [CreateResponse (setAdu t a) [0x03; 0x02; 0x00; 0x0A]].
Proof.
  intros t st.
  apply (rtu_echo_then_response_delivered st t [0x03; 0x02; 0x00; 0x0A]);
    [reflexivity | reflexivity | reflexivity | reflexivity | simpl; lia].
Defined.

End RtuMoreFacts.

(** ** The IP transport, frame by frame *)

Section IpFrameFacts.
Import Core.

Ltac ip_fields :=
  repeat progress
    cbn [Ip.header Ip.reader Ip.id Ip.length Ip.version Ip.unit
         Ip.transactions Ip.nextTransactionId Ip.set_transactions
         Ip.set_header Ip.set_reader Ip.set_nextTransactionId].

(** A header built by [frame] is read back field by field: the id, a
    zero version, the PDU's length (the length field less one) and the
    unit; the PDU is what is left in the queue. *)
Lemma Header_read_frame id unit (pdu rest : Buf.buffer) :
  0 <= id < 65536 ->
  Z.of_nat (length pdu) + 1 < 65536 ->
  Ip.Header_read (Ip.frame id unit pdu ++ rest)
  = Some ({| Ip.id := id; Ip.version := 0;
             Ip.length := Z.of_nat (length pdu); Ip.unit := unit |},
          pdu ++ rest).
Proof.
  intros Hid Hlen. unfold Ip.frame, Buf.uint16BE.
  cbn [app]. rewrite Header_read_fields.
  rewrite (uint16LE_decode id) by lia.
  rewrite (uint16LE_decode (Z.of_nat (length pdu) + 1)) by lia.
  change (Z.lor (Z.shiftl (Z.land (Z.shiftr 0 8) 255) 8) (Z.land 0 255))
    with 0.
  repeat f_equal. lia.
Qed.

Lemma onData_header_read (fuel : nat) (st : Ip.State) h (r : Buf.reader) :
  Ip.id (Ip.header st) = -1 ->
  (7 <= length (Ip.reader st))%nat ->
  Ip.Header_read (Ip.reader st) = Some (h, r) ->
  Ip.id h <> -1 ->
  Ip.onData_ (S fuel) st
  = Ip.onData_ (S fuel) (Ip.set_header (Ip.set_reader st r) h).
Proof.
  intros Hid Hlen Hread Hh. cbn [Ip.onData_].
  change (Ip.header (Ip.set_header (Ip.set_reader st r) h)) with h.
  rewrite Hid, Z.eqb_refl, Hread.
  destruct (Z.leb_spec 7 (Z.of_nat (length (Ip.reader st)))); [|lia].
  apply Z.eqb_neq in Hh. rewrite Hh. cbn [andb negb]. reflexivity.
Qed.

Lemma onData_frame_queued (fuel : nat) (st : Ip.State) id unit
    (pdu rest : Buf.buffer) :
  Ip.header st = {| Ip.id := id; Ip.version := 0;
                    Ip.length := Z.of_nat (length pdu); Ip.unit := unit |} ->
  Ip.reader st = pdu ++ rest ->
  id <> -1 ->
  (1 <= length pdu)%nat ->
  Ip.onData_ (S fuel) st
  = match Ip.transactions st !! id with
    | None => Ip.onData_ fuel (Ip.frameDone st rest (Ip.transactions st))
    | Some t =>
        after [if decide (unit = getUnit t) then CreateResponse t pdu
               else HandleError t (InvalidResponseDataError
                                     (InvalidUnit (getUnit t) unit))]
              (Ip.onData_ fuel
                 (Ip.frameDone st rest (delete id (Ip.transactions st))))
    end.
Proof.
  intros Hh Hr Hid Hlen. destruct st as [rd hd nx txs].
  cbn [Ip.header Ip.reader] in Hh, Hr. subst hd rd.
  assert (Hskip : Buf.skip (Z.of_nat (length pdu)) (pdu ++ rest) = Some rest).
  { unfold Buf.skip, Buf.in_range. rewrite length_app.
    destruct (Z.leb_spec 1 (Z.of_nat (length pdu))); [|lia].
    destruct (Z.leb_spec (Z.of_nat (length pdu))
                         (Z.of_nat (length pdu + length rest))); [|lia].
    cbn [andb]. now rewrite Nat2Z.id, drop_app_length. }
  assert (Hshift : Buf.shiftBuffer (Z.of_nat (length pdu)) (pdu ++ rest)
                   = Some (pdu, rest)).
  { unfold Buf.shiftBuffer, Buf.in_range. rewrite length_app.
    destruct (Z.leb_spec 1 (Z.of_nat (length pdu))); [|lia].
    destruct (Z.leb_spec (Z.of_nat (length pdu))
                         (Z.of_nat (length pdu + length rest))); [|lia].
    cbn [andb]. now rewrite Nat2Z.id, take_app_length, drop_app_length. }
  assert (Hpos : (0 <? Z.of_nat (length pdu)) = true)
    by (apply Z.ltb_lt; lia).
  assert (Hnz : (Z.of_nat (length pdu) =? 0) = false)
    by (apply Z.eqb_neq; lia).
  assert (Hle : (Z.of_nat (length pdu) <=? Z.of_nat (length (pdu ++ rest)))
                = true)
    by (apply Z.leb_le; rewrite length_app; lia).
  apply Z.eqb_neq in Hid.
  unfold Ip.frameDone.
  cbn [Ip.onData_]. ip_fields.
  rewrite Hid. cbn [andb negb]. ip_fields. rewrite Hid, Hle.
  cbn [andb negb].
  destruct (txs !! id) as [t|].
  - unfold Ip.Header_validate, Ip.skipResponseData.
    ip_fields.
    change (0 =? 0) with true. cbn [negb]. rewrite Hnz, Hpos, Hskip, Hshift.
    destruct (decide (unit = getUnit t)) as [->|Hne].
    + rewrite Z.eqb_refl. cbn [negb]. reflexivity.
    + apply Z.eqb_neq in Hne. rewrite Hne. cbn [negb]. reflexivity.
  - unfold Ip.skipResponseData.
    ip_fields.
    rewrite Hpos, Hskip. reflexivity.
Qed.

Lemma onData_frame (fuel : nat) (st : Ip.State) id unit
    (pdu rest : Buf.buffer) :
  Ip.id (Ip.header st) = -1 ->
  Ip.reader st = Ip.frame id unit pdu ++ rest ->
  0 <= id < 65536 ->
  (1 <= length pdu)%nat ->
  Z.of_nat (length pdu) + 1 < 65536 ->
  Ip.onData_ (S fuel) st
  = match Ip.transactions st !! id with
    | None => Ip.onData_ fuel (Ip.frameDone st rest (Ip.transactions st))
    | Some t =>
        after [if decide (unit = getUnit t) then CreateResponse t pdu
               else HandleError t (InvalidResponseDataError
                                     (InvalidUnit (getUnit t) unit))]
              (Ip.onData_ fuel
                 (Ip.frameDone st rest (delete id (Ip.transactions st))))
    end.
Proof.
  intros Hunread Hreader Hid Hlen Hmax.
  pose proof (Header_read_frame id unit pdu rest Hid Hmax) as Hread.
  rewrite <- Hreader in Hread.
  rewrite (onData_header_read fuel st _ _ Hunread) with (2 := Hread).
  - rewrite (onData_frame_queued fuel _ id unit pdu rest);
      [reflexivity|reflexivity|reflexivity|lia|exact Hlen].
  - rewrite Hreader, length_app. unfold Ip.frame, Buf.uint16BE. simpl. lia.
  - simpl. lia.
Qed.

(** X18: one frame at the head of the queue is consumed whole.  With no header
    pending, let the bytes queued and the bytes that come in make up
    [frame(id, unit, pdu)] (a PDU of 1 byte or more) and then [rest],
    however they are split between the two.  If no transaction is filed
    under [id] the frame is skipped without a trace; otherwise the
    transaction leaves the map and is given the PDU when the unit is its
    own, an InvalidResponseData error when it is not.  Either way the bytes
    behind the frame are processed next. *)
Theorem ip_frame_consumed (fuel : nat) (st : Ip.State) id unit
    (data pdu rest : Buf.buffer) :
  Ip.id (Ip.header st) = -1 ->
  Ip.reader st ++ data = Ip.frame id unit pdu ++ rest ->
  0 <= id < 65536 ->
  (1 <= length pdu)%nat ->
  Z.of_nat (length pdu) + 1 < 65536 ->
  Ip.onData (S fuel) st data
  = match Ip.transactions st !! id with
    | None => Ip.onData_ fuel (Ip.frameDone st rest (Ip.transactions st))
    | Some t =>
        after [if decide (unit = getUnit t) then CreateResponse t pdu
               else HandleError t (InvalidResponseDataError
                                     (InvalidUnit (getUnit t) unit))]
              (Ip.onData_ fuel
                 (Ip.frameDone st rest (delete id (Ip.transactions st))))
    end.
Proof.
  intros Hunread Hreader Hid Hlen Hmax. unfold Ip.onData.
  rewrite (onData_frame fuel _ id unit pdu rest);
    [reflexivity | exact Hunread | exact Hreader | exact Hid | exact Hlen
     | exact Hmax].
Qed.

Lemma onData_idle (fuel : nat) (st : Ip.State) :
  Ip.id (Ip.header st) = -1 ->
  (length (Ip.reader st) < 7)%nat ->
  Ip.onData_ (S fuel) st = Returns st [].
Proof.
  intros Hid Hlen. cbn [Ip.onData_]. rewrite Hid. cbn [Z.eqb Pos.eqb].
  destruct (Z.leb_spec 7 (Z.of_nat (length (Ip.reader st)))); [lia|].
  cbn [andb]. rewrite Hid. reflexivity.
Qed.

Lemma frameDone_idle (st : Ip.State) :
  Ip.header st = Ip.Header_reset ->
  Ip.reader st = [] ->
  Ip.frameDone st [] (Ip.transactions st) = st.
Proof.
  destruct st as [rd hd nx txs]. cbn [Ip.header Ip.reader].
  intros -> ->. reflexivity.
Qed.

(** X19: a response that comes after its transaction timed out is taken off
    the queue and nothing else happens: no transaction is called and the
    transport is as the timeout left it. *)
Theorem ip_response_after_timeout_dropped (fuel : nat) (st : Ip.State)
    id unit (pdu : Buf.buffer) :
  Ip.header st = Ip.Header_reset ->
  Ip.reader st = [] ->
  0 <= id < 65536 ->
  (1 <= length pdu)%nat ->
  Z.of_nat (length pdu) + 1 < 65536 ->
  Ip.onData (S (S fuel)) (Ip.timeoutHandler id st) (Ip.frame id unit pdu)
  = Returns (Ip.timeoutHandler id st) [].
Proof.
  intros Hh Hr Hid Hlen Hmax. unfold Ip.onData.
  rewrite (onData_frame (S fuel) _ id unit pdu []); try assumption.
  - cbn [Ip.transactions Ip.set_reader Ip.timeoutHandler
         Ip.set_transactions].
    rewrite lookup_delete_eq.
    rewrite onData_idle by (simpl; lia).
    f_equal. destruct st as [rd hd nx txs].
    cbn [Ip.header Ip.reader] in Hh, Hr. subst. reflexivity.
  - simpl. now rewrite Hh.
  - simpl. now rewrite Hr, app_nil_r.
Qed.

(** X20: a request and its answer.  On an idle transport [sendRequest] files
    the transaction under the id it draws; when the frame with that id, the
    transaction's unit and a PDU comes in, the PDU is handed to that
    transaction, nothing else is, and the id is free again. *)
Theorem ip_request_then_response (fuel : nat) (st : Ip.State)
    (t : Transaction) (pdu : Buf.buffer) :
  Ip.header st = Ip.Header_reset ->
  Ip.reader st = [] ->
  0 <= Ip.nextTransactionId st < 65535 ->
  (1 <= length pdu)%nat ->
  Z.of_nat (length pdu) + 1 < 65536 ->
  let id := fst (Ip.sendRequest_id st t) in
  let sent := final (Ip.sendRequest st t) in
  exists t',
    sameTransaction (Some t) (Some t')
    /\ Ip.transactions sent !! id = Some t'
    /\ Ip.onData (S (S fuel)) sent (Ip.frame id (getUnit t) pdu)
       = Returns (Ip.timeoutHandler id sent) [CreateResponse t' pdu].
Proof.
  intros Hh Hr Hnext Hlen Hmax id sent.
  assert (Hid : 0 <= id < 65536).
  { assert (Hdraw : id = fst (Ip.getNextTransactionId st)).
    { unfold id, Ip.sendRequest_id, Ip.getNextTransactionId, Ip.getAdu,
        Ip.buildAdu.
      now destruct (Core.getAdu t). }
    rewrite Hdraw. unfold Ip.getNextTransactionId. cbn [fst].
    destruct (Z.eqb_spec (Ip.nextTransactionId st + 1) 65535); lia. }
  assert (Hsent : exists t',
    sameTransaction (Some t) (Some t')
    /\ getUnit t' = getUnit t
    /\ sent = Ip.set_transactions (Ip.set_nextTransactionId st id)
                (<[id := t']> (Ip.transactions st))).
  { unfold sent, id, Ip.sendRequest, Ip.sendRequest_id,
      Ip.getNextTransactionId, Ip.getAdu, Ip.buildAdu.
    destruct (Core.getAdu t); cbn [fst snd final];
      eexists; (split; [|split; [|reflexivity]]); reflexivity. }
  destruct Hsent as (t' & Hsame & Hunit & Hsent).
  exists t'. split; [exact Hsame|]. split.
  { rewrite Hsent. simpl. apply lookup_insert_eq. }
  unfold Ip.onData.
  rewrite (onData_frame (S fuel) _ id (getUnit t) pdu []);
    try assumption.
  - cbn [Ip.transactions Ip.set_reader]. rewrite Hsent at 1.
    cbn [Ip.transactions Ip.set_transactions].
    rewrite lookup_insert_eq.
    destruct (decide (getUnit t = getUnit t')) as [_|Hne]; [|congruence].
    rewrite onData_idle by (simpl; lia). cbn [after app].
    f_equal. rewrite Hsent. destruct st as [rd hd nx txs].
    cbn [Ip.header Ip.reader] in Hh, Hr. subst rd hd. reflexivity.
  - rewrite Hsent. simpl. now rewrite Hh.
  - rewrite Hsent. simpl. now rewrite Hr, app_nil_r.
Qed.

(** X21: a transaction sent again (a retry) goes out as the frame of its
    request under the new id: the cached ADU is reused and its first two
    bytes rewritten. *)
Theorem ip_getAdu_retry id1 id2 (t : Transaction) :
  Core.getAdu t = None ->
  fst (Ip.getAdu id2 (snd (Ip.getAdu id1 t)))
  = Ip.frame id2 (getUnit t) (request t).
Proof.
  intros Hnone. unfold Ip.getAdu at 2. rewrite Hnone.
  unfold Ip.buildAdu. cbn [snd]. unfold Ip.getAdu.
  cbn [Core.getAdu setAdu adu fst]. unfold Ip.frame.
  reflexivity.
Qed.


(** *** Bytes that come in later change nothing of what was done *)

Lemma after_nil {S} (o : Outcome S) : after [] o = o.
Proof. now destruct o. Qed.

Lemma after_after {S} e1 e2 (o : Outcome S) :
  after e1 (after e2 o) = after (e1 ++ e2) o.
Proof. destruct o; simpl; now rewrite app_assoc. Qed.

Lemma after_Returns {S} e (o : Outcome S) st evs :
  after e o = Returns st evs ->
  exists evs', o = Returns st evs' /\ evs = e ++ evs'.
Proof.
  destruct o as [s evs'|x s evs']; simpl; [|discriminate].
  intros [= <- <-]. now exists evs'.
Qed.

(** With a header read and its payload queued, [onData] is
    [handleFrameData]: one frame, then [onData] again. *)
Lemma onData_handleFrame (fuel : nat) (st : Ip.State) :
  Ip.id (Ip.header st) <> -1 ->
  Ip.length (Ip.header st) <= Z.of_nat (length (Ip.reader st)) ->
  match Ip.handleFrame st with
  | Some (evs, st') =>
      Ip.onData_ (S fuel) st = after evs (Ip.onData_ fuel st')
  | None => exists s, Ip.onData_ (S fuel) st = Raises ReaderOutOfRange s []
  end.
Proof.
  intros Hid Hlen. apply Z.eqb_neq in Hid. apply Z.leb_le in Hlen.
  cbn [Ip.onData_]. rewrite Hid. cbn [andb negb]. rewrite Hid, Hlen.
  cbn [andb negb]. unfold Ip.handleFrame.
  destruct (Ip.transactions st !! Ip.id (Ip.header st)) as [t|].
  - cbn zeta. destruct (Ip.Header_validate _ t) as [e|].
    + destruct (Ip.skipResponseData _) as [st'|]; cbn [mbind option_bind];
        [reflexivity | eexists; reflexivity].
    + destruct (Buf.shiftBuffer _ _) as [[b r]|]; cbn [mbind option_bind];
        [reflexivity | eexists; reflexivity].
  - destruct (Ip.skipResponseData st) as [st'|]; cbn [mbind option_bind];
      [now rewrite after_nil | eexists; reflexivity].
Qed.

Lemma Header_read_app (r d : Buf.reader) h r' :
  Ip.Header_read r = Some (h, r') ->
  Ip.Header_read (r ++ d) = Some (h, r' ++ d).
Proof.
  destruct r as [|b0 [|b1 [|b2 [|b3 [|b4 [|b5 [|b6 r]]]]]]]; try discriminate.
  intros [= <- <-]. reflexivity.
Qed.

Lemma Header_read_wf (r : Buf.reader) h r' :
  Buf.wf r ->
  Ip.Header_read r = Some (h, r') ->
  Ip.id h <> -1 /\ Buf.wf r'.
Proof.
  destruct r as [|b0 [|b1 [|b2 [|b3 [|b4 [|b5 [|b6 r]]]]]]]; try discriminate.
  intros Hwf [= <- <-]. unfold Buf.wf in *.
  apply Forall_cons in Hwf as [H0 Hwf]. apply Forall_cons in Hwf as [H1 Hwf].
  do 5 apply Forall_cons in Hwf as [_ Hwf].
  split; [|exact Hwf]. cbn [Ip.id]. unfold Buf.is_byte in *.
  assert (0 <= Z.lor (Z.shiftl b0 8) b1); [|lia].
  apply Z.lor_nonneg. split; [apply Z.shiftl_nonneg|]; lia.
Qed.

Lemma in_range_app n (r d : Buf.reader) :
  Buf.in_range n r = true ->
  Buf.in_range n (r ++ d) = true /\ (Z.to_nat n <= length r)%nat.
Proof.
  unfold Buf.in_range. rewrite length_app.
  intros [H1 H2]%andb_true_iff. apply Z.leb_le in H1, H2.
  split; [|lia]. apply andb_true_iff. split; apply Z.leb_le; lia.
Qed.

Lemma skip_app n (r d r' : Buf.reader) :
  Buf.skip n r = Some r' ->
  Buf.skip n (r ++ d) = Some (r' ++ d) /\ (Buf.wf r -> Buf.wf r').
Proof.
  unfold Buf.skip. destruct (Buf.in_range n r) eqn:Hin; [|discriminate].
  intros [= <-]. destruct (in_range_app n r d Hin) as [-> Hle].
  split; [now rewrite drop_app_le by exact Hle|].
  apply Forall_drop.
Qed.

Lemma shiftBuffer_app n (r d r' : Buf.reader) b :
  Buf.shiftBuffer n r = Some (b, r') ->
  Buf.shiftBuffer n (r ++ d) = Some (b, r' ++ d) /\ (Buf.wf r -> Buf.wf r').
Proof.
  unfold Buf.shiftBuffer. destruct (Buf.in_range n r) eqn:Hin; [|discriminate].
  intros [= <- <-]. destruct (in_range_app n r d Hin) as [-> Hle].
  split; [now rewrite take_app_le, drop_app_le by exact Hle|].
  apply Forall_drop.
Qed.

Lemma skipResponseData_app (st st' : Ip.State) (d : Buf.buffer) :
  Ip.skipResponseData st = Some st' ->
  Ip.skipResponseData (Ip.set_reader st (Ip.reader st ++ d))
  = Some (Ip.set_reader st' (Ip.reader st' ++ d))
  /\ (Buf.wf (Ip.reader st) -> Buf.wf (Ip.reader st')).
Proof.
  unfold Ip.skipResponseData. ip_fields.
  destruct (0 <? Ip.length (Ip.header st)).
  - destruct (Buf.skip _ (Ip.reader st)) as [r'|] eqn:Hskip;
      [|discriminate].
    destruct (skip_app _ _ d _ Hskip) as [-> Hwf].
    cbn [fmap option_fmap option_map mbind option_bind].
    intros [= <-]. split; [reflexivity | exact Hwf].
  - cbn [mbind option_bind]. intros [= <-]. split; [reflexivity | auto].
Qed.

(** One frame is handled the same whatever follows its payload in the
    queue. *)
Lemma handleFrame_app (st st' : Ip.State) evs (d : Buf.buffer) :
  Ip.handleFrame st = Some (evs, st') ->
  Ip.handleFrame (Ip.set_reader st (Ip.reader st ++ d))
  = Some (evs, Ip.set_reader st' (Ip.reader st' ++ d))
  /\ (Buf.wf (Ip.reader st) -> Buf.wf (Ip.reader st')).
Proof.
  unfold Ip.handleFrame. ip_fields.
  destruct (Ip.transactions st !! Ip.id (Ip.header st)) as [t|].
  - cbn zeta. ip_fields. destruct (Ip.Header_validate _ t) as [e|].
    + match goal with
      | |- context [Ip.skipResponseData ?s ≫= _] =>
          destruct (Ip.skipResponseData s) as [s'|] eqn:Hskip;
          [|discriminate];
          destruct (skipResponseData_app s s' d Hskip) as [Happ Hwf]
      end.
      cbn [mbind option_bind]. intros [= <- <-].
      match type of Happ with
      | Ip.skipResponseData ?a = _ =>
          match goal with
          | |- context [Ip.skipResponseData ?b] => change b with a
          end
      end.
      rewrite Happ. split; [reflexivity | exact Hwf].
    + destruct (Buf.shiftBuffer _ (Ip.reader st)) as [[b r]|] eqn:Hshift;
        [|discriminate].
      destruct (shiftBuffer_app _ _ d _ _ Hshift) as [-> Hwf].
      cbn [mbind option_bind]. intros [= <- <-].
      split; [reflexivity | exact Hwf].
  - destruct (Ip.skipResponseData st) as [s'|] eqn:Hskip; [|discriminate].
    destruct (skipResponseData_app st s' d Hskip) as [-> Hwf].
    cbn [mbind option_bind]. intros [= <- <-].
    split; [reflexivity | exact Hwf].
Qed.

Lemma onData_chunk (f : nat) : forall (st st' : Ip.State) evs (d : Buf.buffer),
  Buf.wf (Ip.reader st) ->
  Ip.onData_ f st = Returns st' evs ->
  exists g, (g < f)%nat /\ forall m,
    Ip.onData_ (g + S m) (Ip.set_reader st (Ip.reader st ++ d))
    = after evs (Ip.onData_ (S m)
                   (Ip.set_reader st' (Ip.reader st' ++ d))).
Proof.
  induction f as [|f IH]; intros st st' evs d Hwf Hret; [discriminate|].
  (* the header, if one is read now *)
  assert (Hread : exists st1,
    Buf.wf (Ip.reader st1)
    /\ Ip.onData_ (S f) st1 = Returns st' evs
    /\ (Ip.id (Ip.header st1) = -1 -> st1 = st)
    /\ (Ip.id (Ip.header st1) = -1 -> (length (Ip.reader st1) < 7)%nat)
    /\ forall k,
         Ip.onData_ (S k) (Ip.set_reader st (Ip.reader st ++ d))
         = Ip.onData_ (S k) (Ip.set_reader st1 (Ip.reader st1 ++ d))).
  { destruct (Z.eq_dec (Ip.id (Ip.header st)) (-1)) as [Hid|Hid];
      [destruct (le_lt_dec 7 (length (Ip.reader st))) as [H7|H7]|].
    - destruct (Ip.Header_read (Ip.reader st)) as [[h r]|] eqn:Hr.
      + destruct (Header_read_wf _ _ _ Hwf Hr) as [Hh Hwfr].
        exists (Ip.set_header (Ip.set_reader st r) h).
        split; [exact Hwfr|]. split; [|split; [|split]].
        * now rewrite <- (onData_header_read f st h r Hid H7 Hr Hh).
        * intros Hc. now contradiction Hh.
        * intros Hc. now contradiction Hh.
        * intros k.
          apply (onData_header_read k
                   (Ip.set_reader st (Ip.reader st ++ d)) h (r ++ d));
            [exact Hid | simpl; rewrite length_app; lia
             | now apply Header_read_app | exact Hh].
      + exfalso. clear -Hr H7.
        destruct (Ip.reader st)
          as [|b0 [|b1 [|b2 [|b3 [|b4 [|b5 [|b6 r]]]]]]];
          simpl in H7; try lia; discriminate.
    - exists st. repeat split; auto.
    - exists st. split; [exact Hwf|]. split; [exact Hret|].
      split; [reflexivity|]. split; [intros Hc; contradiction|reflexivity]. }
  clear Hret Hwf.
  destruct Hread as (st1 & Hwf & Hret & Hsame & Hshort & Hfwd).
  destruct (Z.eq_dec (Ip.id (Ip.header st1)) (-1)) as [Hid|Hid].
  { (* nothing to handle *)
    rewrite onData_idle in Hret by auto. injection Hret as <- <-.
    exists 0%nat. split; [lia|]. intros m. cbn [Nat.add]. now rewrite after_nil, Hfwd. }
  destruct (Z_le_gt_dec (Ip.length (Ip.header st1))
                        (Z.of_nat (length (Ip.reader st1)))) as [Hq|Hq].
  - (* a frame is handled *)
    pose proof (onData_handleFrame f st1 Hid Hq) as Hstep.
    destruct (Ip.handleFrame st1) as [[e st2]|] eqn:Hframe.
    + rewrite Hstep in Hret.
      apply after_Returns in Hret as (evs' & Hret & ->).
      destruct (handleFrame_app st1 st2 e d Hframe) as [Happ Hwf2].
      destruct (IH st2 st' evs' d (Hwf2 Hwf) Hret) as (g & Hg & Hrun).
      exists (S g). split; [lia|]. intros m.
      cbn [Nat.add]. rewrite Hfwd.
      pose proof (onData_handleFrame (g + S m)
                    (Ip.set_reader st1 (Ip.reader st1 ++ d))) as Hstep'.
      rewrite Happ in Hstep'. rewrite Hstep'.
      * now rewrite Hrun, after_after.
      * exact Hid.
      * simpl. rewrite length_app. lia.
    + destruct Hstep as [s Hs]. rewrite Hs in Hret. discriminate.
  - (* the payload is not all there *)
    assert (Hstop : Ip.onData_ (S f) st1 = Returns st1 []).
    { cbn [Ip.onData_]. apply Z.eqb_neq in Hid. rewrite Hid.
      cbn [andb negb]. rewrite Hid.
      destruct (Z.leb_spec (Ip.length (Ip.header st1))
                           (Z.of_nat (length (Ip.reader st1)))); [lia|].
      reflexivity. }
    rewrite Hstop in Hret. injection Hret as <- <-.
    exists 0%nat. split; [lia|]. intros m. cbn [Nat.add]. now rewrite after_nil, Hfwd.
Qed.

(** X24: bytes may come in any pieces.  If [onData] with [d1] returns, what
    [onData] does with [d1 ++ d2] at once is what was done for [d1]
    followed by what [onData] does with [d2] from there: the same calls on
    the same transactions in the same order, and the same state at the
    end. *)
Theorem ip_chunked_delivery (f : nat) (st st1 : Ip.State) evs1
    (d1 d2 : Buf.buffer) :
  Buf.wf (Ip.reader st) -> Buf.wf d1 ->
  Ip.onData f st d1 = Returns st1 evs1 ->
  exists g, (g < f)%nat /\ forall m,
    Ip.onData (g + S m) st (d1 ++ d2)
    = after evs1 (Ip.onData (S m) st1 d2).
Proof.
  intros Hwf Hd1 Hret. unfold Ip.onData in *.
  assert (Hq : Buf.wf (Ip.reader (Ip.set_reader st (Ip.reader st ++ d1)))).
  { simpl. apply Forall_app. split; assumption. }
  destruct (onData_chunk f _ st1 evs1 d2 Hq Hret) as (g & Hg & Hrun).
  exists g. split; [exact Hg|]. intros m.
  rewrite <- Hrun. ip_fields. now rewrite app_assoc.
Qed.

(** ** Worked examples *)

Lemma ip_frame_consumed_witness :
  let t := {| tid := 1; unit_ := 1; request := [0x03; 0; 0; 0; 1];
              adu := None |} in
  let sent := final (Ip.sendRequest Ip.fresh t) in
  let st := Ip.set_reader sent [0; 1; 0; 0] in
  let data := [0; 5; 2; 0x03; 0x02; 0x00; 0x0A; 0xEE] in
  Ip.transactions st !! 1
  = Some (setAdu t (Ip.frame 1 1 [0x03; 0; 0; 0; 1]))
  /\ Ip.onData 3 st data
     = match Ip.transactions st !! 1 with
       | None => Ip.onData_ 2 (Ip.frameDone st [0xEE] (Ip.transactions st))
       | Some t =>
           after [if decide (2 = getUnit t)
                  then CreateResponse t [0x03; 0x02; 0x00; 0x0A]
                  else HandleError t (InvalidResponseDataError
                                        (InvalidUnit (getUnit t) 2))]
                 (Ip.onData_ 2
                    (Ip.frameDone st [0xEE]
                       (delete 1 (Ip.transactions st))))
       end.
Proof.
  intros t sent st data. split; [apply lookup_insert_eq|].
  apply (ip_frame_consumed 2 st 1 2 data [0x03; 0x02; 0x00; 0x0A] [0xEE]);
    [reflexivity | reflexivity | lia | simpl; lia | simpl; lia].
Defined.

Lemma ip_response_after_timeout_dropped_witness :
  let t := {| tid := 1; unit_ := 1; request := [0x03; 0; 0; 0; 1];
              adu := None |} in
  let sent := final (Ip.sendRequest Ip.fresh t) in
  Ip.onData 2 (Ip.timeoutHandler 1 sent)
            (Ip.frame 1 1 [0x03; 0x02; 0x00; 0x0A])
  = Returns (Ip.timeoutHandler 1 sent) [].
Proof.
  intros t sent.
  apply (ip_response_after_timeout_dropped 0 sent 1 1
           [0x03; 0x02; 0x00; 0x0A]);
    [reflexivity | reflexivity | lia | simpl; lia | simpl; lia].
Defined.

Lemma ip_request_then_response_witness :
  let t := {| tid := 1; unit_ := 1; request := [0x03; 0; 0; 0; 1];
              adu := None |} in
  let id := fst (Ip.sendRequest_id Ip.fresh t) in
  let sent := final (Ip.sendRequest Ip.fresh t) in
  exists t',
    sameTransaction (Some t) (Some t')
    /\ Ip.transactions sent !! id = Some t'
    /\ Ip.onData 2 sent (Ip.frame id (getUnit t) [0x03; 0x02; 0x00; 0x0A])
       = Returns (Ip.timeoutHandler id sent)
                 [CreateResponse t' [0x03; 0x02; 0x00; 0x0A]].
Proof.
  intros t.
  apply (ip_request_then_response 0 Ip.fresh t [0x03; 0x02; 0x00; 0x0A]);
    [reflexivity | reflexivity | simpl; lia | simpl; lia | simpl; lia].
Defined.

Lemma ip_getAdu_retry_witness :
  let t := {| tid := 1; unit_ := 1; request := [0x03; 0; 0; 0; 1];
              adu := None |} in
  fst (Ip.getAdu 2 (snd (Ip.getAdu 1 t)))
  = [0; 2; 0; 0; 0; 6; 1; 0x03; 0; 0; 0; 1].
Proof.
  intros t. apply (ip_getAdu_retry 1 2 t). reflexivity.
Defined.

Lemma onData_enoughFuel_witness :
  let st := Ip.set_reader Ip.fresh
              (Ip.frame 1 1 [0x03; 0x02; 0x00; 0x0A]) in
  ~ runs_out (Ip.onData_ 13 st).
Proof.
  intros st. apply (onData_enoughFuel st 13). vm_compute. lia.
Defined.

Lemma ip_chunked_delivery_witness :
  let t := {| tid := 1; unit_ := 1; request := [0x03; 0; 0; 0; 1];
              adu := None |} in
  let st := final (Ip.sendRequest Ip.fresh t) in
  let d1 := [0; 1; 0; 0] in
  let d2 := [0; 5; 1; 0x03; 0x02; 0x00; 0x0A] in
  Ip.onData 1 st d1 = Returns (Ip.set_reader st d1) []
  /\ exists g, (g < 1)%nat /\ forall m,
       Ip.onData (g + S m) st (d1 ++ d2)
       = after [] (Ip.onData (S m) (Ip.set_reader st d1) d2).
Proof.
  intros t st d1 d2.
  assert (Hret : Ip.onData 1 st d1 = Returns (Ip.set_reader st d1) [])
    by reflexivity.
  split; [exact Hret|].
  apply (ip_chunked_delivery 1 st (Ip.set_reader st d1) [] d1 d2);
    [constructor | | exact Hret].
  unfold Buf.wf.
  repeat (constructor; [unfold Buf.is_byte; lia|]); constructor.
Defined.

End IpFrameFacts.

(** ** The Tunnel transport, poll by poll *)

Section TunnelMoreFacts.
Import Core.

Ltac tunnel_fields :=
  repeat progress
    cbn [Tunnel.slaveId Tunnel.transaction Tunnel.nextTransaction
         Tunnel.sequence Tunnel.reader Tunnel.set_transaction
         Tunnel.set_nextTransaction Tunnel.set_sequence Tunnel.set_reader
         Tunnel.flushReader Tunnel.onData Tunnel.fresh final fst snd].

(** A well-framed frame for our slave id reaches the test of the function
    code with the queue emptied. *)
Lemma handleFrameData_for_us (st : Tunnel.State) (pdu : Buf.buffer) :
  (1 <= length pdu)%nat ->
  Tunnel.reader st = Crc.frame (Tunnel.slaveId st) pdu ->
  Tunnel.handleFrameData st
  = if decide (Buf.get pdu 0 = Some Tunnel.SLAVE_COMMAND)
    then let '(st', evs) :=
           Tunnel.handleSlaveCommand (Tunnel.flushReader st) pdu in
         Returns st' ([EmitSniff SniffPdu (Tunnel.reader st)] ++ evs)
    else Returns (Tunnel.flushReader st)
           [EmitSniff SniffPdu (Tunnel.reader st);
            ConsoleLog (Buf.get pdu 0)].
Proof.
  intros Hlen Hreader. unfold Tunnel.handleFrameData.
  rewrite Hreader, frame_length.
  destruct (Nat.ltb_spec (length pdu + 3) 4) as [Hshort|_]; [lia|].
  rewrite shiftFrame_frame by lia.
  rewrite validate_frame. tunnel_fields.
  rewrite Z.eqb_refl. reflexivity.
Qed.

(** The reply [sendSlaveResponse] writes.  With no transaction it is the
    bare header [SLAVE_COMMAND, sequence]; with a transaction that has no
    ADU yet it is [SLAVE_COMMAND, sequence, unit] followed by the request,
    and the transaction caches it; a cached ADU is written again as it is,
    whatever the sequence counter has become.  All are framed under our
    slave id. *)
Lemma tunnel_reply (st : Tunnel.State) :
  match Tunnel.transaction st with
  | None =>
      Tunnel.sendSlaveResponse st
      = (st, [Write (Crc.frame (Tunnel.slaveId st)
                       [Tunnel.SLAVE_COMMAND; Tunnel.sequence st])])
  | Some t =>
      match Core.getAdu t with
      | None =>
          let a := Crc.frame (Tunnel.slaveId st)
                     (Tunnel.SLAVE_COMMAND :: Tunnel.sequence st
                        :: getUnit t :: request t) in
          Tunnel.sendSlaveResponse st
          = (Tunnel.set_transaction st (Some (setAdu t a)), [Write a])
      | Some a => Tunnel.sendSlaveResponse st = (st, [Write a])
      end
  end.
Proof.
  unfold Tunnel.sendSlaveResponse, Tunnel.getAdu, Tunnel.buildAdu.
  destruct st as [sid [t|] nx sq rd]; tunnel_fields.
  - destruct (Core.getAdu t) as [a|] eqn:Ha; cbn [mbind option_bind];
      rewrite Ha; reflexivity.
  - reflexivity.
Qed.

(** X25: a poll out of sequence.  A well-framed frame for our slave id with
    SLAVE_COMMAND and a sequence byte that is not the counter's (or none)
    closes nothing and leaves the counter alone: whatever payload it carries
    is ignored, and the reply is written all the same. *)
Theorem tunnel_out_of_sequence_poll (st : Tunnel.State) (rest : Buf.buffer) :
  Tunnel.reader st
  = Crc.frame (Tunnel.slaveId st) (Tunnel.SLAVE_COMMAND :: rest) ->
  Buf.get rest 0 <> Some (Tunnel.sequence st) ->
  Tunnel.handleFrameData st
  = let '(st', reply) := Tunnel.sendSlaveResponse (Tunnel.flushReader st) in
    Returns st' (EmitSniff SniffPdu (Tunnel.reader st) :: reply).
Proof.
  intros Hreader Hseq.
  rewrite (handleFrameData_for_us st (Tunnel.SLAVE_COMMAND :: rest));
    [|simpl; lia|exact Hreader].
  destruct (decide _) as [_|Hne]; [|now contradiction Hne].
  unfold Tunnel.handleSlaveCommand. tunnel_fields.
  destruct (decide (Buf.get (Tunnel.SLAVE_COMMAND :: rest) 1
                    = Some (Tunnel.sequence st))) as [Heq|_];
    [now contradiction Hseq|].
  destruct (Tunnel.sendSlaveResponse _) as [st' reply]. reflexivity.
Qed.

(** X26: a frame for our slave id that is not a SLAVE_COMMAND is logged and
    otherwise ignored: nothing is written in reply, no transaction is
    touched, the counter stays. *)
Theorem tunnel_other_function_ignored (st : Tunnel.State)
    fc (rest : Buf.buffer) :
  fc <> Tunnel.SLAVE_COMMAND ->
  Tunnel.reader st = Crc.frame (Tunnel.slaveId st) (fc :: rest) ->
  Tunnel.handleFrameData st
  = Returns (Tunnel.flushReader st)
      [EmitSniff SniffPdu (Tunnel.reader st); ConsoleLog (Some fc)].
Proof.
  intros Hfc Hreader.
  rewrite (handleFrameData_for_us st (fc :: rest));
    [|simpl; lia|exact Hreader].
  destruct (decide _) as [Heq|_]; [|reflexivity].
  injection Heq as Heq. contradiction.
Qed.

(** X27: a damaged frame is dropped, whoever it was for.  With fewer than 4
    bytes queued the queue is emptied and sniffers get one 'incomplete'
    event (with the queue's first chunk, which the model does not record);
    with 4 bytes and more whose last two are not the checksum of what
    precedes them the queue is emptied and sniffers get one 'bad checksum'
    event with all the bytes that were queued.  Nothing else happens: no
    reply, no transaction touched. *)
Theorem tunnel_damaged_frame_dropped (st : Tunnel.State) :
  ((length (Tunnel.reader st) < 4)%nat ->
   Tunnel.handleFrameData st
   = Returns (Tunnel.flushReader st) [EmitSniffIncomplete])
  /\ (forall unit (pdu : Buf.buffer) lo hi,
        Tunnel.reader st = unit :: pdu ++ [lo; hi] ->
        (1 <= length pdu)%nat ->
        Z.lor (Z.shiftl hi 8) lo <> Crc.crc16 unit pdu ->
        Tunnel.handleFrameData st
        = Returns (Tunnel.flushReader st)
            [EmitSniff SniffBadChecksum (Tunnel.reader st)]).
Proof.
  split.
  - intros Hshort. unfold Tunnel.handleFrameData.
    destruct (Nat.ltb_spec (length (Tunnel.reader st)) 4); [reflexivity|lia].
  - intros unit pdu lo hi Hreader Hlen Hsum. unfold Tunnel.handleFrameData.
    rewrite Hreader.
    destruct (Nat.ltb_spec (length (unit :: pdu ++ [lo; hi])) 4) as [Hs|_].
    { simpl in Hs. rewrite length_app in Hs. simpl in Hs. lia. }
    rewrite shiftFrame_parts by exact Hlen.
    unfold Tunnel.validate, Tunnel.crc16.
    destruct (Z.eqb_spec (Crc.crc16 unit pdu) (Z.lor (Z.shiftl hi 8) lo))
      as [Heq|_]; [now contradiction Hsum|].
    reflexivity.
Qed.

Lemma sendSlaveResponse_consistent (st : Tunnel.State) :
  Tunnel.consistent st ->
  Tunnel.consistent (fst (Tunnel.sendSlaveResponse st)).
Proof.
  intros [Hslots Hseq].
  destruct (sendSlaveResponse_state st) as (Hsame & Hnext & Hsq).
  cbn zeta in Hsame, Hnext, Hsq. split.
  - rewrite Hnext. intros Hn Hnone. rewrite Hnone in Hsame.
    destruct (Tunnel.transaction st); [discriminate Hsame|].
    now apply Hslots.
  - now rewrite Hsq.
Qed.

Lemma handleSlaveCommand_consistent (st : Tunnel.State) (b : Buf.buffer) :
  Tunnel.consistent st ->
  Tunnel.consistent (fst (Tunnel.handleSlaveCommand st b)).
Proof.
  intros [Hslots Hseq]. unfold Tunnel.handleSlaveCommand.
  assert (Hbyte : 0 <= Z.land (Tunnel.sequence st + 1) 255 < 256).
  { rewrite land_255_mod. apply Z.mod_pos_bound. lia. }
  match goal with
  | |- context [let '(s, e) := ?X in _] => destruct X as [s1 e1] eqn:H1
  end.
  assert (Hs1 : Tunnel.consistent s1).
  { destruct (decide _) as [_|_] in H1.
    - revert H1. tunnel_fields.
      destruct (Tunnel.transaction st) as [t|] eqn:Ht.
      + destruct (2 <? length b)%nat; intros [= <- _]; split;
          tunnel_fields; try exact Hbyte; [congruence|].
        rewrite Ht. congruence.
      + intros [= <- _]. split; tunnel_fields; [|exact Hbyte].
        now rewrite Ht.
    - injection H1 as <- _. split; assumption. }
  pose proof (sendSlaveResponse_consistent s1 Hs1) as Hs2.
  destruct (Tunnel.sendSlaveResponse s1) as [s2 e2]. exact Hs2.
Qed.

(** X28: the slots stay in order and the counter stays a byte, whatever is
    called: [sendRequest], the timeout handler, [onData] and the end-of-frame
    handler, on any bytes. *)
Theorem tunnel_consistent (st : Tunnel.State) :
  Tunnel.consistent st ->
  (forall t, Tunnel.consistent (final (Tunnel.sendRequest st t)))
  /\ Tunnel.consistent (fst (Tunnel.handleTimeout st))
  /\ (forall data, Tunnel.consistent (Tunnel.onData st data))
  /\ Tunnel.consistent (final (Tunnel.handleFrameData st)).
Proof.
  intros Hst. pose proof Hst as [Hslots Hseq].
  split; [|split; [|split]].
  - intros t. unfold Tunnel.sendRequest.
    destruct (Tunnel.transaction st) as [c|] eqn:Hc.
    + destruct (Tunnel.nextTransaction st) as [n|] eqn:Hn;
        [exact Hst|].
      split; tunnel_fields; [rewrite ?Hc; congruence|exact Hseq].
    + split; tunnel_fields; [congruence|exact Hseq].
  - split; [|exact Hseq]. simpl. congruence.
  - intros data. split; [exact Hslots|exact Hseq].
  - assert (Hflush : forall r,
      Tunnel.consistent (Tunnel.flushReader (Tunnel.set_reader st r)))
      by (intros r; split; [exact Hslots|exact Hseq]).
    unfold Tunnel.handleFrameData.
    destruct (_ <? 4)%nat; [split; [exact Hslots|exact Hseq]|].
    destruct (Buf.shiftFrame _) as [[[[u b] c] r]|]; [|exact Hst].
    destruct (Tunnel.validate u b c); [apply Hflush|].
    destruct (u =? _); [|apply Hflush].
    destruct (decide _) as [_|_]; [|apply Hflush].
    pose proof (handleSlaveCommand_consistent _ b (Hflush r)) as Hcmd.
    destruct (Tunnel.handleSlaveCommand _ b) as [s e]. exact Hcmd.
Qed.

(** After a timeout the second slot is free: the next [sendRequest] is
    accepted. *)
Lemma tunnel_timeout_frees_a_slot (st : Tunnel.State) (t : Transaction) :
  exists st' evs,
    Tunnel.sendRequest (fst (Tunnel.handleTimeout st)) t = Returns st' evs
    /\ (Tunnel.nextTransaction st <> None -> evs = []).
Proof.
  unfold Tunnel.handleTimeout, Tunnel.skipResponseData, Tunnel.sendRequest.
  cbn [fst]. tunnel_fields.
  destruct (Tunnel.nextTransaction st) as [n|]; eexists _, _;
    (split; [reflexivity|]); [reflexivity|congruence].
Qed.

(** X29: one whole exchange.  With nothing pending and an empty queue, a
    request is submitted.  The master's bare poll in sequence moves the
    counter on and is answered with the request, under the new sequence
    number.  The master's next poll, in sequence and carrying a unit byte and
    the response, closes the transaction with that response and is answered
    with the bare header under the sequence number after that; the transport
    is as at the start but for the counter. *)
Theorem tunnel_exchange (st : Tunnel.State) (t : Transaction)
    u (response : Buf.buffer) :
  Tunnel.transaction st = None ->
  Tunnel.nextTransaction st = None ->
  Tunnel.reader st = [] ->
  Core.getAdu t = None ->
  let id := Tunnel.slaveId st in
  let s := Tunnel.sequence st in
  let s1 := (s + 1) mod 256 in
  let s2 := (s1 + 1) mod 256 in
  let poll1 := Crc.frame id [Tunnel.SLAVE_COMMAND; s] in
  let poll2 := Crc.frame id (Tunnel.SLAVE_COMMAND :: s1 :: u :: response) in
  let reply1 := Crc.frame id (Tunnel.SLAVE_COMMAND :: s1
                                :: getUnit t :: request t) in
  let o0 := Tunnel.sendRequest st t in
  let o1 := Tunnel.handleFrameData (Tunnel.onData (final o0) poll1) in
  let o2 := Tunnel.handleFrameData (Tunnel.onData (final o1) poll2) in
  o0 = Returns (Tunnel.set_transaction st (Some t))
         [EmitRequest t; Start t HandleTimeout]
  /\ events o1 = [EmitSniff SniffPdu poll1; Write reply1]
  /\ o2 = Returns (Tunnel.set_sequence st s2)
            [EmitSniff SniffPdu poll2;
             CreateResponse (setAdu t reply1) response;
             Write (Crc.frame id [Tunnel.SLAVE_COMMAND; s2])].
Proof.
  intros Hnone Hnext Hreader Hadu id s s1 s2 poll1 poll2 reply1 o0 o1 o2.
  assert (H0 : o0 = Returns (Tunnel.set_transaction st (Some t))
                      [EmitRequest t; Start t HandleTimeout]).
  { unfold o0, Tunnel.sendRequest. now rewrite Hnone. }
  destruct st as [sid c n sq rd]. cbn in Hnone, Hnext, Hreader.
  subst c n rd. cbn in id, s. subst id s.
  assert (H1 : o1 = Returns
                     {| Tunnel.slaveId := sid;
                        Tunnel.transaction := Some (setAdu t reply1);
                        Tunnel.nextTransaction := None;
                        Tunnel.sequence := s1;
                        Tunnel.reader := [] |}
                     [EmitSniff SniffPdu poll1; Write reply1]).
  { unfold o1. rewrite H0. tunnel_fields. cbn [app].
    rewrite (handleFrameData_poll _ []) by reflexivity.
    unfold Tunnel.handleSlaveCommand. tunnel_fields.
    destruct (decide _) as [_|Hne]; [|now contradiction Hne].
    cbn [length Nat.ltb Nat.leb].
    unfold Tunnel.sendSlaveResponse, Tunnel.getAdu, Tunnel.buildAdu.
    tunnel_fields. cbn [mbind option_bind]. rewrite Hadu.
    tunnel_fields. rewrite land_255_mod. reflexivity. }
  split; [exact H0|]. split; [now rewrite H1|].
  unfold o2. rewrite H1. tunnel_fields. cbn [app].
  rewrite (handleFrameData_poll _ (u :: response)) by reflexivity.
  unfold Tunnel.handleSlaveCommand. tunnel_fields.
  destruct (decide _) as [_|Hne]; [|now contradiction Hne].
  cbn [length Nat.ltb Nat.leb].
  unfold Tunnel.sendSlaveResponse, Tunnel.getAdu, Tunnel.buildAdu,
    Tunnel.startTransaction.
  tunnel_fields. cbn [mbind option_bind]. tunnel_fields.
  rewrite land_255_mod. reflexivity.
Qed.

(** X30: the hand-over.  With two transactions queued, the poll in sequence
    that carries the response closes the current one with it, starts the
    queued one, and the reply to that very poll already carries the queued
    request, under the new sequence number. *)
Theorem tunnel_handover (st : Tunnel.State) (t n : Transaction)
    u (response : Buf.buffer) :
  Tunnel.transaction st = Some t ->
  Tunnel.nextTransaction st = Some n ->
  Core.getAdu n = None ->
  Tunnel.reader st
  = Crc.frame (Tunnel.slaveId st)
      (Tunnel.SLAVE_COMMAND :: Tunnel.sequence st :: u :: response) ->
  let s1 := (Tunnel.sequence st + 1) mod 256 in
  let reply := Crc.frame (Tunnel.slaveId st)
                 (Tunnel.SLAVE_COMMAND :: s1 :: getUnit n :: request n) in
  Tunnel.handleFrameData st
  = Returns {| Tunnel.slaveId := Tunnel.slaveId st;
               Tunnel.transaction := Some (setAdu n reply);
               Tunnel.nextTransaction := None;
               Tunnel.sequence := s1;
               Tunnel.reader := [] |}
      [EmitSniff SniffPdu (Tunnel.reader st);
       CreateResponse t response;
       EmitRequest n; Start n HandleTimeout;
       Write reply].
Proof.
  intros Ht Hn Hadu Hreader s1 reply.
  rewrite (handleFrameData_poll st (u :: response) Hreader).
  rewrite <- Hreader.
  unfold Tunnel.handleSlaveCommand. tunnel_fields.
  destruct (decide _) as [_|Hne]; [|now contradiction Hne].
  rewrite Ht, Hn. cbn [length Nat.ltb Nat.leb].
  unfold Tunnel.sendSlaveResponse, Tunnel.getAdu, Tunnel.buildAdu,
    Tunnel.startTransaction.
  tunnel_fields. cbn [mbind option_bind]. rewrite Hadu. tunnel_fields.
  rewrite land_255_mod. reflexivity.
Qed.

(** ** Worked examples *)

Lemma tunnel_out_of_sequence_poll_witness :
  let t := {| tid := 1; unit_ := 1; request := [0x11]; adu := None |} in
  let st := {| Tunnel.slaveId := 127; Tunnel.transaction := Some t;
               Tunnel.nextTransaction := None; Tunnel.sequence := 0;
               Tunnel.reader :=
                 Crc.frame 127 [Tunnel.SLAVE_COMMAND; 5; 1; 0x11; 2] |} in
  Tunnel.handleFrameData st
  = let '(st', reply) := Tunnel.sendSlaveResponse (Tunnel.flushReader st) in
    Returns st' (EmitSniff SniffPdu (Tunnel.reader st) :: reply).
Proof.
  intros t st.
  apply (tunnel_out_of_sequence_poll st [5; 1; 0x11; 2]);
    [reflexivity | discriminate].
Defined.

Lemma tunnel_other_function_ignored_witness :
  let t := {| tid := 1; unit_ := 1; request := [0x11]; adu := None |} in
  let st := {| Tunnel.slaveId := 127; Tunnel.transaction := Some t;
               Tunnel.nextTransaction := None; Tunnel.sequence := 0;
               Tunnel.reader := Crc.frame 127 [0x03; 0; 0; 0; 1] |} in
  Tunnel.handleFrameData st
  = Returns (Tunnel.flushReader st)
      [EmitSniff SniffPdu (Tunnel.reader st); ConsoleLog (Some 0x03)].
Proof.
  intros t st.
  apply (tunnel_other_function_ignored st 0x03 [0; 0; 0; 1]);
    [unfold Tunnel.SLAVE_COMMAND; lia | reflexivity].
Defined.

Lemma tunnel_damaged_frame_dropped_witness :
  let t := {| tid := 1; unit_ := 1; request := [0x11]; adu := None |} in
  let st1 := {| Tunnel.slaveId := 127; Tunnel.transaction := Some t;
                Tunnel.nextTransaction := None; Tunnel.sequence := 0;
                Tunnel.reader := [127; 0x47; 0] |} in
  let st2 := Tunnel.set_reader st1 [127; 0x47; 0; 0; 0] in
  Tunnel.handleFrameData st1
  = Returns (Tunnel.flushReader st1) [EmitSniffIncomplete]
  /\ Tunnel.handleFrameData st2
     = Returns (Tunnel.flushReader st2)
         [EmitSniff SniffBadChecksum (Tunnel.reader st2)].
Proof.
  intros t st1 st2. split.
  - apply (proj1 (tunnel_damaged_frame_dropped st1)). simpl. lia.
  - apply (proj2 (tunnel_damaged_frame_dropped st2) 127 [0x47; 0] 0 0);
      [reflexivity | simpl; lia | vm_compute; discriminate].
Defined.

Lemma tunnel_consistent_witness :
  let st := Tunnel.fresh 127 in
  Tunnel.consistent st
  /\ (forall t, Tunnel.consistent (final (Tunnel.sendRequest st t)))
  /\ Tunnel.consistent (fst (Tunnel.handleTimeout st))
  /\ (forall data, Tunnel.consistent (Tunnel.onData st data))
  /\ Tunnel.consistent (final (Tunnel.handleFrameData st)).
Proof.
  intros st.
  assert (Hst : Tunnel.consistent st).
  { split; [intros Hn; now contradiction Hn | simpl; lia]. }
  split; [exact Hst|]. apply (tunnel_consistent st Hst).
Defined.

Lemma tunnel_exchange_witness :
  let t := {| tid := 1; unit_ := 1; request := [0x11]; adu := None |} in
  let st := Tunnel.set_sequence (Tunnel.fresh 127) 255 in
  let poll1 := Crc.frame 127 [Tunnel.SLAVE_COMMAND; 255] in
  let poll2 := Crc.frame 127 [Tunnel.SLAVE_COMMAND; 0; 1; 0x11; 2; 9] in
  let reply1 := Crc.frame 127 [Tunnel.SLAVE_COMMAND; 0; 1; 0x11] in
  let o0 := Tunnel.sendRequest st t in
  let o1 := Tunnel.handleFrameData (Tunnel.onData (final o0) poll1) in
  let o2 := Tunnel.handleFrameData (Tunnel.onData (final o1) poll2) in
  o0 = Returns (Tunnel.set_transaction st (Some t))
         [EmitRequest t; Start t HandleTimeout]
  /\ events o1 = [EmitSniff SniffPdu poll1; Write reply1]
  /\ o2 = Returns (Tunnel.set_sequence st 1)
            [EmitSniff SniffPdu poll2;
             CreateResponse (setAdu t reply1) [0x11; 2; 9];
             Write (Crc.frame 127 [Tunnel.SLAVE_COMMAND; 1])].
Proof.
  intros t st.
  apply (tunnel_exchange st t 1 [0x11; 2; 9]); reflexivity.
Defined.

Lemma tunnel_handover_witness :
  let t := {| tid := 1; unit_ := 1; request := [0x11]; adu := None |} in
  let n := {| tid := 2; unit_ := 3; request := [0x2B; 0x0E];
              adu := None |} in
  let st := {| Tunnel.slaveId := 127; Tunnel.transaction := Some t;
               Tunnel.nextTransaction := Some n; Tunnel.sequence := 7;
               Tunnel.reader :=
                 Crc.frame 127 [Tunnel.SLAVE_COMMAND; 7; 1; 0x11; 2; 9] |} in
  let reply := Crc.frame 127 [Tunnel.SLAVE_COMMAND; 8; 3; 0x2B; 0x0E] in
  Tunnel.handleFrameData st
  = Returns {| Tunnel.slaveId := 127;
               Tunnel.transaction := Some (setAdu n reply);
               Tunnel.nextTransaction := None;
               Tunnel.sequence := 8;
               Tunnel.reader := [] |}
      [EmitSniff SniffPdu (Tunnel.reader st);
       CreateResponse t [0x11; 2; 9];
       EmitRequest n; Start n HandleTimeout;
       Write reply].
Proof.
  intros t n st.
  apply (tunnel_handover st t n 1 [0x11; 2; 9]); reflexivity.
Defined.

End TunnelMoreFacts.
